(** * SAMLView: the capture-session engine of [background.js]

    A shallow embedding of the background script of the SAMLView browser
    extension: the decoder (base64, optional raw-deflate, UTF-8), the
    artifact extractor (query string, form body, JSON body, SOAP body,
    headers), the tab tracker, and the bounded, deduplicated, correlated
    message store.

    Conventions of the embedding.
    - A JavaScript string is a [string]; its characters stand for code units
      below 256, which covers every literal the script compares against.
    - A [Uint8Array] is a [list Byte.byte].
    - [Set<string>] is a [gset string], [Map<string, number>] a
      [gmap string nat]; the process-wide [Map] of sessions, whose iteration
      order the script relies on, is an association list.
    - Functions the browser provides ([DecompressionStream], [TextDecoder],
      [URL], [JSON.parse]) are fields of a [Host] record; [atob] is written
      out after the forgiving-base64 algorithm it implements.
    - [console.log] and the [messagesUpdated] notification do not touch the
      session and are left out. *)

From Stdlib Require Import ZArith NArith Ascii String List Lia.
From Stdlib.Strings Require Import Byte.
From stdpp Require Import base option gmap sets list strings pretty sorting.

#[local] Set Warnings "-clear-no-such-hyp".

Local Open Scope N_scope.

(** ** Constants *)

Definition MAX_MESSAGES : nat := 1000.
Definition MIN_BASE64_LENGTH : nat := 16.
Definition XML_DETECTION_PREVIEW_LENGTH : nat := 400.

(** ** JavaScript string primitives *)

Module JsString.

Definition code (c : ascii) : N := N_of_ascii c.

Definition in_range (lo hi : N) (c : ascii) : bool :=
  (lo <=? code c) && (code c <=? hi).

Definition is_upper : ascii → bool := in_range 65 90.
Definition is_lower : ascii → bool := in_range 97 122.
Definition is_digit : ascii → bool := in_range 48 57.

(** [String.prototype.toLowerCase] on the letters A to Z. *)
Definition lower_char (c : ascii) : ascii :=
  if is_upper c then ascii_of_N (code c + 32) else c.

Fixpoint toLowerCase (s : string) : string :=
  match s with
  | EmptyString => EmptyString
  | String c r => String (lower_char c) (toLowerCase r)
  end.

(** [s.startsWith(p)] *)
Fixpoint startsWith (s p : string) : bool :=
  match p, s with
  | EmptyString, _ => true
  | String _ _, EmptyString => false
  | String a p', String b s' => if Ascii.eqb a b then startsWith s' p' else false
  end.

(** [s.includes(sub)] *)
Fixpoint includes (s sub : string) : bool :=
  startsWith s sub ||
  match s with
  | EmptyString => false
  | String _ r => includes r sub
  end.

(** White space and line terminators removed by [String.prototype.trim]
    among the code units below 256. *)
Definition is_trim_space (c : ascii) : bool :=
  let n := code c in
  (n =? 9) || (n =? 10) || (n =? 11) || (n =? 12) || (n =? 13) ||
  (n =? 32) || (n =? 160).

Fixpoint trimStart (s : string) : string :=
  match s with
  | EmptyString => EmptyString
  | String c r => if is_trim_space c then trimStart r else s
  end.

Fixpoint trimEnd (s : string) : string :=
  match s with
  | EmptyString => EmptyString
  | String c r =>
      match trimEnd r with
      | EmptyString => if is_trim_space c then EmptyString else String c EmptyString
      | r' => String c r'
      end
  end.

Definition trim (s : string) : string := trimEnd (trimStart s).

(** [s.slice(0, n)] *)
Fixpoint slice0 (n : nat) (s : string) : string :=
  match n, s with
  | S n', String c r => String c (slice0 n' r)
  | _, _ => EmptyString
  end.

(** Truthiness of a string value: the empty string is falsy. *)
Definition truthy (s : string) : bool :=
  match s with EmptyString => false | _ => true end.

(** Truthiness of a possibly [undefined] string. *)
Definition truthy_opt (o : option string) : bool :=
  match o with Some s => truthy s | None => false end.

(** [a || b] on strings. *)
Definition or_else (a b : string) : string := if truthy a then a else b.

End JsString.

Import JsString.

(** ** Base64 *)

Module Base64.

(** The value of a character in the base64 alphabet of RFC 4648. *)
Definition b64_value (c : ascii) : option N :=
  if is_upper c then Some (code c - 65)
  else if is_lower c then Some (code c - 97 + 26)
  else if is_digit c then Some (code c - 48 + 52)
  else if code c =? 43 then Some 62
  else if code c =? 47 then Some 63
  else None.

Definition b64_char (n : N) : ascii :=
  if n <? 26 then ascii_of_N (n + 65)
  else if n <? 52 then ascii_of_N (n - 26 + 97)
  else if n <? 62 then ascii_of_N (n - 52 + 48)
  else if n =? 62 then "+"%char
  else "/"%char.

(** *** [atob]: the forgiving-base64 decode of the host

    The steps are those of the algorithm the browser runs for [atob]. *)

(** Step 1: ASCII whitespace is TAB, LF, FF, CR and SPACE. *)
Definition is_ascii_whitespace (c : ascii) : bool :=
  let n := code c in
  (n =? 9) || (n =? 10) || (n =? 12) || (n =? 13) || (n =? 32).

Definition remove_whitespace (l : list ascii) : list ascii :=
  List.filter (λ c, negb (is_ascii_whitespace c)) l.

(** Step 2: one or two [=] at the end are removed. *)
Fixpoint drop_trailing_equals (l : list ascii) : list ascii :=
  match l with
  | [] => []
  | c :: r =>
      match r with
      | [] => if Ascii.eqb c "=" then [] else [c]
      | [d] => if Ascii.eqb c "=" && Ascii.eqb d "=" then []
               else c :: drop_trailing_equals r
      | _ => c :: drop_trailing_equals r
      end
  end.

Definition strip_padding (l : list ascii) : list ascii :=
  if (length l mod 4 =? 0)%nat then drop_trailing_equals l else l.

(** Step 4: every remaining character must be in the alphabet. *)
Fixpoint sextets_of (l : list ascii) : option (list N) :=
  match l with
  | [] => Some []
  | c :: r =>
      match b64_value c, sextets_of r with
      | Some n, Some ns => Some (n :: ns)
      | _, _ => None
      end
  end.

(** Steps 5 to 9: every four sextets give three bytes; twelve left-over
    bits give one byte and eighteen give two, the last bits discarded. *)
Fixpoint bytes_of_sextets (l : list N) : list N :=
  match l with
  | a :: b :: c :: d :: r =>
      (a * 4 + b / 16) :: ((b mod 16) * 16 + c / 4) :: ((c mod 4) * 64 + d)
      :: bytes_of_sextets r
  | [a; b; c] => [a * 4 + b / 16; (b mod 16) * 16 + c / 4]
  | [a; b] => [a * 4 + b / 16]
  | _ => []
  end.

Definition forgiving_decode (data : list ascii) : option (list N) :=
  let data := strip_padding (remove_whitespace data) in
  if (length data mod 4 =? 1)%nat then None
  else bytes_of_sextets <$> sextets_of data.

(** [atob(b64)]: the binary string, or [None] where [atob] throws. *)
Definition atob (b64 : string) : option string :=
  (λ ns, string_of_list_ascii (List.map ascii_of_N ns))
    <$> forgiving_decode (list_ascii_of_string b64).

(** [b64ToBytes]: [bytes[i] = bin.charCodeAt(i)]; [null] when [atob]
    throws. *)
Definition b64ToBytes (b64 : string) : option (list byte) :=
  match atob b64 with
  | Some bin => Some (List.map byte_of_ascii (list_ascii_of_string bin))
  | None => None
  end.

(** *** The encoder of RFC 4648, section 4

    The script never encodes; this is the re-encoding the round-trip
    property of the specification speaks of. *)
Fixpoint sextets_of_bytes (l : list N) : list N :=
  match l with
  | a :: b :: c :: r =>
      (a / 4) :: ((a mod 4) * 16 + b / 16) :: ((b mod 16) * 4 + c / 64)
      :: (c mod 64) :: sextets_of_bytes r
  | [a; b] => [a / 4; (a mod 4) * 16 + b / 16; (b mod 16) * 4]
  | [a] => [a / 4; (a mod 4) * 16]
  | [] => []
  end.

Fixpoint padding_for (l : list N) : list ascii :=
  match l with
  | _ :: _ :: _ :: r => padding_for r
  | [_; _] => ["="%char]
  | [_] => ["="%char; "="%char]
  | [] => []
  end.

Definition encode_octets (l : list N) : list ascii :=
  List.map b64_char (sextets_of_bytes l) ++ padding_for l.

Definition bytesToBase64 (bs : list byte) : string :=
  string_of_list_ascii (encode_octets (List.map Byte.to_N bs)).

End Base64.

Import Base64.

(** ** JSON values

    The value [JSON.parse] returns. The members of an object are listed in
    the order [Object.entries] enumerates them, each key once. *)

#[local] Set Warnings "-register-all".
#[local] Unset Elimination Schemes.
Inductive json :=
| JNull
| JBool (b : bool)
| JNumber (literal : string)
| JString (s : string)
| JArray (elements : list json)
| JObject (members : list (string * json)).
#[local] Set Elimination Schemes.

(** ** The host environment *)

Record Host := {
  (** [DecompressionStream('deflate-raw')]: [None] when the constructor is
      undefined; the function returns [None] where inflation throws. *)
  DecompressionStream : option (list byte → option (list byte));
  (** [new TextDecoder('utf-8', { fatal: false }).decode(bytes)] *)
  TextDecoder_decode : list byte → string;
  (** [new URL(url).searchParams] as the list of its name and value pairs;
      [None] where the constructor throws. *)
  URL_searchParams : string → option (list (string * string));
  (** [JSON.parse(text)]; [None] where it throws. *)
  JSON_parse : string → option json;
}.

(** ** The decoder *)

Section Decoder.
Context (host : Host).

Definition maybeInflateDeflateRaw (bytes : list byte) : list byte :=
  match DecompressionStream host with
  | None => bytes
  | Some inflate =>
      match inflate bytes with
      | Some inflated => inflated
      | None => bytes
      end
  end.

(** In non-fatal mode the decoder does not throw: the [catch] is never
    entered. *)
Definition bytesToUtf8 (bytes : list byte) : option string :=
  Some (TextDecoder_decode host bytes).

(** [text || null] *)
Definition text_or_null (text : option string) : option string :=
  match text with
  | Some t => if truthy t then Some t else None
  | None => None
  end.

Definition decodeSAML (b64 : string) (tryInflate : bool) : option string :=
  match b64ToBytes b64 with
  | None => None
  | Some raw =>
      let data := if tryInflate then maybeInflateDeflateRaw raw else raw in
      text_or_null (bytesToUtf8 data)
  end.

End Decoder.

(** ** Heuristics on strings *)

Definition is_base64_char (c : ascii) : bool :=
  is_upper c || is_lower c || is_digit c ||
  (code c =? 43) || (code c =? 47) || (code c =? 61).

Fixpoint all_chars (p : ascii → bool) (s : string) : bool :=
  match s with
  | EmptyString => true
  | String c r => p c && all_chars p r
  end.

(** [/^[A-Za-z0-9+/=]+$/.test(s)], for a string already known to be
    non-empty. *)
Definition looksLikeBase64 (s : string) : bool :=
  if negb (truthy s) || (String.length s <? MIN_BASE64_LENGTH)%nat then false
  else if negb (all_chars is_base64_char s) then false
  else (String.length s mod 4 =? 0)%nat.

Definition looksLikeXML (text : string) : bool :=
  if negb (truthy text) then false
  else
    let t := slice0 200 (trim text) in
    startsWith t "<" || startsWith t "<?xml".

(** [\w] of a regular expression. *)
Definition is_word_char (c : ascii) : bool :=
  is_upper c || is_lower c || is_digit c || (code c =? 95).

(** [/\bW\b/i.test(s)] for a word [W] of letters, given in lower case:
    [prev] tells whether the character before [s] is a word character. *)
Fixpoint test_word_ci (w : string) (prev : bool) (s : string) : bool :=
  match s with
  | EmptyString => false
  | String c r =>
      (negb prev && startsWith (toLowerCase s) w &&
       match String.substring (String.length w) 1 s with
       | String d _ => negb (is_word_char d)
       | EmptyString => true
       end)
      || test_word_ci w (is_word_char c) r
  end.

Definition guessKindFromXML (xml : string) : string :=
  let t := slice0 XML_DETECTION_PREVIEW_LENGTH xml in
  if test_word_ci "authnrequest" false t then "SAMLRequest"
  else if test_word_ci "response" false t then "SAMLResponse"
  else "SAML-XML".

(** ** Records of the data model *)

(** A plain object used as a map from header names to values:
    [obj[k] = v] overwrites in place or appends. *)
Definition js_object := list (string * option string).

Fixpoint obj_set (o : js_object) (k : string) (v : option string) : js_object :=
  match o with
  | [] => [(k, v)]
  | (k', v') :: r => if String.eqb k' k then (k, v) :: r else (k', v') :: obj_set r k v
  end.

Record Message := {
  id : nat;
  kind : string;
  transport : string;
  url : string;
  time : string;
  xml : string;
  tabId : Z;
  source : option string;
  base64 : option string;
  encoding : option string;
  relayState : option string;
  method : option string;
  requestHeaders : option js_object;
  requestId : option string;
  statusCode : option Z;
  responseHeaders : option js_object;
}.

Record SessionState := {
  windowId : Z;
  rootTabId : Z;
  trackedTabIds : gset Z;
  messages : list Message;
  nextMessageId : nat;
  seenKeys : gset string;
  requestIdToMessageId : gmap string nat;
  isCapturing : option bool;
}.

Module header.
Record t := { name : string; value : option string }.
End header.

Module body.
(** One element of [requestBody.raw]; [bytes] is absent for a file. *)
Record upload := { bytes : option (list byte) }.
Record t := {
  formData : option (list (string * list string));
  raw : option (list upload);
}.
End body.

Module details.
Record t := {
  tabId : Z;
  url : string;
  method : string;
  requestId : string;
  requestBody : option body.t;
  requestHeaders : option (list header.t);
  responseHeaders : option (list header.t);
  statusCode : Z;
}.
End details.

Module item.
(** An element of [found] in [extractSAMLFromJSONText]. *)
Record t := { name : string; value : string }.
End item.

Module found.
(** The candidate record of the extractor. *)
Record t := { name : string; value : string; transport : string }.
End found.

Module tab.
Record t := { id : Z; openerTabId : option Z }.
End tab.

(** ** Sessions *)

Definition createSession (windowId rootTabId : Z) : SessionState :=
  {| windowId := windowId;
     rootTabId := rootTabId;
     trackedTabIds := {[ rootTabId ]};
     messages := [];
     nextMessageId := 1;
     seenKeys := ∅;
     requestIdToMessageId := ∅;
     isCapturing := None |}.

Definition set_trackedTabIds (s : SessionState) (t : gset Z) : SessionState :=
  {| windowId := windowId s; rootTabId := rootTabId s; trackedTabIds := t;
     messages := messages s; nextMessageId := nextMessageId s;
     seenKeys := seenKeys s; requestIdToMessageId := requestIdToMessageId s;
     isCapturing := isCapturing s |}.

Definition set_isCapturing (s : SessionState) (b : bool) : SessionState :=
  {| windowId := windowId s; rootTabId := rootTabId s;
     trackedTabIds := trackedTabIds s;
     messages := messages s; nextMessageId := nextMessageId s;
     seenKeys := seenKeys s; requestIdToMessageId := requestIdToMessageId s;
     isCapturing := Some b |}.

(** The three fields the message store owns, and the counter. *)
Definition set_store (s : SessionState) (ms : list Message) (next : nat)
    (keys : gset string) (index : gmap string nat) : SessionState :=
  {| windowId := windowId s; rootTabId := rootTabId s;
     trackedTabIds := trackedTabIds s;
     messages := ms; nextMessageId := next;
     seenKeys := keys; requestIdToMessageId := index;
     isCapturing := isCapturing s |}.

(** [session.nextMessageId++]: the old value is the result. *)
Definition bump (s : SessionState) : SessionState :=
  set_store s (messages s) (S (nextMessageId s)) (seenKeys s)
    (requestIdToMessageId s).

(** ** The message store *)

Definition makeDedupKey (kind xml : string) : string :=
  kind +:+ "|" +:+ xml.

Definition key_of (m : Message) : string := makeDedupKey (kind m) (xml m).

(** [addMessage]: the session after the call and the value returned. *)
Definition addMessage (session : SessionState) (entry : Message)
    : SessionState * bool :=
  let key := makeDedupKey (kind entry) (xml entry) in
  if decide (key ∈ seenKeys session) then (session, false)
  else
    let keys := {[ key ]} ∪ seenKeys session in
    let ms := messages session ++ [entry] in
    let index :=
      match requestId entry with
      | Some r =>
          if truthy r then <[ r := id entry ]> (requestIdToMessageId session)
          else requestIdToMessageId session
      | None => requestIdToMessageId session
      end in
    if (MAX_MESSAGES <? length ms)%nat then
      match ms with
      | removed :: rest =>
          let keys' := keys ∖ {[ makeDedupKey (kind removed) (xml removed) ]} in
          let index' :=
            match requestId removed with
            | Some r => if truthy r then delete r index else index
            | None => index
            end in
          (set_store session rest (nextMessageId session) keys' index', true)
      | [] => (set_store session ms (nextMessageId session) keys index, true)
      end
    else (set_store session ms (nextMessageId session) keys index, true).

(** The [clearMessages] case of the control channel, for an existing
    session. *)
Definition clearMessages (session : SessionState) : SessionState :=
  set_store session [] (nextMessageId session) ∅
    (requestIdToMessageId session).

(** [attachResponseData], from the lookup in the index on. The loop over
    [details.responseHeaders] keeps the allow-listed headers. *)
Definition response_allow_list : list string :=
  ["content-type"; "location"; "set-cookie"].

Definition request_allow_list : list string :=
  ["content-type"; "accept"; "authorization"; "user-agent"].

Definition js_includes (l : list string) (x : string) : bool :=
  existsb (String.eqb x) l.

Definition filter_headers (allow : list string) (hs : option (list header.t))
    : js_object :=
  match hs with
  | None => []
  | Some hs =>
      fold_left
        (λ o h,
           if js_includes allow (toLowerCase (or_else (header.name h) ""))
           then obj_set o (header.name h) (header.value h) else o)
        hs []
  end.

Definition attach (m : Message) (status : Z) (hs : js_object) : Message :=
  {| id := id m; kind := kind m; transport := transport m; url := url m;
     time := time m; xml := xml m; tabId := tabId m; source := source m;
     base64 := base64 m; encoding := encoding m; relayState := relayState m;
     method := method m; requestHeaders := requestHeaders m;
     requestId := requestId m;
     statusCode := Some status; responseHeaders := Some hs |}.

(** [messages.find(m => m.id === messageId)] followed by the two
    assignments to the message found: the first match is updated in place. *)
Fixpoint attach_first (ms : list Message) (messageId : nat) (status : Z)
    (hs : js_object) : option (list Message) :=
  match ms with
  | [] => None
  | m :: r =>
      if (id m =? messageId)%nat then Some (attach m status hs :: r)
      else cons m <$> attach_first r messageId status hs
  end.

Definition attachResponseData (session : SessionState) (d : details.t)
    : SessionState :=
  match requestIdToMessageId session !! details.requestId d with
  | None => session
  | Some messageId =>
      if (messageId =? 0)%nat then session
      else
        match attach_first (messages session) messageId (details.statusCode d)
                (filter_headers response_allow_list (details.responseHeaders d))
        with
        | None => session
        | Some ms =>
            set_store session ms (nextMessageId session) (seenKeys session)
              (requestIdToMessageId session)
        end
  end.

(** ** The artifact extractor *)

(** [q.has(k)] holds exactly when [q.get(k)] is not [null]; [get] gives the
    first value. *)
Fixpoint searchParams_get (q : list (string * string)) (k : string)
    : option string :=
  match q with
  | [] => None
  | (k', v) :: r => if String.eqb k' k then Some v else searchParams_get r k
  end.

(** [fd[k] && fd[k][0]] as a string, when truthy. *)
Fixpoint formData_first (fd : list (string * list string)) (k : string)
    : option string :=
  match fd with
  | [] => None
  | (k', vs) :: r =>
      if String.eqb k' k then
        match vs with
        | v :: _ => Some v
        | [] => None
        end
      else formData_first r k
  end.

Definition makeArtifactXML (artifact : string) : string :=
  let safe :=
    (fix esc (s : string) : string :=
       match s with
       | EmptyString => EmptyString
       | String c r =>
           if Ascii.eqb c "<" then "&lt;" +:+ esc r
           else if Ascii.eqb c ">" then "&gt;" +:+ esc r
           else if Ascii.eqb c "&" then "&amp;" +:+ esc r
           else String c (esc r)
       end) artifact in
  "<!-- SAMLArtifact: " +:+ safe +:+
  " (Note: Full assertion not available via Artifact binding) -->".

(** [/samlp?:/i.test(text)] *)
Definition mentions_saml (text : string) : bool :=
  let t := toLowerCase text in
  includes t "saml:" || includes t "samlp:".

(** The walk of [extractSAMLFromJSONText]: the elements pushed on [found],
    in the order they are pushed. *)
Fixpoint walk (v : json) (k : string) : list item.t :=
  match v with
  | JString s =>
      let key := toLowerCase (or_else k "") in
      if includes key "samlresponse" || includes key "samlrequest"
      then [ {| item.name := k; item.value := s |} ]
      else if looksLikeBase64 s
      then [ {| item.name := or_else k "b64"; item.value := s |} ]
      else []
  | JArray elements =>
      (fix entries (i : nat) (l : list json) : list item.t :=
         match l with
         | [] => []
         | cv :: r => walk cv (pretty i) ++ entries (S i) r
         end) 0%nat elements
  | JObject members =>
      (fix entries (l : list (string * json)) : list item.t :=
         match l with
         | [] => []
         | (ck, cv) :: r => walk cv ck ++ entries r
         end) members
  | JNull | JBool _ | JNumber _ => []
  end.

(** [found.length ? found : null] *)
Definition found_or_null (found : list item.t) : option (list item.t) :=
  match found with [] => None | _ => Some found end.

(** The name given to a JSON candidate by [extractFromBody]. *)
Definition json_candidate_name (name : string) : string :=
  if truthy name && includes (toLowerCase name) "request" then "SAMLRequest"
  else if truthy name && includes (toLowerCase name) "response" then "SAMLResponse"
  else "SAMLBase64".

(** The loop of [extractFromBody] over [foundJSON]. *)
Fixpoint first_base64_item (items : list item.t) : option found.t :=
  match items with
  | [] => None
  | it :: r =>
      if looksLikeBase64 (item.value it)
      then Some {| found.name := json_candidate_name (item.name it);
                   found.value := item.value it;
                   found.transport := "JSON" |}
      else first_base64_item r
  end.

Section Extractor.
Context (host : Host).

Definition decodeRawBody (d : details.t) : option string :=
  match details.requestBody d with
  | None => None
  | Some rb =>
      match body.raw rb with
      | None | Some [] => None
      | Some parts =>
          let parts :=
            List.filter (λ b : list byte, negb (length b =? 0)%nat)
              (List.map (λ p, default [] (body.bytes p)) parts) in
          match parts with
          | [] => None
          | _ => text_or_null (bytesToUtf8 host (List.concat parts))
          end
      end
  end.

Definition extractSAMLFromJSONText (text : string) : option (list item.t) :=
  match JSON_parse host text with
  | None => None
  | Some obj => found_or_null (walk obj "")
  end.

Definition extractFromQuery (url : string) : option found.t :=
  match URL_searchParams host url with
  | None => None
  | Some q =>
      match searchParams_get q "SAMLResponse" with
      | Some v => Some {| found.name := "SAMLResponse"; found.value := v;
                          found.transport := "GET" |}
      | None =>
      match searchParams_get q "SAMLRequest" with
      | Some v => Some {| found.name := "SAMLRequest"; found.value := v;
                          found.transport := "GET" |}
      | None =>
      match searchParams_get q "SAMLart" with
      | Some v => Some {| found.name := "SAMLArtifact"; found.value := v;
                          found.transport := "GET" |}
      | None => None
      end end end
  end.

Definition formData_of (d : details.t) : option (list (string * list string)) :=
  match details.requestBody d with
  | Some rb => body.formData rb
  | None => None
  end.

Definition extractFromForm (d : details.t) : option found.t :=
  match formData_of d with
  | None => None
  | Some fd =>
      let pick k := match formData_first fd k with
                    | Some v => if truthy v then Some v else None
                    | None => None
                    end in
      match pick "SAMLResponse" with
      | Some v => Some {| found.name := "SAMLResponse"; found.value := v;
                          found.transport := "POST" |}
      | None =>
      match pick "SAMLRequest" with
      | Some v => Some {| found.name := "SAMLRequest"; found.value := v;
                          found.transport := "POST" |}
      | None =>
      match pick "SAMLart" with
      | Some v => Some {| found.name := "SAMLArtifact"; found.value := v;
                          found.transport := "POST" |}
      | None => None
      end end end
  end.

(** The JSON path of [extractFromBody]. *)
Definition jsonCandidate (rawText : string) : option found.t :=
  match extractSAMLFromJSONText rawText with
  | Some foundJSON => first_base64_item foundJSON
  | None => None
  end.

(** The raw-body part of [extractFromBody]: JSON first, then SOAP. *)
Definition extractFromRaw (d : details.t) : option found.t :=
  match decodeRawBody d with
  | None => None
  | Some rawText =>
      match jsonCandidate rawText with
      | Some f => Some f
      | None =>
          if looksLikeXML rawText && mentions_saml rawText
          then Some {| found.name := "SAML-XML"; found.value := rawText;
                       found.transport := "SOAP" |}
          else None
      end
  end.

Definition extractFromBody (d : details.t) : option found.t :=
  match extractFromForm d with
  | Some f => Some f
  | None => extractFromRaw d
  end.

(** [extractFromQuery(details.url) || extractFromBody(details)] *)
Definition extract (d : details.t) : option found.t :=
  match extractFromQuery (details.url d) with
  | Some f => Some f
  | None => extractFromBody d
  end.

Definition relayState_of (d : details.t) : option string :=
  let from_url :=
    match URL_searchParams host (details.url d) with
    | Some q => searchParams_get q "RelayState"
    | None => None
    end in
  if truthy_opt from_url then from_url
  else
    match formData_of d with
    | Some fd =>
        match List.find (λ p, String.eqb (fst p) "RelayState") fd with
        | Some (_, v :: _) => Some v
        | _ => None
        end
    | None => from_url
    end.

(** The entry [handlePossibleSAML] builds for a candidate, where it builds
    one; [next] is the value of [session.nextMessageId++]. *)
Definition entry_of_found (now : string) (d : details.t) (f : found.t)
    (next : nat) : option Message :=
  let mk kind transport xml source base64 encoding :=
    {| id := next; kind := kind; transport := transport;
       url := details.url d; time := now; xml := xml;
       tabId := details.tabId d; source := source; base64 := base64;
       encoding := encoding; relayState := relayState_of d;
       method := Some (details.method d);
       requestHeaders :=
         Some (filter_headers request_allow_list (details.requestHeaders d));
       requestId := Some (details.requestId d);
       statusCode := None; responseHeaders := None |} in
  if String.eqb (found.name f) "SAMLArtifact" then
    Some (mk "SAMLArtifact" (found.transport f)
            (makeArtifactXML (found.value f)) (Some "artifact")
            (Some (found.value f)) (Some "artifact"))
  else if String.eqb (found.transport f) "JSON" then
    match decodeSAML host (found.value f) false with
    | None => None
    | Some xmlJson =>
        let trimmedJ := trim xmlJson in
        if negb (looksLikeXML trimmedJ) then None
        else
          Some (mk (if String.eqb (found.name f) "SAMLRequest"
                       || String.eqb (found.name f) "SAMLResponse"
                    then found.name f else "SAML")
                  "JSON" trimmedJ (Some "json-body")
                  (Some (found.value f)) (Some "base64"))
    end
  else if String.eqb (found.transport f) "SOAP" && looksLikeXML (found.value f)
  then
    Some (mk "SAML-XML" "SOAP" (trim (found.value f)) (Some "soap-xml")
            None (Some "none"))
  else
    let tryInflate := String.eqb (found.name f) "SAMLRequest" in
    match decodeSAML host (found.value f) tryInflate with
    | None => None
    | Some xml =>
        if (String.length (trim xml) =? 0)%nat then None
        else
          let trimmed := trim xml in
          if negb (looksLikeXML trimmed) then None
          else
            Some (mk (found.name f) (found.transport f) trimmed None
                    (Some (found.value f))
                    (Some (if tryInflate then "deflate-raw" else "base64")))
    end.

(** [handlePossibleSAML] after its first two lines, on the session
    [getSessionByTabId(details.tabId)] returned: the lookup, and the return
    when no session tracks the tab, are [capture] and [onCompleted] below;
    this function never sees a request of a tab without a session. *)
Definition handlePossibleSAML (now : string) (session : SessionState)
    (d : details.t) : SessionState :=
  match extract d with
  | None => session
  | Some f =>
      match entry_of_found now d f (nextMessageId session) with
      | None => session
      | Some entry => fst (addMessage (bump session) entry)
      end
  end.

(** [handleHeaderValue] *)
Definition header_kind (headerName : string) : string :=
  if includes (toLowerCase headerName) "response" then "SAMLResponse"
  else if includes (toLowerCase headerName) "request" then "SAMLRequest"
  else "SAML".

Definition header_entry (now : string) (d : details.t)
    (headerName b64Value : string) (isRequest : bool) (next : nat)
    : option Message :=
  let kind := header_kind headerName in
  match decodeSAML host b64Value (String.eqb kind "SAMLRequest") with
  | None => None
  | Some xml =>
      if negb (looksLikeXML xml) then None
      else
        Some {| id := next; kind := kind;
                transport := if isRequest then "HEADER(req)" else "HEADER(res)";
                url := details.url d; time := now; xml := trim xml;
                tabId := details.tabId d; source := Some "header";
                base64 := None; encoding := None; relayState := None;
                method := None; requestHeaders := None; requestId := None;
                statusCode := None; responseHeaders := None |}
  end.

Definition handleHeaderValue (now : string) (session : SessionState)
    (d : details.t) (headerName b64Value : string) (isRequest : bool)
    : SessionState :=
  match header_entry now d headerName b64Value isRequest
          (nextMessageId session) with
  | None => session
  | Some entry => fst (addMessage (bump session) entry)
  end.

(** The headers [tryHandleHeaderSAML] hands to [handleHeaderValue]. *)
Definition header_candidates (d : details.t) (isRequest : bool)
    : list (string * string) :=
  let hdrs := if isRequest then details.requestHeaders d
              else details.responseHeaders d in
  match hdrs with
  | None => []
  | Some hs =>
      List.flat_map
        (λ h,
           let name := or_else (header.name h) "" in
           let value := default "" (header.value h) in
           if negb (truthy value) then []
           else if String.eqb (toLowerCase name) "samlresponse"
                   || String.eqb (toLowerCase name) "samlrequest"
           then [(name, value)]
           else if looksLikeBase64 value then [(name, value)]
           else [])
        hs
  end.

End Extractor.

(** ** Import *)

(** An element of [msg.items]. *)
Inductive import_item :=
| ItemFalsy                      (* null, undefined and other falsy values *)
| ItemString (s : string)        (* a string *)
| ItemObject (xml : option string) (* an object, with its [xml] when a string *)
| ItemOther.                     (* any other truthy value *)

(** [(it && (it.xml || it)) || ''] followed by the test
    [!xml || !looksLikeXML(xml)]: the text to import, a skip, or the
    [TypeError] of [text.trim] on a value that is not a string. *)
Inductive import_text :=
| Skip
| Text (xml : string)
| Throws.

Definition import_text_of (it : import_item) : import_text :=
  match it with
  | ItemFalsy => Skip
  | ItemString s =>
      if negb (truthy s) then Skip
      else if looksLikeXML s then Text s else Skip
  | ItemObject (Some x) =>
      if negb (truthy x) then Throws
      else if looksLikeXML x then Text x else Skip
  | ItemObject None => Throws
  | ItemOther => Throws
  end.

Definition import_entry (now xml : string) (next : nat) : Message :=
  {| id := next; kind := guessKindFromXML xml; transport := "IMPORT";
     url := "import://local"; time := now; xml := trim xml; tabId := (-1)%Z;
     source := Some "import"; base64 := None; encoding := None;
     relayState := None; method := None; requestHeaders := None;
     requestId := None; statusCode := None; responseHeaders := None |}.

(** The loop of the [importMessages] case: the session when the handler
    returns, and [imported], or [None] for a rejected promise. *)
Fixpoint importMessages (now : string) (session : SessionState)
    (items : list import_item) (imported : nat) : SessionState * option nat :=
  match items with
  | [] => (session, Some imported)
  | it :: r =>
      match import_text_of it with
      | Skip => importMessages now session r imported
      | Throws => (session, None)
      | Text xml =>
          let '(session', stored) :=
            addMessage (bump session)
              (import_entry now xml (nextMessageId session)) in
          importMessages now session' r
            (if stored then S imported else imported)
      end
  end.

(** ** The session registry and the tab tracker *)

(** [sessions], in the insertion order of the [Map]. *)
Definition registry := list (Z * SessionState).

Fixpoint getSessionByWindowId (sessions : registry) (windowId : Z)
    : option SessionState :=
  match sessions with
  | [] => None
  | (w, s) :: r => if (w =? windowId)%Z then Some s
                   else getSessionByWindowId r windowId
  end.

Fixpoint getSessionByTabId (sessions : registry) (tabId : Z)
    : option SessionState :=
  match sessions with
  | [] => None
  | (_, s) :: r => if decide (tabId ∈ trackedTabIds s) then Some s
                   else getSessionByTabId r tabId
  end.

(** A mutation [f] of the session object [getSessionByTabId] returns. *)
Fixpoint update_by_tab (sessions : registry) (tabId : Z)
    (f : SessionState → SessionState) : registry :=
  match sessions with
  | [] => []
  | (w, s) :: r =>
      if decide (tabId ∈ trackedTabIds s) then (w, f s) :: r
      else (w, s) :: update_by_tab r tabId f
  end.

(** [sessions.set(windowId, session)] *)
Fixpoint sessions_set (sessions : registry) (windowId : Z) (s : SessionState)
    : registry :=
  match sessions with
  | [] => [(windowId, s)]
  | (w, s') :: r => if (w =? windowId)%Z then (w, s) :: r
                    else (w, s') :: sessions_set r windowId s
  end.

(** [sessions.delete(windowId)] *)
Definition stopCapture (sessions : registry) (windowId : Z) : registry :=
  List.filter (λ p, negb (fst p =? windowId)%Z) sessions.

Definition startCapture (sessions : registry) (windowId rootTabId : Z)
    : registry :=
  sessions_set sessions windowId
    (set_isCapturing (createSession windowId rootTabId) true).

(** Truthiness of [tab.openerTabId]. *)
Definition truthy_id (o : option Z) : option Z :=
  match o with
  | Some n => if (n =? 0)%Z then None else Some n
  | None => None
  end.

Definition onTabCreated (sessions : registry) (t : tab.t) : registry :=
  match sessions with
  | [] => sessions
  | _ =>
      match truthy_id (tab.openerTabId t) with
      | Some opener =>
          update_by_tab sessions opener
            (λ s, set_trackedTabIds s ({[ tab.id t ]} ∪ trackedTabIds s))
      | None => sessions
      end
  end.

Definition onTabRemoved (sessions : registry) (tabId : Z) : registry :=
  update_by_tab sessions tabId
    (λ s, set_trackedTabIds s (trackedTabIds s ∖ {[ tabId ]})).

Inductive tab_event :=
| TabCreated (t : tab.t)
| TabRemoved (tabId : Z).

Definition tab_step (sessions : registry) (e : tab_event) : registry :=
  match e with
  | TabCreated t => onTabCreated sessions t
  | TabRemoved tabId => onTabRemoved sessions tabId
  end.

Definition tab_run (sessions : registry) (es : list tab_event) : registry :=
  fold_left tab_step es sessions.

Definition removed_tabs (es : list tab_event) : list Z :=
  List.flat_map (λ e, match e with TabRemoved t => [t] | TabCreated _ => [] end) es.

(** ** The life of one session object

    Every mutation of a session object is one of these steps. The
    asynchronous handlers touch the session only after their last [await],
    so each of their completions is one step, and the steps may come in any
    order. *)

Inductive event :=
| Request (now : string) (d : details.t)
| HeaderValue (now : string) (d : details.t) (headerName b64Value : string)
    (isRequest : bool)
| Completed (d : details.t)
| ClearMessages
| ImportMessages (now : string) (items : list import_item)
| TabAdded (tabId : Z)
| TabDeleted (tabId : Z)
| Capturing (b : bool).

Definition step (host : Host) (s : SessionState) (e : event) : SessionState :=
  match e with
  | Request now d => handlePossibleSAML host now s d
  | HeaderValue now d n v isRequest => handleHeaderValue host now s d n v isRequest
  | Completed d => attachResponseData s d
  | ClearMessages => clearMessages s
  | ImportMessages now items => fst (importMessages now s items 0)
  | TabAdded t => set_trackedTabIds s ({[ t ]} ∪ trackedTabIds s)
  | TabDeleted t => set_trackedTabIds s (trackedTabIds s ∖ {[ t ]})
  | Capturing b => set_isCapturing s b
  end.

Definition run (host : Host) (s : SessionState) (es : list event)
    : SessionState :=
  fold_left (step host) es s.

Definition reachable (host : Host) (s : SessionState) : Prop :=
  ∃ windowId rootTabId es, s = run host (createSession windowId rootTabId) es.

(** [tryHandleHeaderSAML] after its lookup of the session: the calls of
    [handleHeaderValue] it starts, one for every header it hands over.
    It awaits none of them, and each reads the time and commits after the
    decoder has returned: every call is a [HeaderValue] step of its own,
    given the time it reads, and the calls of one listener may commit in
    any order. *)
Definition tryHandleHeaderSAML (d : details.t) (isRequest : bool)
    : list (string → event) :=
  List.map (λ nv now, HeaderValue now d (fst nv) (snd nv) isRequest)
    (header_candidates d isRequest).

(** ** Hosts and inputs used in the examples *)

(** Each byte is taken as the code unit of the same value: what the UTF-8
    decoder gives on bytes below 128. *)
Definition latin1 (bs : list byte) : string :=
  string_of_list_ascii (List.map ascii_of_byte bs).

(** The character U+0022. *)
Definition dquote : string := String (ascii_of_N 34) EmptyString.

Definition quoted (s : string) : string := dquote +:+ s +:+ dquote.

Definition bytes_of_text (s : string) : list byte :=
  List.map byte_of_ascii (list_ascii_of_string s).

(** A host without [DecompressionStream], whose URLs carry no query and
    whose bodies are not JSON. *)
Definition bare_host : Host :=
  {| DecompressionStream := None;
     TextDecoder_decode := latin1;
     URL_searchParams := λ _, Some [];
     JSON_parse := λ _, None |}.

(** A host whose [DecompressionStream] throws on every input. *)
Definition failing_inflate_host : Host :=
  {| DecompressionStream := Some (λ _, None);
     TextDecoder_decode := latin1;
     URL_searchParams := λ _, Some [];
     JSON_parse := λ _, None |}.

(** A host for one request: [q] is the query of its URL and [obj] the value
    its body parses to. *)
Definition request_host (q : list (string * string)) (obj : option json)
    : Host :=
  {| DecompressionStream := None;
     TextDecoder_decode := latin1;
     URL_searchParams := λ _, Some q;
     JSON_parse := λ _, obj |}.

(** A POST whose raw body is the given text. *)
Definition post_with_body (text : string) : details.t :=
  {| details.tabId := 7; details.url := "https://sp.example/acs";
     details.method := "POST"; details.requestId := "req-9";
     details.requestBody :=
       Some {| body.formData := None;
               body.raw := Some [ {| body.bytes := Some (bytes_of_text text) |} ] |};
     details.requestHeaders := None; details.responseHeaders := None;
     details.statusCode := 200 |}.

(** The body [{"token":"AAAAAAAAAAAAAAAA","samlResponse":"PFJlc3BvbnNlLz4="}]
    and the value it parses to. *)
Definition token_first_text : string :=
  "{" +:+ quoted "token" +:+ ":" +:+ quoted "AAAAAAAAAAAAAAAA" +:+ ","
  +:+ quoted "samlResponse" +:+ ":" +:+ quoted "PFJlc3BvbnNlLz4=" +:+ "}".

Definition token_first_body : json :=
  JObject [("token", JString "AAAAAAAAAAAAAAAA");
           ("samlResponse", JString "PFJlc3BvbnNlLz4=")].

(** ** Harness for the store properties *)

(** Appending the entries of a list, one [addMessage] each. *)
Definition add_all (s : SessionState) (es : list Message) : SessionState :=
  fold_left (λ s e, fst (addMessage s e)) es s.

Definition keys_of (ms : list Message) : list string := key_of <$> ms.

(** The consistency of the store: the dedup-key set holds exactly the keys
    of the stored messages, no key is stored twice, and the sequence is
    within its bound. *)
Record store_ok (s : SessionState) : Prop := {
  ok_seen : seenKeys s = list_to_set (keys_of (messages s));
  ok_nodup : NoDup (keys_of (messages s));
  ok_len : (length (messages s) ≤ MAX_MESSAGES)%nat;
}.

(** The kinds the handlers give to an entry. *)
Definition assigned_kinds : list string :=
  ["SAMLRequest"; "SAMLResponse"; "SAMLArtifact"; "SAML-XML"; "SAML"].

(** [attachResponseData] from the [onCompleted] listener: the session is
    the one the tab resolves to, if any. *)
Definition onCompleted (sessions : registry) (d : details.t) : registry :=
  update_by_tab sessions (details.tabId d) (λ s, attachResponseData s d).

(** The two updates [addMessage] makes to the request-identifier index. *)
Definition index_add (index : gmap string nat) (e : Message)
    : gmap string nat :=
  match requestId e with
  | Some r => if truthy r then <[ r := id e ]> index else index
  | None => index
  end.

Definition index_drop (index : gmap string nat) (e : Message)
    : gmap string nat :=
  match requestId e with
  | Some r => if truthy r then delete r index else index
  | None => index
  end.

(** ** Harness for the correlation properties *)

(** The transports of the header pass and of the import. *)
Definition plain_transports : list string :=
  ["HEADER(req)"; "HEADER(res)"; "IMPORT"].

(** The transports of the query and body pass. *)
Definition correlated_transports : list string :=
  ["GET"; "POST"; "JSON"; "SOAP"].

Definition no_correlation (m : Message) : Prop :=
  requestId m = None ∧ statusCode m = None ∧ responseHeaders m = None.

Record correlation_ok (s : SessionState) : Prop := {
  co_ids : ∀ m, m ∈ messages s → (id m < nextMessageId s)%nat;
  co_index : ∀ r i,
    (requestIdToMessageId s !! r) = Some i → (i < nextMessageId s)%nat;
  co_transport : ∀ m, m ∈ messages s →
    transport m ∈ plain_transports ∨ transport m ∈ correlated_transports;
  co_plain : ∀ m, m ∈ messages s →
    transport m ∈ plain_transports → no_correlation m;
  co_apart : ∀ r i m,
    (requestIdToMessageId s !! r) = Some i → m ∈ messages s →
    transport m ∈ plain_transports → id m ≠ i;
}.

(** What a handler may hand to [addMessage]. *)
Definition entry_ok (e : Message) : Prop :=
  (transport e ∈ plain_transports ∧ no_correlation e)
  ∨ transport e ∈ correlated_transports.

(** The names and transports a candidate of the extractor can carry. *)
Definition candidate_shapes : list (string * string) :=
  [("SAMLResponse", "GET"); ("SAMLRequest", "GET"); ("SAMLArtifact", "GET");
   ("SAMLResponse", "POST"); ("SAMLRequest", "POST"); ("SAMLArtifact", "POST");
   ("SAMLRequest", "JSON"); ("SAMLResponse", "JSON"); ("SAMLBase64", "JSON")].

(** ** Harness for the JSON and base64 properties *)

(** Every string-valued field of a JSON value with the key it is reached
    under, in the depth-first order of [Object.entries]; the key of an array
    element is its index and the key of the root is empty. *)
Fixpoint string_fields (v : json) (k : string) : list item.t :=
  match v with
  | JString s => [ {| item.name := k; item.value := s |} ]
  | JArray elements =>
      (fix entries (i : nat) (l : list json) : list item.t :=
         match l with
         | [] => []
         | cv :: r => string_fields cv (pretty i) ++ entries (S i) r
         end) 0%nat elements
  | JObject members =>
      (fix entries (l : list (string * json)) : list item.t :=
         match l with
         | [] => []
         | (ck, cv) :: r => string_fields cv ck ++ entries r
         end) members
  | JNull | JBool _ | JNumber _ => []
  end.

(** The candidate made of the first field whose value looks like base64. *)
Fixpoint first_base64_field (fields : list item.t) : option found.t :=
  match fields with
  | [] => None
  | it :: r =>
      if looksLikeBase64 (item.value it)
      then Some {| found.name :=
                     json_candidate_name (or_else (item.name it) "b64");
                   found.value := item.value it;
                   found.transport := "JSON" |}
      else first_base64_field r
  end.

(** A field name the walk treats as SAML-named. *)
Definition saml_named (k : string) : bool :=
  let key := toLowerCase (or_else k "") in
  includes key "samlresponse" || includes key "samlrequest".

Section JsonInduction.
Variable P : json → Prop.
Hypothesis Hnull : P JNull.
Hypothesis Hbool : ∀ b, P (JBool b).
Hypothesis Hnumber : ∀ n, P (JNumber n).
Hypothesis Hstring : ∀ s, P (JString s).
Hypothesis Harray : ∀ l, Forall P l → P (JArray l).
Hypothesis Hobject : ∀ l, Forall (λ p, P (snd p)) l → P (JObject l).

Fixpoint json_induction (v : json) : P v :=
  match v with
  | JNull => Hnull
  | JBool b => Hbool b
  | JNumber n => Hnumber n
  | JString s => Hstring s
  | JArray l =>
      Harray l
        ((fix all (l : list json) : Forall P l :=
            match l with
            | [] => @List.Forall_nil _ _
            | x :: r => @List.Forall_cons _ _ x r (json_induction x) (all r)
            end) l)
  | JObject l =>
      Hobject l
        ((fix all (l : list (string * json)) : Forall (λ p, P (snd p)) l :=
            match l with
            | [] => @List.Forall_nil _ _
            | p :: r =>
                @List.Forall_cons _ _ p r (json_induction (snd p)) (all r)
            end) l)
  end.
End JsonInduction.

(** The padding the encoder can write. *)
Definition is_padding (pad : list ascii) : Prop :=
  pad = [] ∨ pad = ["="%char] ∨ pad = ["="%char; "="%char].

(** ** Sample inputs *)

Definition sample_details (requestId : string) : details.t :=
  {| details.tabId := 7; details.url := "https://idp.example/sso";
     details.method := "GET"; details.requestId := requestId;
     details.requestBody := None; details.requestHeaders := None;
     details.responseHeaders := None; details.statusCode := 200 |}.

(** An entry as [handlePossibleSAML] builds it on the default path. *)
Definition sample_entry (id : nat) (kind transport xml : string)
    (requestId : option string) : Message :=
  {| id := id; kind := kind; transport := transport;
     url := "https://idp.example/sso"; time := "2024-01-01T00:00:00.000Z";
     xml := xml; tabId := 7; source := None; base64 := None;
     encoding := Some "base64"; relayState := None; method := Some "GET";
     requestHeaders := Some []; requestId := requestId;
     statusCode := None; responseHeaders := None |}.

(** A session holding one message captured from request ["req-1"]. *)
Definition one_message_session : SessionState :=
  fst (addMessage (bump (createSession 1 7))
         (sample_entry 1 "SAMLResponse" "POST" "<Response/>" (Some "req-1"))).

Definition sample_now : string := "2024-01-01T00:00:00.000Z".

(** Two captures of one request text: the kind is the same, the transport,
    the id and the request differ. *)
Definition dup_first : Message :=
  sample_entry 1 "SAMLRequest" "GET" "<AuthnRequest/>" (Some "req-1").

Definition dup_second : Message :=
  sample_entry 2 "SAMLRequest" "POST" "<AuthnRequest/>" (Some "req-2").

(** The base64 of [<AuthnRequest/>], not deflated. *)
Definition authn_b64 : string := "PEF1dGhuUmVxdWVzdC8+".

(** A GET to [https://idp.example/sso?SAMLRequest=...] on a host without
    [DecompressionStream], its candidate and the entry built for it. *)
Definition get_host : Host :=
  request_host [("SAMLRequest", authn_b64)] None.

Definition get_found : found.t :=
  {| found.name := "SAMLRequest"; found.value := authn_b64;
     found.transport := "GET" |}.

Definition get_entry : Message :=
  {| id := 1; kind := "SAMLRequest"; transport := "GET";
     url := "https://idp.example/sso"; time := sample_now;
     xml := "<AuthnRequest/>"; tabId := 7; source := None;
     base64 := Some authn_b64; encoding := Some "deflate-raw";
     relayState := None; method := Some "GET"; requestHeaders := Some [];
     requestId := Some "req-1"; statusCode := None;
     responseHeaders := None |}.

Definition get_session : SessionState :=
  run get_host (createSession 1 7) [Request sample_now (sample_details "req-1")].

(** A response header [SAMLResponse: PFJlc3BvbnNlLz4=] and the message
    stored for it. *)
Definition header_session : SessionState :=
  run bare_host (createSession 1 7)
    [HeaderValue sample_now (sample_details "req-2") "SAMLResponse"
       "PFJlc3BvbnNlLz4=" false].

Definition header_message : Message :=
  {| id := 1; kind := "SAMLResponse"; transport := "HEADER(res)";
     url := "https://idp.example/sso"; time := sample_now;
     xml := "<Response/>"; tabId := 7; source := Some "header";
     base64 := None; encoding := None; relayState := None; method := None;
     requestHeaders := None; requestId := None; statusCode := None;
     responseHeaders := None |}.

(** Capture on window 1 with root tab 7; tab 7 opens tab 8, which is then
    closed. *)
Definition popup_events : list tab_event :=
  [TabCreated {| tab.id := 8; tab.openerTabId := Some 7%Z |}; TabRemoved 8].

(** ** The background page as a whole

    The three variables of the script, the control channel and the
    listeners that work on the registry. *)

Module background.
Record t := {
  sessions : registry;
  (** [tabListeners] is an object while the tab listeners are registered
      and [null] otherwise. *)
  tabListeners : bool;
  pendingTargetTab : option Z;
}.
End background.

Definition background_init : background.t :=
  {| background.sessions := [];
     background.tabListeners := false;
     background.pendingTargetTab := None |}.

Definition with_sessions (bg : background.t) (sessions : registry)
    : background.t :=
  {| background.sessions := sessions;
     background.tabListeners := background.tabListeners bg;
     background.pendingTargetTab := background.pendingTargetTab bg |}.

(** [startCapture] with its registration of the shared tab listeners. *)
Definition startCapture_listeners (bg : background.t) (windowId rootTabId : Z)
    : background.t :=
  {| background.sessions :=
       startCapture (background.sessions bg) windowId rootTabId;
     background.tabListeners := true;
     background.pendingTargetTab := background.pendingTargetTab bg |}.

(** [stopCapture] with the removal of the listeners when no session
    remains. *)
Definition stopCapture_listeners (bg : background.t) (windowId : Z)
    : background.t :=
  let sessions := stopCapture (background.sessions bg) windowId in
  {| background.sessions := sessions;
     background.tabListeners :=
       match sessions with
       | [] => false
       | _ => background.tabListeners bg
       end;
     background.pendingTargetTab := background.pendingTargetTab bg |}.

(** The messages of the control channel, by [msg.type]. *)
Module msg.
Inductive t :=
| getState
| getTargetTab
| startCapture (tabId : Z)
| stopCapture
| getMessages
| clearMessages
| importMessages (items : list import_item)
| other.
End msg.

(** What the listener resolves its promise with; [rejected] is the
    rejected promise of the [catch], [nothing] the plain [return]. *)
Module reply.
Inductive t :=
| state (capturing : bool) (rootTabId : option Z)
    (trackedCount messageCount : nat)
| targetTab (targetTabId : option Z)
| capturing (b : bool)
| messages (ms : list Message)
| ok
| imported (n : nat)
| rejected
| nothing.
End reply.

(** The [importMessages] case: the session of the window, or a new one
    with the placeholder root tab -1 that is not capturing. *)
Definition importMessages_handler (now : string) (sessions : registry)
    (windowId : Z) (items : list import_item) : registry * option nat :=
  let session :=
    match getSessionByWindowId sessions windowId with
    | Some s => s
    | None => set_isCapturing (createSession windowId (-1)) false
    end in
  let '(session', imported) := importMessages now session items 0 in
  (sessions_set sessions windowId session', imported).

(** The [runtime.onMessage] listener, for the window the message is
    about. *)
Definition onMessage (now : string) (bg : background.t) (windowId : Z)
    (m : msg.t) : background.t * reply.t :=
  let sessions := background.sessions bg in
  match m with
  | msg.getState =>
      (bg,
       match getSessionByWindowId sessions windowId with
       | Some session =>
           reply.state (default false (isCapturing session))
             (Some (rootTabId session)) (size (trackedTabIds session))
             (length (messages session))
       | None => reply.state false None 0 0
       end)
  | msg.getTargetTab => (bg, reply.targetTab (background.pendingTargetTab bg))
  | msg.startCapture tabId =>
      (match getSessionByWindowId sessions windowId with
       | Some _ => bg
       | None => startCapture_listeners bg windowId tabId
       end, reply.capturing true)
  | msg.stopCapture => (stopCapture_listeners bg windowId, reply.capturing false)
  | msg.getMessages =>
      (bg,
       reply.messages
         match getSessionByWindowId sessions windowId with
         | Some session => messages session
         | None => []
         end)
  | msg.clearMessages =>
      (match getSessionByWindowId sessions windowId with
       | Some session =>
           with_sessions bg (sessions_set sessions windowId (clearMessages session))
       | None => bg
       end, reply.ok)
  | msg.importMessages items =>
      let '(sessions', imported) :=
        importMessages_handler now sessions windowId items in
      (with_sessions bg sessions',
       match imported with
       | Some n => reply.imported n
       | None => reply.rejected
       end)
  | msg.other => (bg, reply.nothing)
  end.

(** The [windows.onRemoved] listener. *)
Definition onWindowRemoved (bg : background.t) (windowId : Z) : background.t :=
  match getSessionByWindowId (background.sessions bg) windowId with
  | Some _ => stopCapture_listeners bg windowId
  | None => bg
  end.

(** The [browserAction.onClicked] listener, up to the creation of the
    window. *)
Definition onClicked (bg : background.t) (t : option tab.t) : background.t :=
  match t with
  | Some t =>
      if (tab.id t =? 0)%Z then bg
      else {| background.sessions := background.sessions bg;
              background.tabListeners := background.tabListeners bg;
              background.pendingTargetTab := Some (tab.id t) |}
  | None => bg
  end.

(** A handler that has resolved the session of window [windowId] commits
    its entry: [Request] and [HeaderValue] are the only events it can
    commit. The tabs of the session may have changed since the handler
    looked the session up, so [commit] does not look at [details.tabId]
    again: it allows every commit the script can make, and some it cannot
    make. *)
Definition is_commit (e : event) : bool :=
  match e with
  | Request _ _ | HeaderValue _ _ _ _ _ => true
  | _ => false
  end.

Definition commit (host : Host) (sessions : registry) (windowId : Z)
    (e : event) : registry :=
  match getSessionByWindowId sessions windowId with
  | Some session =>
      if is_commit e then sessions_set sessions windowId (step host session e)
      else sessions
  | None => sessions
  end.


(** Everything that happens to the background page. The tab events reach
    [onTabCreated] and [onTabRemoved] only while the listeners are
    registered. *)
Inductive background_event :=
| Control (now : string) (windowId : Z) (m : msg.t)
| WindowRemoved (windowId : Z)
| Clicked (t : option tab.t)
| Tab (e : tab_event)
| RequestCompleted (d : details.t)
| Commit (windowId : Z) (e : event).

Definition background_step (host : Host) (bg : background.t)
    (e : background_event) : background.t :=
  match e with
  | Control now windowId m => fst (onMessage now bg windowId m)
  | WindowRemoved windowId => onWindowRemoved bg windowId
  | Clicked t => onClicked bg t
  | Tab e =>
      if background.tabListeners bg
      then with_sessions bg (tab_step (background.sessions bg) e)
      else bg
  | RequestCompleted d =>
      with_sessions bg (onCompleted (background.sessions bg) d)
  | Commit windowId e =>
      with_sessions bg (commit host (background.sessions bg) windowId e)
  end.

Definition background_run (host : Host) (bg : background.t)
    (es : list background_event) : background.t :=
  fold_left (background_step host) es bg.

Definition background_reachable (host : Host) (bg : background.t) : Prop :=
  ∃ es, bg = background_run host background_init es.

(** ** The callers in the tracer window *)

(** [looksLikeXML] of the tracer window: no [slice]. *)
Definition ui_looksLikeXML (s : string) : bool :=
  if negb (truthy s) then false
  else
    let t := trim s in
    startsWith t "<" || startsWith t "<?xml".

(** The [items] [importFromFile] sends for the text of a file; [None] when
    it shows its error instead of sending. *)
Definition importFromFile_items (content : string) : option (list import_item) :=
  let trimmed := trim content in
  if negb (startsWith trimmed "<") then None
  else Some [ItemObject (Some trimmed)].

(** The names under which an object made by [{}] inherits a property
    from [Object.prototype]. *)
Definition Object_prototype : list string :=
  ["constructor"; "hasOwnProperty"; "isPrototypeOf"; "propertyIsEnumerable";
   "toLocaleString"; "toString"; "valueOf"; "__proto__";
   "__defineGetter__"; "__defineSetter__"; "__lookupGetter__";
   "__lookupSetter__"].

(** What reading a property of such an object gives: [undefined], a
    string, or what [Object.prototype] holds under the name. *)
Inductive js_value :=
| Undefined
| StringValue (v : string)
| Inherited (name : string).

(** The own property of a name, when the object has one. *)
Fixpoint own_property (o : js_object) (k : string) : option (option string) :=
  match o with
  | [] => None
  | (k', v) :: r => if String.eqb k' k then Some v else own_property r k
  end.

(** [obj[k]] on an object the script made by [{}] and filled by
    assignments: the own property, and without one what the prototype has.
    [requestHeaders?.Referer] of [pickHosts] is such a read. *)
Definition obj_get (o : js_object) (k : string) : js_value :=
  match own_property o k with
  | Some (Some v) => StringValue v
  | Some None => Undefined
  | None => if bool_decide (k ∈ Object_prototype) then Inherited k
            else Undefined
  end.

(** [m.requestHeaders?.Referer] *)
Definition referer_of (m : Message) : js_value :=
  match requestHeaders m with
  | Some o => obj_get o "Referer"
  | None => Undefined
  end.


(** ** The tab selector of the tracer window

    The option chosen in the selector: [stop], the id of a tab, or the
    empty value of the placeholder options. *)
Inductive selector_value :=
| SelectStop
| SelectTab (tabId : Z)
| SelectNothing.

(** The [change] handler of the selector in window.js, by the messages it
    sends for the window [windowId], each answered before the next is
    sent. The option values are the [String(tab.id)] [populateTabSelector]
    wrote, so [value !== String(state.rootTabId)] compares tab ids and
    holds when [state.rootTabId] is [null]. *)
Definition tabSelector_change (now : string) (bg : background.t)
    (windowId : Z) (value : selector_value) : background.t :=
  match value with
  | SelectStop => fst (onMessage now bg windowId msg.stopCapture)
  | SelectTab tabId =>
      match snd (onMessage now bg windowId msg.getState) with
      | reply.state capturing rootTabId _ _ =>
          if decide (rootTabId = Some tabId) then bg
          else
            let bg1 :=
              if capturing
              then fst (onMessage now bg windowId msg.stopCapture)
              else bg in
            fst (onMessage now bg1 windowId (msg.startCapture tabId))
      | _ => bg
      end
  | SelectNothing => bg
  end.

(** ** Harness for the further properties *)

(** The replacement [artifact.replace(/[<>&]/g, ...)] of
    [makeArtifactXML], by itself. *)
Fixpoint escape_artifact (s : string) : string :=
  match s with
  | EmptyString => EmptyString
  | String c r =>
      if Ascii.eqb c "<" then "&lt;" +:+ escape_artifact r
      else if Ascii.eqb c ">" then "&gt;" +:+ escape_artifact r
      else if Ascii.eqb c "&" then "&amp;" +:+ escape_artifact r
      else String c (escape_artifact r)
  end.

(** Neither [<] nor [>]. *)
Definition no_angle (c : ascii) : bool :=
  negb (Ascii.eqb c "<" || Ascii.eqb c ">").


(** A message without the response data [attachResponseData] adds. *)
Definition capture_of (m : Message) : Message :=
  {| id := id m; kind := kind m; transport := transport m; url := url m;
     time := time m; xml := xml m; tabId := tabId m; source := source m;
     base64 := base64 m; encoding := encoding m; relayState := relayState m;
     method := method m; requestHeaders := requestHeaders m;
     requestId := requestId m;
     statusCode := None; responseHeaders := None |}.

(** The ids grow along the sequence. *)
Definition ids_increasing (ms : list Message) : Prop :=
  StronglySorted (λ a b, (id a < id b)%nat) ms.

(** The keys of an object are on an allow-list, whatever their case. *)
Definition keys_allowed (allow : list string) (o : js_object) : Prop :=
  ∀ k, k ∈ o.*1 → js_includes allow (toLowerCase k) = true.

(** The shape of the stored messages that does not depend on the traffic. *)
Record message_ok (m : Message) : Prop := {
  mo_kind : kind m ∈ assigned_kinds;
  mo_xml_open : startsWith (xml m) "<" = true;
  mo_xml_trimmed : trim (xml m) = xml m;
  mo_request_headers : ∀ o, requestHeaders m = Some o →
    keys_allowed request_allow_list o ∧ NoDup o.*1;
  mo_response_headers : ∀ o, responseHeaders m = Some o →
    keys_allowed response_allow_list o ∧ NoDup o.*1;
}.

(** The sessions of a registry that track a tab. *)
Definition tracking (sessions : registry) (tabId : Z) : list Z :=
  (List.filter (λ p, bool_decide (tabId ∈ trackedTabIds (snd p))) sessions).*1.

(** The entries the handlers hand to [addMessage] when the counter is at
    [next]: of [handlePossibleSAML], of [handleHeaderValue] and of the
    import loop. *)
Definition built (host : Host) (next : nat) (e : Message) : Prop :=
  (∃ now d f, extract host d = Some f
              ∧ entry_of_found host now d f next = Some e)
  ∨ (∃ now d n v isRequest,
       header_entry host now d n v isRequest next = Some e)
  ∨ (∃ now it x, import_text_of it = Text x ∧ e = import_entry now x next).

(** The ids grow along the sequence and stay below the counter. *)
Definition ids_ok (s : SessionState) : Prop :=
  ids_increasing (messages s)
  ∧ Forall (λ m, (id m < nextMessageId s)%nat) (messages s).

(** An index entry whose message is stored names the request of that
    message. *)
Definition index_ok (s : SessionState) : Prop :=
  ∀ r i m, (requestIdToMessageId s !! r) = Some i →
    m ∈ messages s → id m = i → requestId m = Some r.

(** The part of a session the message store does not own. *)
Definition frame_of (s : SessionState) : Z * Z * gset Z * option bool :=
  (windowId s, rootTabId s, trackedTabIds s, isCapturing s).



(** The dedup key of the entry the import loop builds for a text. *)
Definition import_key (xml : string) : string :=
  makeDedupKey (guessKindFromXML xml) (trim xml).

(** The items of an import that are XML-looking text. *)
Definition import_texts (items : list import_item) : list string :=
  List.flat_map
    (λ it, match import_text_of it with Text x => [x] | _ => [] end) items.

(** Two registry entries for the same window whose sessions agree on the
    window, on the root tab and on whether they capture. *)
Definition same_registration (p p' : Z * SessionState) : Prop :=
  fst p' = fst p
  ∧ windowId (snd p') = windowId (snd p)
  ∧ rootTabId (snd p') = rootTabId (snd p)
  ∧ isCapturing (snd p') = isCapturing (snd p).

(** The consistency of the registry and of the listener registration. *)
Record background_ok (bg : background.t) : Prop := {
  bo_unique : NoDup (background.sessions bg).*1;
  bo_own : ∀ w s, (w, s) ∈ background.sessions bg → windowId s = w;
  bo_capturing : ∀ w s, (w, s) ∈ background.sessions bg →
    isCapturing s = Some true → background.tabListeners bg = true;
  bo_listeners : background.tabListeners bg = true →
    background.sessions bg ≠ [];
  bo_placeholder : ∀ w s, (w, s) ∈ background.sessions bg →
    isCapturing s = Some true
    ∨ (isCapturing s = Some false ∧ rootTabId s = (-1)%Z);
}.

(** ** Further sample inputs *)

(** The session of the GET request after the request completed with
    status 200. *)
Definition get_completed_session : SessionState :=
  run get_host get_session [Completed (sample_details "req-1")].

Definition get_entry_completed : Message := attach get_entry 200 [].

(** The entry built when the same GET request is observed again. *)
Definition get_entry_again : Message :=
  {| id := 2; kind := "SAMLRequest"; transport := "GET";
     url := "https://idp.example/sso"; time := sample_now;
     xml := "<AuthnRequest/>"; tabId := 7; source := None;
     base64 := Some authn_b64; encoding := Some "deflate-raw";
     relayState := None; method := Some "GET"; requestHeaders := Some [];
     requestId := Some "req-1"; statusCode := None;
     responseHeaders := None |}.

(** The session of the GET request after a response header
    [SAMLResponse: PFJlc3BvbnNlLz4=] of another request, and the message
    stored for the header. *)
Definition two_message_session : SessionState :=
  run get_host (createSession 1 7)
    [Request sample_now (sample_details "req-1");
     HeaderValue sample_now (sample_details "req-2") "SAMLResponse"
       "PFJlc3BvbnNlLz4=" false].

Definition header_message_second : Message :=
  {| id := 2; kind := "SAMLResponse"; transport := "HEADER(res)";
     url := "https://idp.example/sso"; time := sample_now;
     xml := "<Response/>"; tabId := 7; source := Some "header";
     base64 := None; encoding := None; relayState := None; method := None;
     requestHeaders := None; requestId := None; statusCode := None;
     responseHeaders := None |}.

(** The GET request with request headers: two spellings of [accept], a
    [Referer] and a [Cookie]. *)
Definition sample_request_headers : list header.t :=
  [ {| header.name := "Accept"; header.value := Some "text/html" |};
    {| header.name := "Referer"; header.value := Some "https://sp.example/" |};
    {| header.name := "ACCEPT"; header.value := Some "*/*" |};
    {| header.name := "Cookie"; header.value := Some "sid=1" |};
    {| header.name := "Accept"; header.value := Some "application/xml" |} ].

Definition headers_details : details.t :=
  {| details.tabId := 7; details.url := "https://idp.example/sso";
     details.method := "GET"; details.requestId := "req-1";
     details.requestBody := None;
     details.requestHeaders := Some sample_request_headers;
     details.responseHeaders := None; details.statusCode := 200 |}.

Definition headers_session : SessionState :=
  run get_host (createSession 1 7) [Request sample_now headers_details].

Definition headers_entry : Message :=
  {| id := 1; kind := "SAMLRequest"; transport := "GET";
     url := "https://idp.example/sso"; time := sample_now;
     xml := "<AuthnRequest/>"; tabId := 7; source := None;
     base64 := Some authn_b64; encoding := Some "deflate-raw";
     relayState := None; method := Some "GET";
     requestHeaders :=
       Some [("Accept", Some "application/xml"); ("ACCEPT", Some "*/*")];
     requestId := Some "req-1"; statusCode := None;
     responseHeaders := None |}.



(** Numbered documents [<m0/>], [<m1/>], ..., the entry a handler builds
    for one of them and the item importing it. *)
Definition numbered_xml (i : nat) : string := "<m" +:+ pretty i +:+ "/>".

Definition numbered_entry (i : nat) : Message :=
  sample_entry (S i) "SAMLResponse" "POST" (numbered_xml i)
    (Some ("req-" +:+ pretty i)).

Definition numbered_items (n : nat) : list import_item :=
  (λ i, ItemString (numbered_xml i)) <$> seq 0 n.

(** A session that has imported 1000 documents. *)
Definition full_session : SessionState :=
  run bare_host (createSession 1 7)
    [ImportMessages sample_now (numbered_items 1000)].

(** A tracer window opened on tab 7 that captures a GET request, and a
    second window that only imports a file. *)
Definition tracer_events : list background_event :=
  [Clicked (Some {| tab.id := 7; tab.openerTabId := None |});
   Control sample_now 1 (msg.startCapture 7);
   Commit 1 (Request sample_now (sample_details "req-1"));
   RequestCompleted (sample_details "req-1");
   Control sample_now 2 (msg.importMessages [ItemObject (Some "<Response/>")])].

Definition tracer_background : background.t :=
  background_run get_host background_init tracer_events.

(** * Properties *)

(** Membership in a list that is written out. *)
Ltac in_list := solve [repeat (first [by left | right])].

(** ** The message store *)

Section Store.
Implicit Types (s : SessionState) (e m : Message).

Lemma MAX_MESSAGES_ge_2 : (2 ≤ MAX_MESSAGES)%nat.
Proof. unfold MAX_MESSAGES. lia. Qed.

Opaque MAX_MESSAGES.

Lemma addMessage_seen s e :
  key_of e ∈ seenKeys s → addMessage s e = (s, false).
Proof.
  intros Hin. unfold addMessage. fold (key_of e).
  destruct (decide (key_of e ∈ seenKeys s)); [done | contradiction].
Qed.

Lemma addMessage_room s e :
  key_of e ∉ seenKeys s →
  (length (messages s) < MAX_MESSAGES)%nat →
  addMessage s e =
    (set_store s (messages s ++ [e]) (nextMessageId s)
       ({[ key_of e ]} ∪ seenKeys s)
       (index_add (requestIdToMessageId s) e), true).
Proof.
  intros Hnot Hlen. unfold addMessage. fold (key_of e).
  destruct (decide (key_of e ∈ seenKeys s)); [contradiction |].
  destruct (Nat.ltb_spec MAX_MESSAGES (length (messages s ++ [e]))) as [H | H].
  - rewrite length_app in H. simpl in H. lia.
  - reflexivity.
Qed.

Lemma addMessage_evict s e removed rest :
  key_of e ∉ seenKeys s →
  messages s = removed :: rest →
  (MAX_MESSAGES ≤ length (messages s))%nat →
  addMessage s e =
    (set_store s (rest ++ [e]) (nextMessageId s)
       (({[ key_of e ]} ∪ seenKeys s) ∖ {[ key_of removed ]})
       (index_drop (index_add (requestIdToMessageId s) e) removed), true).
Proof.
  intros Hnot Hms Hlen. unfold addMessage. fold (key_of e).
  destruct (decide (key_of e ∈ seenKeys s)); [contradiction |].
  destruct (Nat.ltb_spec MAX_MESSAGES (length (messages s ++ [e]))) as [H | H].
  - rewrite Hms. reflexivity.
  - rewrite length_app in H. simpl in H. lia.
Qed.

Lemma elem_of_keys_of m ms : m ∈ ms → key_of m ∈ keys_of ms.
Proof. intros H. unfold keys_of. apply list_elem_of_fmap. eauto. Qed.

Lemma store_ok_key_seen s m : store_ok s → m ∈ messages s → key_of m ∈ seenKeys s.
Proof.
  intros [Hseen _ _] Hin. rewrite Hseen. apply elem_of_list_to_set.
  by apply elem_of_keys_of.
Qed.

Lemma store_ok_create w r : store_ok (createSession w r).
Proof.
  split; simpl.
  - reflexivity.
  - constructor.
  - lia.
Qed.

(** The messages after one append, in every case. *)
Lemma addMessage_messages s e :
  store_ok s →
  key_of e ∉ seenKeys s →
  messages (fst (addMessage s e)) =
    drop (length (messages s ++ [e]) - MAX_MESSAGES) (messages s ++ [e])
  ∧ snd (addMessage s e) = true
  ∧ nextMessageId (fst (addMessage s e)) = nextMessageId s.
Proof.
  intros Hok Hnot. pose proof (ok_len s Hok) as Hlen.
  destruct (decide (length (messages s) < MAX_MESSAGES)%nat) as [Hlt | Hge].
  - rewrite addMessage_room by done. simpl. split; [| done].
    replace (length (messages s ++ [e]) - MAX_MESSAGES)%nat with 0%nat; [done |].
    rewrite length_app. simpl. lia.
  - destruct (messages s) as [| removed rest] eqn:Hms.
    { pose proof MAX_MESSAGES_ge_2. simpl in Hge. lia. }
    rewrite (addMessage_evict s e removed rest) by (rewrite ?Hms; simpl in *; done || lia).
    simpl. split; [| done].
    match goal with
    | |- context [drop ?n _] =>
        replace n with 1%nat by (rewrite ?length_app; simpl in *; lia)
    end.
    reflexivity.
Qed.

Lemma keys_of_app ms ms' : keys_of (ms ++ ms') = keys_of ms ++ keys_of ms'.
Proof. apply fmap_app. Qed.

Lemma keys_of_cons m ms : keys_of (m :: ms) = key_of m :: keys_of ms.
Proof. reflexivity. Qed.

Lemma NoDup_snoc (ks : list string) k : NoDup ks → k ∉ ks → NoDup (ks ++ [k]).
Proof.
  intros Hnd Hk. apply NoDup_app. split; [done |].
  split; [| apply NoDup_singleton].
  intros k' Hin Hin'. apply list_elem_of_singleton in Hin'. by subst.
Qed.

Lemma fresh_key_not_stored s e :
  store_ok s → key_of e ∉ seenKeys s → key_of e ∉ keys_of (messages s).
Proof.
  intros [Hseen _ _] Hnot Hk. apply Hnot. rewrite Hseen.
  by apply elem_of_list_to_set.
Qed.

Lemma addMessage_ok s e : store_ok s → store_ok (fst (addMessage s e)).
Proof.
  intros Hok. pose proof Hok as [Hseen Hnd Hlen].
  destruct (decide (key_of e ∈ seenKeys s)) as [Hin | Hnot].
  { by rewrite addMessage_seen. }
  pose proof (fresh_key_not_stored s e Hok Hnot) as Hfresh.
  destruct (decide (length (messages s) < MAX_MESSAGES)%nat) as [Hlt | Hge].
  - rewrite addMessage_room by done. split; cbn [fst messages seenKeys set_store].
    + rewrite keys_of_app, list_to_set_app_L, Hseen, keys_of_cons.
      cbn [keys_of fmap list_fmap list_to_set]. set_solver.
    + rewrite keys_of_app. by apply NoDup_snoc.
    + rewrite length_app. cbn [length]. lia.
  - destruct (messages s) as [| removed rest] eqn:Hms.
    { pose proof MAX_MESSAGES_ge_2. cbn [length] in Hge. lia. }
    rewrite (addMessage_evict s e removed rest)
      by (rewrite ?Hms; cbn [length] in *; done || lia).
    rewrite keys_of_cons in Hnd, Hfresh, Hseen.
    apply NoDup_cons in Hnd as [Hrem Hnd].
    apply not_elem_of_cons in Hfresh as [Hne Hfresh].
    split; cbn [fst messages seenKeys set_store].
    + rewrite keys_of_app, list_to_set_app_L, Hseen, keys_of_cons.
      cbn [keys_of fmap list_fmap list_to_set].
      assert (key_of removed ∉ (list_to_set (keys_of rest) : gset string))
        by (by rewrite elem_of_list_to_set).
      set_solver.
    + rewrite keys_of_app. by apply NoDup_snoc.
    + rewrite length_app. cbn [length] in *. lia.
Qed.

Lemma add_all_cons s e es :
  add_all s (e :: es) = add_all (fst (addMessage s e)) es.
Proof. reflexivity. Qed.

Lemma add_all_ok s es : store_ok s → store_ok (add_all s es).
Proof.
  revert s. induction es as [| e es IH]; intros s Hok; [done |].
  rewrite add_all_cons. apply IH. by apply addMessage_ok.
Qed.

(** Appending entries with pairwise distinct keys, none of them stored:
    the store keeps the last [MAX_MESSAGES] of the whole sequence. *)
Lemma add_all_messages s es :
  store_ok s →
  NoDup (keys_of (messages s ++ es)) →
  messages (add_all s es) =
    drop (length (messages s ++ es) - MAX_MESSAGES) (messages s ++ es).
Proof.
  revert s. induction es as [| e es IH]; intros s Hok Hnd.
  - pose proof (ok_len s Hok). rewrite app_nil_r.
    replace (length (messages s) - MAX_MESSAGES)%nat with 0%nat by lia.
    done.
  - rewrite add_all_cons.
    assert (key_of e ∉ seenKeys s) as Hnot.
    { rewrite (ok_seen s Hok), elem_of_list_to_set.
      rewrite keys_of_app, keys_of_cons in Hnd.
      apply NoDup_app in Hnd as (_ & Hdisj & _).
      intros Hin. apply (Hdisj _ Hin). left. }
    destruct (addMessage_messages s e Hok Hnot) as (Hms & _ & _).
    pose proof (ok_len s Hok) as Hlen.
    set (k := (length (messages s ++ [e]) - MAX_MESSAGES)%nat) in *.
    assert (k ≤ length (messages s ++ [e]))%nat as Hk by lia.
    assert (messages (fst (addMessage s e)) ++ es
            = drop k (messages s ++ e :: es)) as Happ.
    { rewrite Hms.
      replace (messages s ++ e :: es) with ((messages s ++ [e]) ++ es)
        by (by rewrite <- app_assoc).
      symmetry. apply drop_app_le. exact Hk. }
    rewrite IH.
    + rewrite Happ, drop_drop. f_equal.
      rewrite length_drop. subst k.
      rewrite !length_app in *. cbn [length] in *. lia.
    + by apply addMessage_ok.
    + rewrite Happ. unfold keys_of. rewrite fmap_drop.
      eapply sublist_NoDup; [| apply sublist_drop]. done.
Qed.

Lemma add_all_fresh_messages w r es :
  NoDup (keys_of es) →
  messages (add_all (createSession w r) es)
    = drop (length es - MAX_MESSAGES) es.
Proof.
  intros Hnd.
  by rewrite add_all_messages by (done || apply store_ok_create).
Qed.

(** After an append the key of the entry is in the dedup-key set. *)
Lemma addMessage_key_seen s e :
  store_ok s → key_of e ∈ seenKeys (fst (addMessage s e)).
Proof.
  intros Hok.
  destruct (decide (key_of e ∈ seenKeys s)) as [Hin | Hnot].
  { by rewrite addMessage_seen. }
  pose proof (ok_len s Hok) as Hlen.
  destruct (decide (length (messages s) < MAX_MESSAGES)%nat) as [Hlt | Hge].
  - rewrite addMessage_room by done. cbn [fst seenKeys set_store]. set_solver.
  - destruct (messages s) as [| removed rest] eqn:Hms.
    { pose proof MAX_MESSAGES_ge_2. cbn [length] in Hge. lia. }
    rewrite (addMessage_evict s e removed rest)
      by (rewrite ?Hms; cbn [length] in *; done || lia).
    cbn [fst seenKeys set_store].
    assert (key_of removed ∈ seenKeys s).
    { apply store_ok_key_seen; [done |]. rewrite Hms. left. }
    rewrite elem_of_difference, elem_of_union, !elem_of_singleton.
    split; [by left |]. intros Heq. apply Hnot. by rewrite Heq.
Qed.

(** An append adds at most the key of its entry. *)
Lemma addMessage_seen_incl s e k :
  k ∈ seenKeys (fst (addMessage s e)) → k = key_of e ∨ k ∈ seenKeys s.
Proof.
  unfold addMessage. fold (key_of e).
  destruct (decide (key_of e ∈ seenKeys s)); [by auto |].
  destruct (Nat.ltb_spec MAX_MESSAGES (length (messages s ++ [e])));
    [destruct (messages s ++ [e]) |]; cbn [fst seenKeys set_store]; set_solver.
Qed.

Lemma filter_key_absent (ms : list Message) k :
  k ∉ keys_of ms → filter (λ m, key_of m = k) ms = [].
Proof.
  induction ms as [| m ms IH]; intros Hk; [done |].
  rewrite keys_of_cons in Hk. apply not_elem_of_cons in Hk as [Hne Hk].
  rewrite filter_cons_False by congruence. by apply IH.
Qed.

Lemma count_key_once (ms : list Message) k :
  NoDup (keys_of ms) → k ∈ keys_of ms →
  length (filter (λ m, key_of m = k) ms) = 1%nat.
Proof.
  induction ms as [| m ms IH]; intros Hnd Hin.
  { by apply elem_of_nil in Hin. }
  rewrite keys_of_cons in Hnd, Hin. apply NoDup_cons in Hnd as [Hm Hnd].
  destruct (decide (key_of m = k)) as [<- | Hne].
  - rewrite filter_cons_True by done. by rewrite filter_key_absent.
  - rewrite filter_cons_False by done. apply IH; [done |].
    apply elem_of_cons in Hin as [-> | Hin]; done.
Qed.

Lemma length_append (a b : string) :
  String.length (a +:+ b) = (String.length a + String.length b)%nat.
Proof.
  induction a as [| c a IH]; [done |].
  change (String c a +:+ b) with (String c (a +:+ b)).
  cbn [String.length]. by rewrite IH.
Qed.

(** The key is the kind, a bar and the text: for one text, equal keys
    mean equal kinds. *)
Lemma makeDedupKey_same_xml k k' x :
  makeDedupKey k x = makeDedupKey k' x ↔ k = k'.
Proof.
  split; [| by intros ->]. unfold makeDedupKey.
  intros H.
  assert (String.length k = String.length k') as Hlen.
  { apply (f_equal String.length) in H.
    rewrite !length_append in H. lia. }
  revert k' H Hlen. induction k as [| c k IH]; intros [| c' k'] H Hlen;
    try done.
  cbn in H, Hlen. simplify_eq. f_equal. apply IH; [done | lia].
Qed.

(** For the kinds the handlers assign, the key determines the pair. *)
Lemma makeDedupKey_assigned k k' x x' :
  k ∈ assigned_kinds → k' ∈ assigned_kinds →
  makeDedupKey k x = makeDedupKey k' x' → k = k' ∧ x = x'.
Proof.
  unfold assigned_kinds. intros Hk Hk' H.
  repeat (apply elem_of_cons in Hk as [-> | Hk]);
    try (by apply elem_of_nil in Hk);
    repeat (apply elem_of_cons in Hk' as [-> | Hk']);
    try (by apply elem_of_nil in Hk');
    vm_compute in H; by simplify_eq.
Qed.

End Store.

Section Dedup.
Implicit Types (s : SessionState) (e m : Message).

Lemma add_all_keeps_new s es :
  store_ok s →
  NoDup (keys_of (messages s ++ es)) →
  (length es ≤ MAX_MESSAGES)%nat →
  ∃ older, messages (add_all s es) = older ++ es.
Proof.
  intros Hok Hnd Hlen. rewrite add_all_messages by done.
  exists (drop (length (messages s ++ es) - MAX_MESSAGES) (messages s)).
  apply drop_app_le. rewrite length_app. lia.
Qed.

Lemma two_fresh_keys_nodup s e1 e2 :
  store_ok s →
  key_of e1 ∉ seenKeys s → key_of e2 ∉ seenKeys s →
  key_of e1 ≠ key_of e2 →
  NoDup (keys_of (messages s ++ [e1; e2])).
Proof.
  intros Hok H1 H2 Hne.
  pose proof (fresh_key_not_stored s e1 Hok H1).
  pose proof (fresh_key_not_stored s e2 Hok H2).
  rewrite keys_of_app. apply NoDup_app. split; [apply (ok_nodup s Hok) |].
  split.
  - intros k Hk Hk'. rewrite !keys_of_cons in Hk'.
    apply elem_of_cons in Hk' as [-> | Hk']; [done |].
    apply elem_of_cons in Hk' as [-> | Hk']; [done |].
    by apply elem_of_nil in Hk'.
  - rewrite !keys_of_cons. apply NoDup_cons. split.
    + intros Hin. apply list_elem_of_singleton in Hin. done.
    + apply NoDup_singleton.
Qed.

End Dedup.

(** ** The store stays consistent along the life of a session *)

Section Invariant.
Context (host : Host).
Implicit Types (s : SessionState) (e m : Message).

Lemma bump_ok s : store_ok s → store_ok (bump s).
Proof. intros [H1 H2 H3]. by split. Qed.

Lemma attach_first_keys ms i status hs ms' :
  attach_first ms i status hs = Some ms' →
  keys_of ms' = keys_of ms ∧ length ms' = length ms.
Proof.
  revert ms'. induction ms as [| m ms IH]; intros ms' H; [done |].
  cbn [attach_first] in H. destruct (id m =? i)%nat.
  - by simplify_eq.
  - destruct (attach_first ms i status hs) as [r |]; [| done].
    cbn in H. simplify_eq. destruct (IH r eq_refl) as [Hk Hl].
    rewrite !keys_of_cons, Hk. cbn [length]. by rewrite Hl.
Qed.

Lemma attachResponseData_ok s d : store_ok s → store_ok (attachResponseData s d).
Proof.
  intros Hok. unfold attachResponseData.
  destruct (requestIdToMessageId s !! details.requestId d) as [i |]; [| done].
  destruct (i =? 0)%nat; [done |].
  destruct (attach_first _ _ _ _) as [ms' |] eqn:Hat; [| done].
  apply attach_first_keys in Hat as [Hk Hl].
  destruct Hok as [H1 H2 H3].
  split; cbn [messages seenKeys set_store]; by rewrite ?Hk, ?Hl.
Qed.

Lemma clearMessages_ok s : store_ok (clearMessages s).
Proof.
  split; cbn [messages seenKeys set_store clearMessages].
  - done.
  - constructor.
  - cbn [length]. lia.
Qed.

Lemma handlePossibleSAML_ok now s d :
  store_ok s → store_ok (handlePossibleSAML host now s d).
Proof.
  intros Hok. unfold handlePossibleSAML.
  destruct (extract host d) as [f |]; [| done].
  destruct (entry_of_found _ _ _ _ _) as [entry |]; [| done].
  by apply addMessage_ok, bump_ok.
Qed.

Lemma handleHeaderValue_ok now s d n v isRequest :
  store_ok s → store_ok (handleHeaderValue host now s d n v isRequest).
Proof.
  intros Hok. unfold handleHeaderValue.
  destruct (header_entry _ _ _ _ _ _ _) as [entry |]; [| done].
  by apply addMessage_ok, bump_ok.
Qed.

Lemma importMessages_ok now s items n :
  store_ok s → store_ok (fst (importMessages now s items n)).
Proof.
  revert s n. induction items as [| it items IH]; intros s n Hok; [done |].
  cbn [importMessages]. destruct (import_text_of it); [by apply IH | | done].
  destruct (addMessage (bump s) _) as [s' stored] eqn:Hadd.
  apply IH. change s' with (fst (s', stored)). rewrite <- Hadd.
  by apply addMessage_ok, bump_ok.
Qed.

Lemma step_ok s ev : store_ok s → store_ok (step host s ev).
Proof.
  intros Hok. destruct ev; cbn [step].
  - by apply handlePossibleSAML_ok.
  - by apply handleHeaderValue_ok.
  - by apply attachResponseData_ok.
  - apply clearMessages_ok.
  - by apply importMessages_ok.
  - by destruct Hok.
  - by destruct Hok.
  - by destruct Hok.
Qed.

Lemma run_ok s es : store_ok s → store_ok (run host s es).
Proof.
  revert s. induction es as [| ev es IH]; intros s Hok; [done |].
  cbn [run fold_left]. apply IH. by apply step_ok.
Qed.

Lemma reachable_ok s : reachable host s → store_ok s.
Proof.
  intros (w & r & es & ->). apply run_ok, store_ok_create.
Qed.

End Invariant.

(** C1. Dedup idempotence. In every state a session reaches, appending a
    second entry with the kind and the XML of the first, whatever its other
    fields, is refused and leaves the session as it was (nothing is merged),
    and exactly one stored message carries that dedup key. When the second
    entry has the same XML and another kind, and neither key is stored yet,
    both appends succeed and both entries are retained. On an empty store
    the result is [[e1]] in the first case and [[e1; e2]] in the second. The
    key is the pair: for one XML text equal keys mean equal kinds, and for
    the kinds the handlers assign the key determines kind and text. *)
Theorem dedup_key_is_kind_and_xml
    (host : Host) (s : SessionState) (e1 e2 : Message) :
  reachable host s →
  xml e1 = xml e2 →
  let s1 := fst (addMessage s e1) in
  let s2 := fst (addMessage s1 e2) in
  (kind e1 = kind e2 →
     addMessage s1 e2 = (s1, false)
     ∧ length (filter (λ m, key_of m = key_of e1) (messages s2)) = 1%nat)
  ∧ (kind e1 ≠ kind e2 →
     key_of e1 ∉ seenKeys s → key_of e2 ∉ seenKeys s →
     snd (addMessage s e1) = true ∧ snd (addMessage s1 e2) = true
     ∧ e1 ∈ messages s2 ∧ e2 ∈ messages s2)
  ∧ (messages s = [] →
     messages s2 = if decide (kind e1 = kind e2) then [e1] else [e1; e2])
  ∧ (∀ k k' x x', k ∈ assigned_kinds → k' ∈ assigned_kinds →
       makeDedupKey k x = makeDedupKey k' x' → k = k' ∧ x = x').
Proof.
  intros Hok%reachable_ok Hxml s1 s2.
  assert (store_ok s1) as Hok1 by (by apply addMessage_ok).
  assert (key_of e1 ∈ seenKeys s1) as Hseen1 by (by apply addMessage_key_seen).
  assert (kind e1 = kind e2 → addMessage s1 e2 = (s1, false)) as Hdup.
  { intros Hkind. apply addMessage_seen.
    unfold key_of in *. by rewrite <- Hkind, <- Hxml. }
  assert (kind e1 ≠ kind e2 → key_of e1 ≠ key_of e2) as Hdiff.
  { intros Hkind Heq. apply Hkind. unfold key_of in Heq.
    rewrite <- Hxml in Heq. by apply makeDedupKey_same_xml in Heq. }
  split; [| split; [| split]].
  - intros Hkind. split; [by apply Hdup |].
    subst s2. rewrite (Hdup Hkind). cbn [fst].
    apply count_key_once; [apply (ok_nodup s1 Hok1) |].
    rewrite (ok_seen s1 Hok1) in Hseen1. by apply elem_of_list_to_set in Hseen1.
  - intros Hkind H1 H2.
    assert (key_of e2 ∉ seenKeys s1) as H2'.
    { intros Hin. apply addMessage_seen_incl in Hin as [Heq | Hin]; [| done].
      by apply (Hdiff Hkind). }
    destruct (addMessage_messages s e1 Hok H1) as (_ & Ht1 & _).
    destruct (addMessage_messages s1 e2 Hok1 H2') as (_ & Ht2 & _).
    split; [done |]. split; [done |].
    destruct (add_all_keeps_new s [e1; e2] Hok) as [older Holder].
    { apply two_fresh_keys_nodup; auto. }
    { pose proof MAX_MESSAGES_ge_2. cbn [length]. lia. }
    change (add_all s [e1; e2]) with s2 in Holder. rewrite Holder.
    split; apply elem_of_app; right; [left | right; left].
  - intros Hempty.
    assert (seenKeys s = ∅) as Hnone.
    { rewrite (ok_seen s Hok), Hempty. done. }
    assert (key_of e1 ∉ seenKeys s) as H1 by (rewrite Hnone; set_solver).
    destruct (decide (kind e1 = kind e2)) as [Hkind | Hkind].
    + subst s2. rewrite (Hdup Hkind). cbn [fst]. subst s1.
      destruct (addMessage_messages s e1 Hok H1) as (-> & _ & _).
      rewrite Hempty. pose proof MAX_MESSAGES_ge_2.
      replace (length ([] ++ [e1]) - MAX_MESSAGES)%nat with 0%nat
        by (cbn [length app]; lia).
      done.
    + assert (key_of e2 ∉ seenKeys s) as H2 by (rewrite Hnone; set_solver).
      change s2 with (add_all s [e1; e2]).
      rewrite add_all_messages; [| done | by apply two_fresh_keys_nodup; auto].
      rewrite Hempty. pose proof MAX_MESSAGES_ge_2.
      replace (length ([] ++ [e1; e2]) - MAX_MESSAGES)%nat with 0%nat
        by (cbn [length app]; lia).
      done.
  - intros k k' x x'. apply makeDedupKey_assigned.
Qed.

Section Eviction.
Implicit Types (s : SessionState) (e m : Message).

Lemma add_all_snoc s es e :
  add_all s (es ++ [e]) = fst (addMessage (add_all s es) e).
Proof. unfold add_all. by rewrite fold_left_app. Qed.

Lemma stored_after_append s e :
  store_ok s → key_of e ∉ seenKeys s →
  snd (addMessage s e) = true ∧ e ∈ messages (fst (addMessage s e)).
Proof.
  intros Hok Hnot.
  destruct (addMessage_messages s e Hok Hnot) as (Hms & Ht & _).
  split; [done |]. rewrite Hms.
  pose proof (ok_len s Hok). pose proof MAX_MESSAGES_ge_2.
  rewrite drop_app_le by (rewrite length_app; cbn [length]; lia).
  apply elem_of_app. right. left.
Qed.

(** What the eviction of the oldest message does. *)
Lemma eviction_effect s e removed rest :
  store_ok s →
  key_of e ∉ seenKeys s →
  messages s = removed :: rest →
  length (messages s) = MAX_MESSAGES →
  let s' := fst (addMessage s e) in
  messages s' = rest ++ [e]
  ∧ (key_of removed ∉ seenKeys s')
  ∧ (∀ r, requestId removed = Some r → truthy r = true →
       (requestIdToMessageId s' !! r) = None)
  ∧ (∀ e', key_of e' = key_of removed →
       snd (addMessage s' e') = true ∧ e' ∈ messages (fst (addMessage s' e'))).
Proof.
  intros Hok Hnot Hms Hlen s'.
  assert (store_ok s') as Hok' by (by apply addMessage_ok).
  assert (key_of removed ∉ seenKeys s') as Hgone.
  { subst s'. rewrite (addMessage_evict s e removed rest) by (done || lia).
    cbn [fst seenKeys set_store]. set_solver. }
  split; [| split; [done | split]].
  - subst s'. by rewrite (addMessage_evict s e removed rest) by (done || lia).
  - intros r Hr Ht. subst s'.
    rewrite (addMessage_evict s e removed rest) by (done || lia).
    cbn [fst requestIdToMessageId set_store]. unfold index_drop.
    rewrite Hr, Ht. apply lookup_delete_eq.
  - intros e' Hkey. apply stored_after_append; [done |]. by rewrite Hkey.
Qed.

End Eviction.

(** C2. The bound and the eviction. Every state a session reaches holds at
    most [MAX_MESSAGES] = 1000 messages. Appending 1001 entries with
    distinct dedup keys to a fresh session leaves exactly the last 1000: the
    first one inserted is absent, its dedup key is no longer in the set, its
    request identifier is no longer in the index, and a later append with
    that key is stored. In every reachable state an append to a full store
    removes the oldest message together with its dedup key and its index
    entry. *)
Theorem store_bounded_fifo_eviction :
  MAX_MESSAGES = 1000%nat
  ∧ (∀ host s, reachable host s → (length (messages s) ≤ MAX_MESSAGES)%nat)
  ∧ (∀ w r first rest,
       length rest = MAX_MESSAGES →
       NoDup (keys_of (first :: rest)) →
       let s := add_all (createSession w r) (first :: rest) in
       messages s = rest
       ∧ length (messages s) = 1000%nat
       ∧ (first ∉ messages s)
       ∧ (key_of first ∉ seenKeys s)
       ∧ (∀ q, requestId first = Some q → truthy q = true →
            (requestIdToMessageId s !! q) = None)
       ∧ (∀ e, key_of e = key_of first →
            snd (addMessage s e) = true ∧ e ∈ messages (fst (addMessage s e))))
  ∧ (∀ host s e removed rest,
       reachable host s →
       key_of e ∉ seenKeys s →
       messages s = removed :: rest →
       length (messages s) = MAX_MESSAGES →
       let s' := fst (addMessage s e) in
       messages s' = rest ++ [e]
       ∧ length (messages s') = MAX_MESSAGES
       ∧ (key_of removed ∉ seenKeys s')
       ∧ (∀ q, requestId removed = Some q → truthy q = true →
            (requestIdToMessageId s' !! q) = None)
       ∧ (∀ e', key_of e' = key_of removed →
            snd (addMessage s' e') = true
            ∧ e' ∈ messages (fst (addMessage s' e')))).
Proof.
  split; [by vm_compute |]. split; [| split].
  - intros host s Hr. apply ok_len. by eapply reachable_ok.
  - intros w r first rest Hlen Hnd s.
    destruct rest as [| last mid _] using rev_ind.
    { pose proof MAX_MESSAGES_ge_2. cbn [length] in Hlen. lia. }
    set (s0 := add_all (createSession w r) (first :: mid)).
    assert (s = fst (addMessage s0 last)) as Hs.
    { subst s s0. by rewrite app_comm_cons, add_all_snoc. }
    assert (NoDup (keys_of (first :: mid))) as Hnd0.
    { rewrite app_comm_cons, keys_of_app in Hnd. by apply NoDup_app in Hnd as (? & _ & _). }
    assert (store_ok s0) as Hok0 by apply add_all_ok, store_ok_create.
    assert (messages s0 = first :: mid) as Hms0.
    { subst s0. rewrite add_all_fresh_messages by done.
      rewrite length_app in Hlen. cbn [length] in *.
      replace (S (length mid) - MAX_MESSAGES)%nat with 0%nat by lia. done. }
    assert (key_of last ∉ seenKeys s0) as Hnot.
    { rewrite (ok_seen s0 Hok0), elem_of_list_to_set, Hms0.
      rewrite app_comm_cons, keys_of_app in Hnd.
      apply NoDup_app in Hnd as (_ & Hdisj & _).
      intros Hin. apply (Hdisj _ Hin). left. }
    destruct (eviction_effect s0 last first mid Hok0 Hnot Hms0)
      as (Hms & Hkey & Hidx & Hlater).
    { rewrite Hms0. rewrite length_app in Hlen. cbn [length] in *. lia. }
    rewrite <- Hs in Hms, Hkey, Hidx, Hlater.
    split; [done |]. split; [by rewrite Hms, Hlen; vm_compute |].
    split; [| by auto].
    rewrite Hms. intros Hin. apply elem_of_keys_of in Hin.
    rewrite keys_of_cons in Hnd. by apply NoDup_cons in Hnd as [? _].
  - intros host s e removed rest Hok%reachable_ok Hnot Hms Hlen s'.
    destruct (eviction_effect s e removed rest Hok Hnot Hms Hlen)
      as (Hms' & Hkey & Hidx & Hlater).
    fold s' in Hms', Hkey, Hidx, Hlater.
    split; [done |]. split; [| by auto].
    rewrite Hms', length_app. rewrite Hms in Hlen. cbn [length] in *. lia.
Qed.

(** C3. The [clearMessages] case empties the message sequence and the
    dedup-key set and leaves the counter where it was, but it does not touch
    the request-identifier index: after clearing a session that holds the
    message of request ["req-1"], the index still maps ["req-1"] to message
    id 1. *)
Theorem clearMessages_keeps_index :
  (∀ s, messages (clearMessages s) = []
        ∧ seenKeys (clearMessages s) = ∅
        ∧ nextMessageId (clearMessages s) = nextMessageId s
        ∧ requestIdToMessageId (clearMessages s) = requestIdToMessageId s)
  ∧ messages one_message_session
      = [sample_entry 1 "SAMLResponse" "POST" "<Response/>" (Some "req-1")]
  ∧ nextMessageId (clearMessages one_message_session) = 2%nat
  ∧ (requestIdToMessageId (clearMessages one_message_session) !! "req-1")
      = Some 1%nat
  ∧ requestIdToMessageId (clearMessages one_message_session) ≠ ∅.
Proof.
  split; [done |]. split; [by vm_compute |]. split; [by vm_compute |].
  assert ((requestIdToMessageId (clearMessages one_message_session) !! "req-1")
          = Some 1%nat) as Hidx by (by vm_compute).
  split; [done |]. intros Hempty. rewrite Hempty in Hidx. done.
Qed.

Section Attach.
Implicit Types (s : SessionState) (m : Message).

Lemma attach_first_none ms i status hs :
  (∀ m, m ∈ ms → id m ≠ i) → attach_first ms i status hs = None.
Proof.
  induction ms as [| m ms IH]; intros Hno; [done |].
  cbn [attach_first].
  destruct (Nat.eqb_spec (id m) i) as [Heq | _].
  - exfalso. apply (Hno m); [left | done].
  - rewrite IH; [done |]. intros m' Hin. apply Hno. by right.
Qed.

Lemma update_by_tab_id (sessions : registry) tabId (f : SessionState → SessionState) :
  (∀ s, getSessionByTabId sessions tabId = Some s → f s = s) →
  update_by_tab sessions tabId f = sessions.
Proof.
  induction sessions as [| [w s] r IH]; intros Hf; [done |].
  cbn [update_by_tab getSessionByTabId] in *.
  destruct (decide (tabId ∈ trackedTabIds s)).
  - by rewrite Hf.
  - by rewrite IH.
Qed.

End Attach.

(** C6. [attachResponseData] for a request identifier that is not in the
    index, or whose indexed message id is not the id of a stored message,
    returns with the session as it was: no message is changed and the count
    is the same. The same holds for the registry the listener works on. *)
Theorem attachResponseData_unknown_request
    (s : SessionState) (d : details.t) :
  (requestIdToMessageId s !! details.requestId d) = None
  ∨ (∃ i, (requestIdToMessageId s !! details.requestId d) = Some i
          ∧ ∀ m, m ∈ messages s → id m ≠ i) →
  attachResponseData s d = s
  ∧ messages (attachResponseData s d) = messages s
  ∧ length (messages (attachResponseData s d)) = length (messages s)
  ∧ (∀ sessions, getSessionByTabId sessions (details.tabId d) = Some s →
       onCompleted sessions d = sessions).
Proof.
  intros H.
  assert (attachResponseData s d = s) as Heq.
  { unfold attachResponseData. destruct H as [-> | (i & -> & Hno)]; [done |].
    destruct (i =? 0)%nat; [done |]. by rewrite attach_first_none. }
  rewrite Heq. repeat split.
  intros sessions Hs. apply update_by_tab_id. intros s' Hs'. congruence.
Qed.

(** ** Correlation *)

Section Correlation.
Context (host : Host).
Implicit Types (s : SessionState) (e m : Message).

Lemma transports_apart (t : string) :
  t ∈ plain_transports → t ∈ correlated_transports → False.
Proof.
  unfold plain_transports, correlated_transports. intros Hp Hc.
  repeat (apply elem_of_cons in Hp as [-> | Hp]);
    try (by apply elem_of_nil in Hp);
    repeat (apply elem_of_cons in Hc as [Hc | Hc]; [by simplify_eq |]);
    by apply elem_of_nil in Hc.
Qed.

Lemma addMessage_elem s e m :
  m ∈ messages (fst (addMessage s e)) → m ∈ messages s ∨ m = e.
Proof.
  unfold addMessage. destruct (decide _); [by auto |].
  destruct (Nat.ltb_spec MAX_MESSAGES (length (messages s ++ [e]))).
  - destruct (messages s) as [| removed rest] eqn:Hms;
      cbn [app fst messages set_store].
    + intros Hin. apply elem_of_nil in Hin. done.
    + intros [Hin | ->%list_elem_of_singleton]%elem_of_app; [| by auto].
      left. by right.
  - cbn [fst messages set_store].
    intros [Hin | ->%list_elem_of_singleton]%elem_of_app; by auto.
Qed.

Lemma index_add_lookup (index : gmap string nat) e r i :
  (index_add index e !! r) = Some i →
  (index !! r) = Some i ∨ (requestId e = Some r ∧ i = id e).
Proof.
  unfold index_add. destruct (requestId e) as [q |]; [| by auto].
  destruct (truthy q); [| by auto].
  destruct (decide (q = r)) as [-> | Hne].
  - rewrite lookup_insert_eq. intros [= <-]. by right.
  - rewrite lookup_insert_ne by done. by auto.
Qed.

Lemma index_drop_lookup (index : gmap string nat) e r i :
  (index_drop index e !! r) = Some i → (index !! r) = Some i.
Proof.
  unfold index_drop. destruct (requestId e) as [q |]; [| done].
  destruct (truthy q); [| done].
  destruct (decide (q = r)) as [-> | Hne].
  - by rewrite lookup_delete_eq.
  - by rewrite lookup_delete_ne.
Qed.

Lemma addMessage_index s e r i :
  (requestIdToMessageId (fst (addMessage s e)) !! r) = Some i →
  (requestIdToMessageId s !! r) = Some i ∨ (requestId e = Some r ∧ i = id e).
Proof.
  unfold addMessage. destruct (decide _); [by auto |].
  fold (index_add (requestIdToMessageId s) e).
  destruct (Nat.ltb_spec MAX_MESSAGES (length (messages s ++ [e])));
    [destruct (messages s ++ [e]) as [| removed rest] |];
    cbn [fst requestIdToMessageId set_store];
    try apply index_add_lookup.
  fold (index_drop (index_add (requestIdToMessageId s) e) removed).
  intros Hd%index_drop_lookup. by apply index_add_lookup.
Qed.

Lemma addMessage_next s e :
  nextMessageId (fst (addMessage s e)) = nextMessageId s.
Proof.
  unfold addMessage. destruct (decide _); [done |].
  destruct (Nat.ltb_spec MAX_MESSAGES (length (messages s ++ [e])));
    [destruct (messages s ++ [e]) |]; done.
Qed.

(** Appending the entry that took the next id. *)
Lemma append_next_corr s e :
  correlation_ok s → id e = nextMessageId s → entry_ok e →
  correlation_ok (fst (addMessage (bump s) e)).
Proof.
  intros [Hids Hidx Htr Hplain Hapart] Hid Hentry.
  split; rewrite ?addMessage_next; cbn [nextMessageId bump set_store].
  - intros m [Hin | ->]%addMessage_elem; [| lia].
    specialize (Hids m Hin). lia.
  - intros r i [Hin | [_ ->]]%addMessage_index; [| lia].
    specialize (Hidx r i Hin). lia.
  - intros m [Hin | ->]%addMessage_elem; [by apply Htr |].
    destruct Hentry as [[? _] | ?]; by auto.
  - intros m [Hin | ->]%addMessage_elem Hp; [by apply Hplain |].
    destruct Hentry as [[_ ?] | Hc]; [done |].
    exfalso. by eapply transports_apart.
  - intros r i m [Hr | [Hr ->]]%addMessage_index [Hin | ->]%addMessage_elem Hp.
    + by eapply Hapart.
    + specialize (Hidx r i Hr). cbn [requestIdToMessageId bump set_store] in *. lia.
    + specialize (Hids m Hin). lia.
    + destruct Hentry as [[_ (Hno & _)] | Hc]; [congruence |].
      exfalso. by eapply transports_apart.
Qed.

Lemma attach_first_elem ms i status hs ms' m' :
  attach_first ms i status hs = Some ms' → m' ∈ ms' →
  m' ∈ ms ∨ ∃ m0, m0 ∈ ms ∧ id m0 = i ∧ m' = attach m0 status hs.
Proof.
  revert ms'. induction ms as [| m ms IH]; intros ms' H Hin; [done |].
  cbn [attach_first] in H. destruct (Nat.eqb_spec (id m) i) as [Heq | Hne].
  - simplify_eq. apply elem_of_cons in Hin as [-> | Hin].
    + right. exists m. split; [left | done].
    + left. by right.
  - destruct (attach_first ms i status hs) as [r |]; [| done].
    cbn in H. simplify_eq. apply elem_of_cons in Hin as [-> | Hin].
    + left. left.
    + destruct (IH r eq_refl Hin) as [? | (m0 & ? & ? & ?)].
      * left. by right.
      * right. exists m0. split; [by right | done].
Qed.

(** A message of the header pass or of the import is never the one
    [attachResponseData] changes. *)
Lemma attachResponseData_plain s d m :
  correlation_ok s → transport m ∈ plain_transports →
  m ∈ messages (attachResponseData s d) → m ∈ messages s.
Proof.
  intros Hco Hp. unfold attachResponseData.
  destruct (requestIdToMessageId s !! details.requestId d) as [i |] eqn:Hr;
    [| done].
  destruct (i =? 0)%nat; [done |].
  destruct (attach_first _ _ _ _) as [ms' |] eqn:Hat; [| done].
  cbn [messages set_store]. intros Hin.
  destruct (attach_first_elem _ _ _ _ _ _ Hat Hin) as [? | (m0 & Hm0 & Hid & ->)];
    [done |].
  exfalso. by apply (co_apart s Hco _ _ m0 Hr Hm0 Hp).
Qed.

Lemma attachResponseData_corr s d :
  correlation_ok s → correlation_ok (attachResponseData s d).
Proof.
  intros Hco. pose proof Hco as [Hids Hidx Htr Hplain Hapart].
  unfold attachResponseData.
  destruct (requestIdToMessageId s !! details.requestId d) as [i |] eqn:Hr;
    [| done].
  destruct (i =? 0)%nat; [done |].
  destruct (attach_first _ _ _ _) as [ms' |] eqn:Hat; [| done].
  assert (∀ m', m' ∈ ms' → ∃ m0, m0 ∈ messages s ∧ id m' = id m0
            ∧ transport m' = transport m0
            ∧ (transport m' ∈ plain_transports → m' = m0)) as Hback.
  { intros m' Hin.
    destruct (attach_first_elem _ _ _ _ _ _ Hat Hin) as [? | (m0 & Hm0 & Hid & ->)].
    - by exists m'.
    - exists m0. repeat split; [done |]. intros Hp. exfalso.
      by apply (Hapart _ _ m0 Hr Hm0 Hp). }
  split; cbn [messages nextMessageId requestIdToMessageId set_store].
  - intros m' (m0 & Hm0 & -> & _)%Hback. by apply Hids.
  - done.
  - intros m' (m0 & Hm0 & _ & -> & _)%Hback. by apply Htr.
  - intros m' Hin Hp. destruct (Hback m' Hin) as (m0 & Hm0 & _ & _ & Heq).
    pose proof (Heq Hp) as ->. by apply Hplain.
  - intros r j m' Hj Hin Hp. destruct (Hback m' Hin) as (m0 & Hm0 & _ & _ & Heq).
    pose proof (Heq Hp) as ->. by eapply Hapart.
Qed.

End Correlation.

Section Entries.
Context (host : Host).
Implicit Types (s : SessionState) (e m : Message) (f : found.t).

Lemma first_base64_item_shape items f :
  first_base64_item items = Some f →
  (found.name f, found.transport f) ∈ candidate_shapes.
Proof.
  induction items as [| it items IH]; [done |].
  cbn [first_base64_item]. destruct (looksLikeBase64 (item.value it)); [| done].
  intros [= <-]. cbn [found.name found.transport].
  unfold json_candidate_name, candidate_shapes.
  destruct (truthy _ && includes _ "request");
    [| destruct (truthy _ && includes _ "response")];
    in_list.
Qed.

Lemma extractFromQuery_shape u f :
  extractFromQuery host u = Some f →
  (found.name f, found.transport f) ∈ candidate_shapes.
Proof.
  unfold extractFromQuery, candidate_shapes.
  destruct (URL_searchParams host u) as [q |]; [| done].
  destruct (searchParams_get q "SAMLResponse");
    [| destruct (searchParams_get q "SAMLRequest");
       [| destruct (searchParams_get q "SAMLart"); [| done]]];
    intros [= <-]; in_list.
Qed.

Lemma extractFromForm_shape d f :
  extractFromForm d = Some f →
  (found.name f, found.transport f) ∈ candidate_shapes.
Proof.
  unfold extractFromForm, candidate_shapes.
  destruct (formData_of d) as [fd |]; [| done].
  repeat match goal with
         | |- context [match ?x with _ => _ end] => destruct x
         end;
    try done; intros [= <-]; in_list.
Qed.

Lemma extractFromRaw_shape d f :
  extractFromRaw host d = Some f →
  (found.name f, found.transport f) ∈ candidate_shapes
  ∨ (found.name f = "SAML-XML" ∧ found.transport f = "SOAP"
     ∧ looksLikeXML (found.value f) = true).
Proof.
  unfold extractFromRaw.
  destruct (decodeRawBody host d) as [rawText |]; [| done].
  destruct (jsonCandidate host rawText) as [g |] eqn:Hjson.
  - intros [= <-]. left. unfold jsonCandidate in Hjson.
    destruct (extractSAMLFromJSONText host rawText) as [items |]; [| done].
    exact (first_base64_item_shape items g Hjson).
  - destruct (looksLikeXML rawText) eqn:Hxml; [| done].
    destruct (mentions_saml rawText); [| done].
    intros [= <-]. by right.
Qed.

Lemma extract_shape d f :
  extract host d = Some f →
  (found.name f, found.transport f) ∈ candidate_shapes
  ∨ (found.name f = "SAML-XML" ∧ found.transport f = "SOAP"
     ∧ looksLikeXML (found.value f) = true).
Proof.
  unfold extract, extractFromBody.
  destruct (extractFromQuery host (details.url d)) eqn:Hq.
  { intros [= <-]. left. by eapply extractFromQuery_shape. }
  destruct (extractFromForm d) eqn:Hf.
  { intros [= <-]. left. by eapply extractFromForm_shape. }
  apply extractFromRaw_shape.
Qed.

Lemma entry_of_found_ok now d f next e :
  extract host d = Some f →
  entry_of_found host now d f next = Some e →
  id e = next
  ∧ transport e ∈ correlated_transports
  ∧ kind e ∈ assigned_kinds.
Proof.
  intros Hshape%extract_shape. destruct f as [n v t].
  cbn [found.name found.transport found.value] in Hshape.
  unfold entry_of_found, correlated_transports, assigned_kinds.
  cbn [found.name found.transport found.value].
  destruct Hshape as [Hshape | (-> & -> & Hxml)].
  - unfold candidate_shapes in Hshape.
    repeat (apply elem_of_cons in Hshape as [[= -> ->] | Hshape]);
      try (by apply elem_of_nil in Hshape);
      cbn [String.eqb Ascii.eqb Bool.eqb andb orb];
      repeat
        match goal with
        | |- Some _ = Some _ → _ => intros [= <-]; cbn [id transport kind]
        | |- None = Some _ → _ => intros [=]
        | |- context [match ?x with _ => _ end] => destruct x eqn:?
        end;
      (split; [reflexivity |]);
      split; in_list.
  - rewrite Hxml. cbn [String.eqb Ascii.eqb Bool.eqb andb orb].
    intros [= <-]. cbn [id transport kind].
    split; [reflexivity |]. split; in_list.
Qed.

Lemma header_kind_assigned n : header_kind n ∈ assigned_kinds.
Proof.
  unfold header_kind, assigned_kinds.
  repeat match goal with
         | |- context [if ?b then _ else _] => destruct b
         end; in_list.
Qed.

Lemma header_entry_ok now d n v isRequest next e :
  header_entry host now d n v isRequest next = Some e →
  id e = next ∧ transport e ∈ plain_transports ∧ no_correlation e
  ∧ kind e ∈ assigned_kinds.
Proof.
  unfold header_entry, plain_transports.
  destruct (decodeSAML _ _ _) as [x |]; [| done].
  destruct (negb (looksLikeXML x)); [done |].
  intros [= <-]. cbn [id transport kind]. split; [done |].
  split; [destruct isRequest; in_list |].
  split; [done | apply header_kind_assigned].
Qed.

Lemma import_entry_ok now x next :
  id (import_entry now x next) = next
  ∧ transport (import_entry now x next) ∈ plain_transports
  ∧ no_correlation (import_entry now x next)
  ∧ kind (import_entry now x next) ∈ assigned_kinds.
Proof.
  split; [done |]. split; [by right; right; left |]. split; [done |].
  cbn [kind import_entry]. unfold guessKindFromXML, assigned_kinds.
  repeat match goal with
         | |- context [if ?b then _ else _] => destruct b
         end; in_list.
Qed.

End Entries.

Section CorrelationInvariant.
Context (host : Host).
Implicit Types (s : SessionState) (e m : Message).

Lemma correlation_ok_create w r : correlation_ok (createSession w r).
Proof.
  split; cbn [createSession messages requestIdToMessageId];
    try (intros m Hin; by apply elem_of_nil in Hin).
  - intros q i Hq. by rewrite lookup_empty in Hq.
  - intros q i m Hq. by rewrite lookup_empty in Hq.
Qed.

Lemma handlePossibleSAML_corr now s d :
  correlation_ok s → correlation_ok (handlePossibleSAML host now s d).
Proof.
  intros Hco. unfold handlePossibleSAML.
  destruct (extract host d) as [f |] eqn:Hf; [| done].
  destruct (entry_of_found _ _ _ _ _) as [entry |] eqn:He; [| done].
  destruct (entry_of_found_ok host _ _ _ _ _ Hf He) as (Hid & Ht & _).
  apply append_next_corr; [done | done | by right].
Qed.

Lemma handleHeaderValue_corr now s d n v isRequest :
  correlation_ok s → correlation_ok (handleHeaderValue host now s d n v isRequest).
Proof.
  intros Hco. unfold handleHeaderValue.
  destruct (header_entry _ _ _ _ _ _ _) as [entry |] eqn:He; [| done].
  destruct (header_entry_ok host _ _ _ _ _ _ _ He) as (Hid & Ht & Hno & _).
  apply append_next_corr; [done | done | by left].
Qed.

Lemma importMessages_corr now s items n :
  correlation_ok s → correlation_ok (fst (importMessages now s items n)).
Proof.
  revert s n. induction items as [| it items IH]; intros s n Hco; [done |].
  cbn [importMessages]. destruct (import_text_of it) as [| x |];
    [by apply IH | | done].
  destruct (addMessage (bump s) _) as [s' stored] eqn:Hadd.
  apply IH. change s' with (fst (s', stored)). rewrite <- Hadd.
  destruct (import_entry_ok now x (nextMessageId s)) as (Hid & Ht & Hno & _).
  apply append_next_corr; [done | done | by left].
Qed.

Lemma clearMessages_corr s : correlation_ok s → correlation_ok (clearMessages s).
Proof.
  intros [Hids Hidx Htr Hplain Hapart].
  split; cbn [clearMessages messages requestIdToMessageId nextMessageId set_store];
    try (intros m Hin; by apply elem_of_nil in Hin).
  - done.
  - intros q i m _ Hin. by apply elem_of_nil in Hin.
Qed.

Lemma step_corr s ev : correlation_ok s → correlation_ok (step host s ev).
Proof.
  intros Hco. destruct ev; cbn [step].
  - by apply handlePossibleSAML_corr.
  - by apply handleHeaderValue_corr.
  - by apply attachResponseData_corr.
  - by apply clearMessages_corr.
  - by apply importMessages_corr.
  - by destruct Hco.
  - by destruct Hco.
  - by destruct Hco.
Qed.

Lemma run_corr s es : correlation_ok s → correlation_ok (run host s es).
Proof.
  revert s. induction es as [| ev es IH]; intros s Hco; [done |].
  cbn [run fold_left]. apply IH. by apply step_corr.
Qed.

Lemma reachable_corr s : reachable host s → correlation_ok s.
Proof.
  intros (w & r & es & ->). apply run_corr, correlation_ok_create.
Qed.

Lemma attach_first_keeps ms i status hs ms' m :
  attach_first ms i status hs = Some ms' → m ∈ ms → id m ≠ i → m ∈ ms'.
Proof.
  revert ms'. induction ms as [| m0 ms IH]; intros ms' H Hin Hne.
  { by apply elem_of_nil in Hin. }
  cbn [attach_first] in H. destruct (Nat.eqb_spec (id m0) i) as [Heq | Hne0].
  - simplify_eq. apply elem_of_cons in Hin as [-> | Hin]; [done | by right].
  - destruct (attach_first ms i status hs) as [r |]; [| done].
    cbn in H. simplify_eq. apply elem_of_cons in Hin as [-> | Hin]; [left |].
    right. by apply IH.
Qed.

Lemma attachResponseData_keeps s d m :
  m ∈ messages s →
  (∀ r i, (requestIdToMessageId s !! r) = Some i → i ≠ id m) →
  m ∈ messages (attachResponseData s d).
Proof.
  intros Hin Hfree. unfold attachResponseData.
  destruct (requestIdToMessageId s !! details.requestId d) as [i |] eqn:Hr;
    [| done].
  destruct (i =? 0)%nat; [done |].
  destruct (attach_first _ _ _ _) as [ms' |] eqn:Hat; [| done].
  cbn [messages set_store]. eapply attach_first_keeps; [done | done |].
  intros Heq. by apply (Hfree _ _ Hr).
Qed.

End CorrelationInvariant.

(** C9. In every state a session reaches, a message whose transport is
    HEADER(req), HEADER(res) or IMPORT has no request identifier, its id is
    the value of no entry of the request-identifier index, it carries
    neither a response status nor response headers, and
    [attachResponseData] leaves it as it is whatever the completed request.
    Conversely a message that carries a status or response headers, or whose
    id is in the index, has one of the transports GET, POST, JSON and SOAP of
    the query and body pass. The entries of the header pass and of the
    import are built without a request identifier. *)
Theorem header_and_import_never_correlated
    (host : Host) (s : SessionState) (m : Message) :
  reachable host s →
  m ∈ messages s →
  (transport m ∈ plain_transports →
     requestId m = None
     ∧ (∀ r i, (requestIdToMessageId s !! r) = Some i → i ≠ id m)
     ∧ statusCode m = None
     ∧ responseHeaders m = None
     ∧ (∀ d, m ∈ messages (attachResponseData s d)))
  ∧ (is_Some (statusCode m) ∨ is_Some (responseHeaders m)
     ∨ (∃ r, (requestIdToMessageId s !! r) = Some (id m)) →
     transport m ∈ correlated_transports)
  ∧ (∀ now d n v isRequest next e,
       header_entry host now d n v isRequest next = Some e →
       transport e ∈ plain_transports ∧ requestId e = None)
  ∧ (∀ now x next,
       transport (import_entry now x next) = "IMPORT"
       ∧ requestId (import_entry now x next) = None).
Proof.
  intros Hreach Hin. pose proof (reachable_corr host s Hreach) as Hco.
  assert (transport m ∈ plain_transports →
          no_correlation m
          ∧ ∀ r i, (requestIdToMessageId s !! r) = Some i → i ≠ id m) as Hplain.
  { intros Hp. split; [by apply (co_plain s Hco) |].
    intros r i Hr Heq. by apply (co_apart s Hco r i m Hr Hin Hp). }
  split; [| split; [| split]].
  - intros Hp. destruct (Hplain Hp) as ((Hrq & Hst & Hrh) & Hfree).
    repeat split; try done. intros d. by apply attachResponseData_keeps.
  - intros Hcorr. destruct (co_transport s Hco m Hin) as [Hp | Hc]; [| done].
    destruct (Hplain Hp) as ((_ & Hst & Hrh) & Hfree).
    destruct Hcorr as [[? Hs] | [[? Hh] | [r Hr]]]; [congruence | congruence |].
    exfalso. by apply (Hfree r _ Hr).
  - intros now d n v isRequest next e He.
    destruct (header_entry_ok host _ _ _ _ _ _ _ He) as (_ & Ht & (Hrq & _) & _).
    done.
  - done.
Qed.

(** ** The decoder *)

Section DecoderFacts.
Context (host : Host).

Lemma text_or_null_none t :
  text_or_null (Some t) = None ↔ t = "".
Proof. destruct t; cbn; split; done. Qed.

Lemma maybeInflateDeflateRaw_fallback raw :
  DecompressionStream host = None
  ∨ (∃ inflate, DecompressionStream host = Some inflate ∧ inflate raw = None) →
  maybeInflateDeflateRaw host raw = raw.
Proof.
  unfold maybeInflateDeflateRaw. intros [-> | (inflate & -> & ->)]; done.
Qed.

End DecoderFacts.

(** C8. [decodeSAML] fails exactly when [b64ToBytes] fails or the text
    decoded from the final bytes is empty. With [tryInflate], when
    [DecompressionStream] is undefined or inflation throws, the bytes
    decoded are the base64-decoded ones: the result is that of the call
    without [tryInflate], and it fails only if that text is empty. *)
Theorem decodeSAML_failure (host : Host) (b64 : string) (tryInflate : bool) :
  (decodeSAML host b64 tryInflate = None ↔
     b64ToBytes b64 = None
     ∨ ∃ raw, b64ToBytes b64 = Some raw
         ∧ TextDecoder_decode host
             (if tryInflate then maybeInflateDeflateRaw host raw else raw) = "")
  ∧ (∀ raw, b64ToBytes b64 = Some raw →
       DecompressionStream host = None
       ∨ (∃ inflate, DecompressionStream host = Some inflate
                     ∧ inflate raw = None) →
       maybeInflateDeflateRaw host raw = raw
       ∧ decodeSAML host b64 true = decodeSAML host b64 false
       ∧ (decodeSAML host b64 true = None ↔ TextDecoder_decode host raw = "")).
Proof.
  split.
  - unfold decodeSAML, bytesToUtf8.
    destruct (b64ToBytes b64) as [raw |]; [| by split; auto].
    rewrite text_or_null_none. split.
    + intros H. right. by exists raw.
    + intros [? | (raw' & [= <-] & H)]; done.
  - intros raw Hraw Hfail.
    pose proof (maybeInflateDeflateRaw_fallback host raw Hfail) as Hfb.
    split; [done |]. unfold decodeSAML, bytesToUtf8. rewrite Hraw, Hfb.
    split; [done |]. apply text_or_null_none.
Qed.

(** ** The encoding descriptor *)

Section Encoding.
Context (host : Host).

Lemma addMessage_stored_elem s e :
  snd (addMessage s e) = true → e ∈ messages (fst (addMessage s e)).
Proof.
  unfold addMessage. destruct (decide _); [done |].
  destruct (Nat.ltb_spec MAX_MESSAGES (length (messages s ++ [e]))) as [Hlt | _].
  - destruct (messages s) as [| removed rest]; cbn [app fst messages set_store].
    + pose proof MAX_MESSAGES_ge_2. cbn [app length] in Hlt. lia.
    + intros _. apply elem_of_app. right. left.
  - cbn [fst messages set_store]. intros _. apply elem_of_app. right. left.
Qed.

Lemma default_path_entry now d f next e :
  found.name f = "SAMLRequest" →
  found.transport f = "GET" ∨ found.transport f = "POST" →
  entry_of_found host now d f next = Some e →
  ∃ text,
    decodeSAML host (found.value f) true = Some text
    ∧ xml e = trim text
    ∧ kind e = "SAMLRequest"
    ∧ transport e = found.transport f
    ∧ encoding e = Some "deflate-raw".
Proof.
  destruct f as [n v t]. cbn [found.name found.transport found.value].
  intros -> Ht. unfold entry_of_found.
  cbn [found.name found.transport found.value].
  destruct Ht as [-> | ->];
    cbn [String.eqb Ascii.eqb Bool.eqb andb orb];
    (destruct (decodeSAML host v true) as [text |]; [| done]);
    (destruct (String.length (trim text) =? 0)%nat; [done |]);
    (destruct (negb (looksLikeXML (trim text))); [done |]);
    intros [= <-]; exists text; done.
Qed.

End Encoding.

(** C10. When the candidate of the query or form-body pass is named
    SAMLRequest and has transport GET or POST, the entry
    [handlePossibleSAML] hands to [addMessage] has encoding ['deflate-raw'],
    and it is the message stored when [addMessage] accepts it. This is so
    also when [DecompressionStream] is undefined or inflation throws: the
    XML of the entry is then the trimmed text of the base64-decoded bytes,
    and the encoding is still ['deflate-raw']. *)
Theorem samlrequest_encoding_deflate_raw
    (host : Host) (now : string) (s : SessionState) (d : details.t)
    (f : found.t) (e : Message) :
  extract host d = Some f →
  found.name f = "SAMLRequest" →
  found.transport f = "GET" ∨ found.transport f = "POST" →
  entry_of_found host now d f (nextMessageId s) = Some e →
  encoding e = Some "deflate-raw"
  ∧ handlePossibleSAML host now s d = fst (addMessage (bump s) e)
  ∧ (snd (addMessage (bump s) e) = true →
       e ∈ messages (handlePossibleSAML host now s d))
  ∧ (∀ raw, b64ToBytes (found.value f) = Some raw →
       DecompressionStream host = None
       ∨ (∃ inflate, DecompressionStream host = Some inflate
                     ∧ inflate raw = None) →
       xml e = trim (TextDecoder_decode host raw)
       ∧ encoding e = Some "deflate-raw").
Proof.
  intros Hf Hname Ht He.
  destruct (default_path_entry host now d f _ e Hname Ht He)
    as (text & Hdec & Hxml & _ & _ & Henc).
  assert (handlePossibleSAML host now s d = fst (addMessage (bump s) e)) as Hh.
  { unfold handlePossibleSAML. by rewrite Hf, He. }
  split; [done |]. split; [done |]. split.
  - intros Hstored. rewrite Hh. by apply addMessage_stored_elem.
  - intros raw Hraw Hfail. split; [| done].
    rewrite Hxml. f_equal.
    pose proof (maybeInflateDeflateRaw_fallback host raw Hfail) as Hfb.
    unfold decodeSAML, bytesToUtf8 in Hdec. rewrite Hraw, Hfb in Hdec.
    cbn [text_or_null] in Hdec.
    destruct (truthy (TextDecoder_decode host raw)); by simplify_eq.
Qed.

(** ** JSON bodies *)

Section JsonBody.

Lemma first_base64_item_app a b :
  first_base64_item (a ++ b) =
    match first_base64_item a with
    | Some f => Some f
    | None => first_base64_item b
    end.
Proof.
  induction a as [| it a IH]; [done |]. cbn [app first_base64_item].
  by destruct (looksLikeBase64 (item.value it)).
Qed.

Lemma first_base64_field_app a b :
  first_base64_field (a ++ b) =
    match first_base64_field a with
    | Some f => Some f
    | None => first_base64_field b
    end.
Proof.
  induction a as [| it a IH]; [done |]. cbn [app first_base64_field].
  by destruct (looksLikeBase64 (item.value it)).
Qed.

Lemma saml_named_truthy k : saml_named k = true → or_else k "b64" = k.
Proof. by destruct k. Qed.

(** The walk keeps the fields in order; the first base64-looking one it
    keeps is the first base64-looking field of the body. *)
Lemma walk_first_base64 v k :
  first_base64_item (walk v k) = first_base64_field (string_fields v k).
Proof.
  revert k. induction v as [| b | n | s | l IH | l IH] using json_induction;
    intros k; try done.
  - cbn [walk string_fields]. fold (saml_named k).
    destruct (saml_named k) eqn:Hk.
    + cbn [first_base64_item first_base64_field item.name item.value].
      by rewrite (saml_named_truthy k Hk).
    + destruct (looksLikeBase64 s) eqn:Hs;
        cbn [first_base64_item first_base64_field item.name item.value];
        by rewrite Hs.
  - cbn [walk string_fields]. generalize 0%nat.
    induction IH as [| x r Hx _ IHr]; intros i; [done |].
    rewrite first_base64_item_app, first_base64_field_app, Hx.
    by rewrite IHr.
  - cbn [walk string_fields].
    induction IH as [| [ck cv] r Hx _ IHr]; [done |].
    rewrite first_base64_item_app, first_base64_field_app.
    cbn [snd] in Hx. by rewrite Hx, IHr.
Qed.

End JsonBody.

(** C4, as the script has it. The candidate of the JSON path is made of
    the first string-valued field, in the depth-first order of the walk,
    whose value looks like base64, whether or not the name of the field
    contains samlresponse or samlrequest: a field with such a name is the
    candidate when its value looks like base64 and no base64-looking string
    value comes before it. *)
Theorem json_candidate_first_base64_field
    (host : Host) (rawText : string) (obj : json) :
  JSON_parse host rawText = Some obj →
  jsonCandidate host rawText = first_base64_field (string_fields obj "")
  ∧ (∀ before it after,
       string_fields obj "" = before ++ it :: after →
       Forall (λ x, looksLikeBase64 (item.value x) = false) before →
       looksLikeBase64 (item.value it) = true →
       jsonCandidate host rawText
       = Some {| found.name :=
                   json_candidate_name (or_else (item.name it) "b64");
                 found.value := item.value it;
                 found.transport := "JSON" |}).
Proof.
  intros Hparse.
  assert (jsonCandidate host rawText
          = first_base64_field (string_fields obj "")) as Heq.
  { unfold jsonCandidate, extractSAMLFromJSONText. rewrite Hparse.
    rewrite <- walk_first_base64. by destruct (walk obj ""). }
  split; [done |]. intros before it after Hfields Hbefore Hit.
  rewrite Heq, Hfields, first_base64_field_app.
  assert (first_base64_field before = None) as ->.
  { clear Hfields. induction Hbefore as [| x r Hx _ IH]; [done |].
    cbn [first_base64_field]. by rewrite Hx. }
  cbn [first_base64_field]. by rewrite Hit.
Qed.

(** C4 fails as stated. The body
    [{"token": "AAAAAAAAAAAAAAAA", "samlResponse": "PFJlc3BvbnNlLz4="}]
    has a field named samlResponse whose value looks like base64, and the
    candidate extracted is the value of the field token. *)
Lemma json_named_field_not_preferred :
  string_fields token_first_body ""
    = [ {| item.name := "token"; item.value := "AAAAAAAAAAAAAAAA" |};
        {| item.name := "samlResponse"; item.value := "PFJlc3BvbnNlLz4=" |} ]
  ∧ saml_named "samlResponse" = true
  ∧ looksLikeBase64 "PFJlc3BvbnNlLz4=" = true
  ∧ saml_named "token" = false
  ∧ looksLikeBase64 "AAAAAAAAAAAAAAAA" = true
  ∧ extractFromBody (request_host [] (Some token_first_body))
      (post_with_body token_first_text)
    = Some {| found.name := "SAMLBase64"; found.value := "AAAAAAAAAAAAAAAA";
              found.transport := "JSON" |}.
Proof. vm_compute. repeat split. Qed.

(** ** The tab tracker *)

Section TabTracker.
Implicit Types (sessions : registry) (s : SessionState).

Lemma update_by_tab_lookup sessions t f w s :
  getSessionByWindowId sessions w = Some s →
  getSessionByWindowId (update_by_tab sessions t f) w = Some s
  ∨ getSessionByWindowId (update_by_tab sessions t f) w = Some (f s).
Proof.
  induction sessions as [| [w0 s0] r IH]; [done |].
  cbn [getSessionByWindowId update_by_tab].
  destruct (decide (t ∈ trackedTabIds s0)); cbn [getSessionByWindowId];
    destruct (w0 =? w)%Z; try (intros [= ->]); by auto.
Qed.

Lemma tab_step_lookup sessions e w s :
  getSessionByWindowId sessions w = Some s →
  ∃ s', getSessionByWindowId (tab_step sessions e) w = Some s'
        ∧ rootTabId s' = rootTabId s
        ∧ ∀ t, t ∈ trackedTabIds s → e ≠ TabRemoved t → t ∈ trackedTabIds s'.
Proof.
  intros Hs. destruct e as [t | t]; cbn [tab_step].
  - unfold onTabCreated. destruct sessions as [| p r]; [done |].
    destruct (truthy_id (tab.openerTabId t)) as [opener |]; [| by exists s].
    destruct (update_by_tab_lookup (p :: r) opener
                (λ s, set_trackedTabIds s ({[ tab.id t ]} ∪ trackedTabIds s))
                w s Hs) as [H | H]; rewrite H.
    + by exists s.
    + eexists. split; [done |]. split; [done |].
      intros t' Ht' _. cbn [trackedTabIds set_trackedTabIds]. set_solver.
  - unfold onTabRemoved.
    destruct (update_by_tab_lookup sessions t
                (λ s, set_trackedTabIds s (trackedTabIds s ∖ {[ t ]}))
                w s Hs) as [H | H]; rewrite H.
    + by exists s.
    + eexists. split; [done |]. split; [done |].
      intros t' Ht' Hne. cbn [trackedTabIds set_trackedTabIds].
      apply elem_of_difference. split; [done |].
      intros ->%elem_of_singleton. done.
Qed.

Lemma tab_run_lookup sessions es w s :
  getSessionByWindowId sessions w = Some s →
  ∃ s', getSessionByWindowId (tab_run sessions es) w = Some s'
        ∧ rootTabId s' = rootTabId s
        ∧ ∀ t, t ∈ trackedTabIds s → t ∉ removed_tabs es → t ∈ trackedTabIds s'.
Proof.
  revert sessions s. induction es as [| e es IH]; intros sessions s Hs.
  { exists s. by auto. }
  destruct (tab_step_lookup sessions e w s Hs) as (s1 & Hs1 & Hroot1 & Hkeep1).
  destruct (IH _ _ Hs1) as (s' & Hs' & Hroot & Hkeep).
  exists s'. split; [done |]. split; [congruence |].
  intros t Ht Hnot. apply Hkeep.
  - apply Hkeep1; [done |]. intros ->. apply Hnot.
    cbn [removed_tabs flat_map app]. left.
  - intros Hin. apply Hnot. unfold removed_tabs. cbn [flat_map].
    apply elem_of_app. by right.
Qed.

End TabTracker.

(** C5, as the script has it. The tab set of a session contains its root
    tab, and so is not empty, after every sequence of tab-create and
    tab-remove events in which no tab-remove event names the root tab. *)
Theorem root_tab_tracked_until_removed
    (sessions : registry) (es : list tab_event) (w : Z) (s : SessionState) :
  getSessionByWindowId sessions w = Some s →
  rootTabId s ∈ trackedTabIds s →
  rootTabId s ∉ removed_tabs es →
  ∃ s', getSessionByWindowId (tab_run sessions es) w = Some s'
        ∧ rootTabId s' = rootTabId s
        ∧ rootTabId s' ∈ trackedTabIds s'
        ∧ trackedTabIds s' ≠ ∅.
Proof.
  intros Hs Hroot Hnot.
  destruct (tab_run_lookup sessions es w s Hs) as (s' & Hs' & Hr & Hkeep).
  exists s'. split; [done |]. split; [done |].
  assert (rootTabId s' ∈ trackedTabIds s') as Hin.
  { rewrite Hr. by apply Hkeep. }
  split; [done |]. intros Hempty. rewrite Hempty in Hin.
  by apply not_elem_of_empty in Hin.
Qed.

(** C5 fails as stated. Capture is started on window 1 with root tab 7 and
    tab 7 is closed: the session is still registered and capturing, and its
    tab set is empty. *)
Lemma root_tab_removed_leaves_empty_scope :
  let s' := set_trackedTabIds (set_isCapturing (createSession 1 7) true) ∅ in
  getSessionByWindowId (tab_run (startCapture [] 1 7) [TabRemoved 7]) 1
  = Some s'
  ∧ isCapturing s' = Some true
  ∧ trackedTabIds s' = ∅
  ∧ rootTabId s' ∉ trackedTabIds s'.
Proof.
  cbn zeta. split; [by vm_compute |]. split; [done |]. split; [done |].
  cbn [trackedTabIds set_trackedTabIds]. apply not_elem_of_empty.
Qed.

(** ** Base64: decoding what the encoder writes *)

Section Base64RoundTrip.

Lemma list_ind3 {A} (P : list A → Prop) :
  P [] → (∀ a, P [a]) → (∀ a b, P [a; b]) →
  (∀ a b c r, P r → P (a :: b :: c :: r)) →
  ∀ l, P l.
Proof.
  intros H0 H1 H2 H3.
  assert (∀ l, P l ∧ (∀ a, P (a :: l)) ∧ (∀ a b, P (a :: b :: l))) as H.
  { induction l as [| c l (IH0 & IH1 & IH2)]; [by auto |].
    split; [apply IH1 |]. split; [intros a; apply IH2 |].
    intros a b. by apply H3. }
  intros l. apply H.
Qed.

Lemma div_pack q r d : r < d → (q * d + r) / d = q.
Proof. intros H. symmetry. apply (N.div_unique _ d q r); lia. Qed.

Lemma mod_pack q r d : r < d → (q * d + r) mod d = r.
Proof. intros H. symmetry. apply (N.mod_unique _ d q r); lia. Qed.

Lemma div_mod_join a d : d ≠ 0 → (a / d) * d + a mod d = a.
Proof. intros H. rewrite (N.div_mod a d) at 3 by assumption. lia. Qed.

Lemma div_below a d q : a < d * q → a / d < q.
Proof. apply N.Div0.div_lt_upper_bound. Qed.

Lemma mod_below a d : d ≠ 0 → a mod d < d.
Proof. apply N.mod_lt. Qed.

(** The three bytes of a group come back from its four sextets. *)
Lemma group_first a b :
  b < 256 → (a / 4) * 4 + ((a mod 4) * 16 + b / 16) / 16 = a.
Proof.
  intros Hb. rewrite div_pack by (apply div_below; lia).
  apply div_mod_join. lia.
Qed.

Lemma group_second a b c :
  b < 256 → c < 256 →
  (((a mod 4) * 16 + b / 16) mod 16) * 16 + ((b mod 16) * 4 + c / 64) / 4 = b.
Proof.
  intros Hb Hc. rewrite mod_pack by (apply div_below; lia).
  rewrite div_pack by (apply div_below; lia).
  apply div_mod_join. lia.
Qed.

Lemma group_third b c :
  c < 256 → (((b mod 16) * 4 + c / 64) mod 4) * 64 + c mod 64 = c.
Proof.
  intros Hc. rewrite mod_pack by (apply div_below; lia).
  apply div_mod_join. lia.
Qed.

Lemma pair_second a b :
  b < 256 →
  (((a mod 4) * 16 + b / 16) mod 16) * 16 + ((b mod 16) * 4) / 4 = b.
Proof.
  intros Hb. rewrite mod_pack by (apply div_below; lia).
  rewrite N.div_mul by lia. apply div_mod_join. lia.
Qed.

Lemma single_first a : (a / 4) * 4 + ((a mod 4) * 16) / 16 = a.
Proof. rewrite N.div_mul by lia. apply div_mod_join. lia. Qed.

Lemma bytes_of_sextets_of_bytes ns :
  Forall (λ n, n < 256) ns → bytes_of_sextets (sextets_of_bytes ns) = ns.
Proof.
  induction ns as [| a | a b | a b c r IH] using list_ind3; intros Hns.
  - done.
  - cbn [sextets_of_bytes bytes_of_sextets]. by rewrite single_first.
  - apply Forall_cons in Hns as [_ [Hb _]%Forall_cons].
    cbn [sextets_of_bytes bytes_of_sextets].
    by rewrite group_first, pair_second.
  - apply Forall_cons in Hns as [_ [Hb [Hc Hr]%Forall_cons]%Forall_cons].
    cbn [sextets_of_bytes bytes_of_sextets].
    by rewrite group_first, group_second, group_third, IH.
Qed.

Lemma sextets_of_bytes_bound ns :
  Forall (λ n, n < 256) ns → Forall (λ n, n < 64) (sextets_of_bytes ns).
Proof.
  induction ns as [| a | a b | a b c r IH] using list_ind3; intros Hns;
    cbn [sextets_of_bytes].
  - constructor.
  - apply Forall_cons in Hns as [Ha _].
    pose proof (mod_below a 4). pose proof (div_below a 4 64).
    repeat constructor; lia.
  - apply Forall_cons in Hns as [Ha [Hb _]%Forall_cons].
    pose proof (mod_below a 4). pose proof (div_below a 4 64).
    pose proof (mod_below b 16). pose proof (div_below b 16 16).
    repeat constructor; lia.
  - apply Forall_cons in Hns as [Ha [Hb [Hc Hr]%Forall_cons]%Forall_cons].
    pose proof (mod_below a 4). pose proof (div_below a 4 64).
    pose proof (mod_below b 16). pose proof (div_below b 16 16).
    pose proof (mod_below c 64). pose proof (div_below c 64 4).
    repeat (constructor; [lia |]). by apply IH.
Qed.

(** Each of the 64 characters of the alphabet has its own value, is not
    the padding character and is not white space. *)
Lemma b64_char_facts n :
  n < 64 →
  b64_value (b64_char n) = Some n
  ∧ Ascii.eqb (b64_char n) "=" = false
  ∧ is_ascii_whitespace (b64_char n) = false.
Proof.
  intros Hn.
  set (ok := λ n, match b64_value (b64_char n) with
                  | Some m => m =? n
                  | None => false
                  end
                  && negb (Ascii.eqb (b64_char n) "=")
                  && negb (is_ascii_whitespace (b64_char n))).
  assert (forallb ok (List.map N.of_nat (seq 0 64)) = true) as Hall
    by (by vm_compute).
  rewrite forallb_forall in Hall.
  assert (ok n = true) as Hok.
  { apply Hall. rewrite <- (N2Nat.id n). apply in_map, in_seq. lia. }
  unfold ok in Hok.
  apply andb_prop in Hok as [[H1 H2]%andb_prop H3].
  destruct (b64_value (b64_char n)) as [m |]; [| done].
  apply N.eqb_eq in H1 as ->.
  apply negb_true_iff in H2. apply negb_true_iff in H3. done.
Qed.

Lemma sextets_of_chars ss :
  Forall (λ n, n < 64) ss → sextets_of (List.map b64_char ss) = Some ss.
Proof.
  induction 1 as [| n ss Hn _ IH]; [done |].
  cbn [List.map sextets_of].
  destruct (b64_char_facts n Hn) as (-> & _ & _). by rewrite IH.
Qed.

Lemma padding_for_is_padding ns : is_padding (padding_for ns).
Proof.
  induction ns as [| a | a b | a b c r IH] using list_ind3;
    cbn [padding_for]; unfold is_padding; by auto.
Qed.

Lemma remove_whitespace_encoded ss pad :
  Forall (λ n, n < 64) ss → is_padding pad →
  remove_whitespace (List.map b64_char ss ++ pad) = List.map b64_char ss ++ pad.
Proof.
  intros Hss Hpad. unfold remove_whitespace.
  induction Hss as [| n ss Hn _ IH].
  - destruct Hpad as [-> | [-> | ->]]; done.
  - cbn [List.map app List.filter].
    destruct (b64_char_facts n Hn) as (_ & _ & ->). cbn [negb].
    by rewrite IH.
Qed.

Lemma drop_trailing_equals_encoded ss pad :
  Forall (λ n, n < 64) ss → is_padding pad →
  drop_trailing_equals (List.map b64_char ss ++ pad) = List.map b64_char ss.
Proof.
  intros Hss Hpad. induction Hss as [| n ss Hn _ IH].
  - destruct Hpad as [-> | [-> | ->]]; done.
  - cbn [List.map app]. cbn [List.map app] in IH.
    destruct (b64_char_facts n Hn) as (_ & Hne & _).
    cbn [drop_trailing_equals].
    destruct (List.map b64_char ss ++ pad) as [| d [| d' r]] eqn:Hrest.
    + rewrite Hne. apply app_eq_nil in Hrest as [-> _]. done.
    + rewrite Hne. cbn [andb]. by rewrite IH.
    + by rewrite IH.
Qed.

Lemma add_four_mod (x : nat) : ((4 + x) mod 4 = x mod 4)%nat.
Proof.
  replace (4 + x)%nat with (x + 1 * 4)%nat by lia. apply Nat.Div0.mod_add.
Qed.

Lemma encoded_lengths ns :
  (length (sextets_of_bytes ns) mod 4 ≠ 1)%nat
  ∧ (length (encode_octets ns) mod 4 = 0)%nat.
Proof.
  unfold encode_octets.
  induction ns as [| a | a b | a b c r [IH1 IH2]] using list_ind3;
    try (by vm_compute).
  cbn [sextets_of_bytes padding_for List.map app length].
  rewrite length_app, length_map in IH2.
  rewrite length_app, length_map.
  change (S (S (S (S ?x)))) with (4 + x)%nat.
  replace (S (S (S (S (length (sextets_of_bytes r)
                        + length (padding_for r))))))%nat
    with (4 + (length (sextets_of_bytes r) + length (padding_for r)))%nat
    by lia.
  replace (S (S (S (S (length (sextets_of_bytes r))))))%nat
    with (4 + length (sextets_of_bytes r))%nat by lia.
  by rewrite !add_four_mod.
Qed.

Lemma forgiving_decode_encoded ns :
  Forall (λ n, n < 256) ns → forgiving_decode (encode_octets ns) = Some ns.
Proof.
  intros Hns. pose proof (sextets_of_bytes_bound ns Hns) as Hss.
  pose proof (padding_for_is_padding ns) as Hpad.
  destruct (encoded_lengths ns) as [Hlen1 Hlen0].
  unfold forgiving_decode, strip_padding, encode_octets in *.
  rewrite remove_whitespace_encoded by done.
  rewrite Hlen0. cbn [Nat.eqb].
  rewrite drop_trailing_equals_encoded by done.
  rewrite length_map.
  destruct (Nat.eqb_spec (length (sextets_of_bytes ns) mod 4) 1); [done |].
  rewrite sextets_of_chars by done. cbn [fmap option_fmap option_map].
  by rewrite bytes_of_sextets_of_bytes.
Qed.

Lemma byte_of_code b : byte_of_ascii (ascii_of_N (Byte.to_N b)) = b.
Proof. by destruct b. Qed.

Lemma byte_code_bound b : Byte.to_N b < 256.
Proof. pose proof (Byte.to_N_bounded b). lia. Qed.

Lemma b64ToBytes_bytesToBase64 bs : b64ToBytes (bytesToBase64 bs) = Some bs.
Proof.
  unfold b64ToBytes, atob, bytesToBase64.
  rewrite list_ascii_of_string_of_list_ascii.
  rewrite forgiving_decode_encoded.
  - cbn [fmap option_fmap option_map].
    rewrite list_ascii_of_string_of_list_ascii. f_equal.
    rewrite !List.map_map. rewrite <- (List.map_id bs) at 2.
    apply List.map_ext. intros b. apply byte_of_code.
  - apply Forall_forall. intros n [b [<- _]]%list_elem_of_In%in_map_iff.
    apply byte_code_bound.
Qed.

End Base64RoundTrip.

(** C7, as the script has it. For every byte sequence, its RFC 4648
    encoding (padded, without white space, unused bits zero) is decoded by
    [b64ToBytes] to that sequence, so re-encoding the decoded bytes gives
    the input back; [decodeSAML] without inflation then returns the text of
    those bytes, unless it is empty. *)
Theorem base64_round_trip_canonical (b : string) (bs : list byte) :
  b = bytesToBase64 bs →
  b64ToBytes b = Some bs
  ∧ bytesToBase64 <$> b64ToBytes b = Some b
  ∧ ∀ host, decodeSAML host b false
            = text_or_null (Some (TextDecoder_decode host bs)).
Proof.
  intros ->. pose proof (b64ToBytes_bytesToBase64 bs) as Hdec.
  split; [done |]. split; [by rewrite Hdec |].
  intros host. unfold decodeSAML, bytesToUtf8. by rewrite Hdec.
Qed.

(** C7 fails as stated. [atob] accepts input without padding: ["YQ"]
    decodes to the byte 0x61, [decodeSAML] returns ["a"], and the bytes
    re-encode to ["YQ=="]. *)
Lemma base64_unpadded_not_restored :
  b64ToBytes "YQ" = Some [x61]
  ∧ decodeSAML bare_host "YQ" false = Some "a"
  ∧ bytesToBase64 <$> b64ToBytes "YQ" = Some "YQ=="
  ∧ bytesToBase64 <$> b64ToBytes "YQ" ≠ Some "YQ".
Proof. by vm_compute. Qed.

(** * The properties at concrete inputs *)

(** C1 at two captures of [<AuthnRequest/>] that differ in transport, id
    and request. *)
Lemma dedup_key_is_kind_and_xml_witness :
  reachable bare_host (createSession 1 7)
  ∧ xml dup_first = xml dup_second
  ∧ kind dup_first = kind dup_second
  ∧ addMessage (fst (addMessage (createSession 1 7) dup_first)) dup_second
    = (fst (addMessage (createSession 1 7) dup_first), false).
Proof.
  assert (reachable bare_host (createSession 1 7)) as Hreach.
  { exists 1%Z, 7%Z, []. reflexivity. }
  split; [exact Hreach |].
  split; [reflexivity |]. split; [reflexivity |].
  destruct (dedup_key_is_kind_and_xml bare_host (createSession 1 7)
              dup_first dup_second Hreach eq_refl) as [Hsame _].
  destruct (Hsame eq_refl) as [Hdropped _]. exact Hdropped.
Defined.

(** C6 at a completed request the session never stored a message for. *)
Lemma attachResponseData_unknown_request_witness :
  (requestIdToMessageId one_message_session !! "req-404") = None
  ∧ attachResponseData one_message_session (sample_details "req-404")
    = one_message_session.
Proof.
  assert ((requestIdToMessageId one_message_session !! "req-404") = None)
    as Hmiss by (vm_compute; reflexivity).
  split; [exact Hmiss |].
  destruct (attachResponseData_unknown_request one_message_session
              (sample_details "req-404") (or_introl Hmiss)) as [Hsame _].
  exact Hsame.
Defined.

(** C9 at the message stored for a [SAMLResponse] response header. *)
Lemma header_and_import_never_correlated_witness :
  reachable bare_host header_session
  ∧ header_message ∈ messages header_session
  ∧ transport header_message ∈ plain_transports
  ∧ requestId header_message = None
  ∧ ∀ d, header_message ∈ messages (attachResponseData header_session d).
Proof.
  assert (reachable bare_host header_session) as Hreach.
  { exists 1%Z, 7%Z,
      [HeaderValue sample_now (sample_details "req-2") "SAMLResponse"
         "PFJlc3BvbnNlLz4=" false].
    reflexivity. }
  assert (messages header_session = [header_message]) as Hms
    by (vm_compute; reflexivity).
  assert (header_message ∈ messages header_session) as Hin
    by (rewrite Hms; left).
  assert (transport header_message ∈ plain_transports) as Hplain
    by (right; left).
  destruct (header_and_import_never_correlated bare_host header_session
              header_message Hreach Hin) as [Hfacts _].
  destruct (Hfacts Hplain) as (Hrq & _ & _ & _ & Hkept).
  repeat split; assumption.
Defined.

(** C8 at the base64 of [<AuthnRequest/>] on a host without
    [DecompressionStream]. *)
Lemma decodeSAML_failure_witness :
  b64ToBytes authn_b64 = Some (bytes_of_text "<AuthnRequest/>")
  ∧ DecompressionStream bare_host = None
  ∧ decodeSAML bare_host authn_b64 true = decodeSAML bare_host authn_b64 false
  ∧ decodeSAML bare_host authn_b64 true = Some "<AuthnRequest/>".
Proof.
  assert (b64ToBytes authn_b64 = Some (bytes_of_text "<AuthnRequest/>"))
    as Hraw by (vm_compute; reflexivity).
  split; [exact Hraw |]. split; [reflexivity |].
  destruct (decodeSAML_failure bare_host authn_b64 true) as [_ Hfallback].
  destruct (Hfallback _ Hraw (or_introl eq_refl)) as (_ & Hsame & _).
  split; [exact Hsame |]. vm_compute. reflexivity.
Defined.

(** C10 at a GET carrying a [SAMLRequest] that is not deflated, on a host
    without [DecompressionStream]. *)
Lemma samlrequest_encoding_deflate_raw_witness :
  extract get_host (sample_details "req-1") = Some get_found
  ∧ entry_of_found get_host sample_now (sample_details "req-1") get_found 1
    = Some get_entry
  ∧ DecompressionStream get_host = None
  ∧ xml get_entry = trim (TextDecoder_decode get_host
                            (bytes_of_text "<AuthnRequest/>"))
  ∧ encoding get_entry = Some "deflate-raw"
  ∧ get_entry ∈ messages get_session.
Proof.
  assert (extract get_host (sample_details "req-1") = Some get_found)
    as Hfound by (vm_compute; reflexivity).
  assert (entry_of_found get_host sample_now (sample_details "req-1")
            get_found (nextMessageId (createSession 1 7)) = Some get_entry)
    as Hentry by (vm_compute; reflexivity).
  destruct (samlrequest_encoding_deflate_raw get_host sample_now
              (createSession 1 7) (sample_details "req-1") get_found get_entry
              Hfound eq_refl (or_introl eq_refl) Hentry)
    as (Henc & _ & Hstored & Hplain).
  split; [exact Hfound |]. split; [exact Hentry |]. split; [reflexivity |].
  split.
  - apply (Hplain (bytes_of_text "<AuthnRequest/>")).
    + vm_compute. reflexivity.
    + left. reflexivity.
  - split; [exact Henc |]. apply Hstored. vm_compute. reflexivity.
Defined.

(** C4, as the script has it, at the body whose first field is a token. *)
Lemma json_candidate_first_base64_field_witness :
  JSON_parse (request_host [] (Some token_first_body)) token_first_text
    = Some token_first_body
  ∧ jsonCandidate (request_host [] (Some token_first_body)) token_first_text
    = first_base64_field (string_fields token_first_body "").
Proof.
  split; [reflexivity |].
  destruct (json_candidate_first_base64_field
              (request_host [] (Some token_first_body)) token_first_text
              token_first_body eq_refl) as [Hfirst _].
  exact Hfirst.
Defined.

(** C5, as the script has it, at a session whose root tab opens a tab that
    is then closed. *)
Lemma root_tab_tracked_until_removed_witness :
  getSessionByWindowId (startCapture [] 1 7) 1
    = Some (set_isCapturing (createSession 1 7) true)
  ∧ ∃ s', getSessionByWindowId (tab_run (startCapture [] 1 7) popup_events) 1
          = Some s'
        ∧ rootTabId s' = 7%Z
        ∧ 7%Z ∈ trackedTabIds s'
        ∧ trackedTabIds s' ≠ ∅.
Proof.
  split; [reflexivity |].
  destruct (root_tab_tracked_until_removed (startCapture [] 1 7) popup_events 1
              (set_isCapturing (createSession 1 7) true) eq_refl)
    as (s' & Hs' & Hroot & Hin & Hne).
  - change (7%Z ∈ ({[ 7%Z ]} : gset Z)). apply elem_of_singleton_2. reflexivity.
  - change (7%Z ∉ [8%Z]). intros Hin. apply list_elem_of_singleton in Hin.
    discriminate Hin.
  - exists s'. rewrite Hroot in Hin.
    split; [exact Hs' |]. split; [exact Hroot |]. split; [exact Hin | exact Hne].
Defined.

(** C7, as the script has it, at the encoding of the byte 0x61. *)
Lemma base64_round_trip_canonical_witness :
  "YQ==" = bytesToBase64 [x61]
  ∧ b64ToBytes "YQ==" = Some [x61]
  ∧ bytesToBase64 <$> b64ToBytes "YQ==" = Some "YQ==".
Proof.
  split; [reflexivity |].
  destruct (base64_round_trip_canonical "YQ==" [x61] eq_refl)
    as (Hdec & Hback & _).
  split; [exact Hdec | exact Hback].
Defined.

(** * Further properties of the background script *)

(** ** Trimmed text *)

Section Trim.

Lemma trimStart_head s :
  trimStart s = "" ∨ ∃ c r, trimStart s = String c r ∧ is_trim_space c = false.
Proof.
  induction s as [| c s IH]; [by left |]. cbn [trimStart].
  destruct (is_trim_space c) eqn:Hc; [done |]. right. by exists c, s.
Qed.

Lemma trimStart_fixed c r :
  is_trim_space c = false → trimStart (String c r) = String c r.
Proof. intros Hc. cbn [trimStart]. by rewrite Hc. Qed.

Lemma trimEnd_idempotent s : trimEnd (trimEnd s) = trimEnd s.
Proof.
  induction s as [| c s IH]; [done |]. cbn [trimEnd].
  destruct (trimEnd s) as [| c' r'] eqn:Hs.
  - destruct (is_trim_space c) eqn:Hc; [done |]. cbn [trimEnd]. by rewrite Hc.
  - cbn [trimEnd]. cbn [trimEnd] in IH. by rewrite IH.
Qed.

Lemma trimEnd_head c r :
  is_trim_space c = false → ∃ r', trimEnd (String c r) = String c r'.
Proof.
  intros Hc. cbn [trimEnd]. destruct (trimEnd r); rewrite ?Hc; by eexists.
Qed.

Lemma trim_idempotent s : trim (trim s) = trim s.
Proof.
  unfold trim. destruct (trimStart_head s) as [-> | (c & r & -> & Hc)]; [done |].
  destruct (trimEnd_head c r Hc) as [r' Hr]. rewrite Hr.
  rewrite trimStart_fixed by done. rewrite <- Hr. apply trimEnd_idempotent.
Qed.

(** [trimEnd] leaves a string alone when what remains of its end is not
    empty. *)
Lemma trimEnd_append a b :
  trimEnd b ≠ "" → trimEnd (a +:+ b) = a +:+ trimEnd b.
Proof.
  intros Hb. induction a as [| c a IH]; [done |].
  change (String c a +:+ b) with (String c (a +:+ b)).
  change (String c a +:+ trimEnd b) with (String c (a +:+ trimEnd b)).
  cbn [trimEnd]. rewrite IH.
  destruct (a +:+ trimEnd b) eqn:Hab; [| done].
  destruct a; [| done]. cbn in Hab. done.
Qed.

Lemma startsWith_empty s : startsWith s "" = true.
Proof. by destruct s. Qed.

Lemma startsWith_slice0 n t : startsWith (slice0 (S n) t) "<" = startsWith t "<".
Proof.
  destruct t as [| c r]; [done |]. cbn [slice0 startsWith].
  rewrite ?startsWith_empty. by destruct (Ascii.eqb "<"%char c).
Qed.

Lemma startsWith_xml_decl t : startsWith t "<?xml" = true → startsWith t "<" = true.
Proof.
  destruct t as [| c r]; [done |]. cbn [slice0 startsWith].
  rewrite ?startsWith_empty. by destruct (Ascii.eqb "<"%char c).
Qed.

(** [looksLikeXML] tests the first character of the trimmed text. *)
Lemma looksLikeXML_trim x : looksLikeXML x = startsWith (trim x) "<".
Proof.
  unfold looksLikeXML. destruct x as [| c r]; [done |]. cbn [truthy negb].
  change 200%nat with (S 199). rewrite startsWith_slice0.
  destruct (startsWith (trim (String c r)) "<") eqn:H1; [done |].
  destruct (startsWith (slice0 (S 199) (trim (String c r))) "<?xml") eqn:H2;
    [| done].
  apply startsWith_xml_decl in H2. by rewrite startsWith_slice0, H1 in H2.
Qed.

Lemma trimmed_xml_ok x :
  looksLikeXML x = true ∨ looksLikeXML (trim x) = true →
  startsWith (trim x) "<" = true ∧ trim (trim x) = trim x.
Proof.
  rewrite !looksLikeXML_trim, trim_idempotent. intros [H | H]; by split;
    rewrite ?trim_idempotent.
Qed.

End Trim.

(** ** Filtered headers *)

Section Headers.

Lemma obj_set_key (o : js_object) k v x :
  x ∈ (obj_set o k v).*1 → x = k ∨ x ∈ o.*1.
Proof.
  induction o as [| [k' v'] r IH]; cbn [obj_set fmap list_fmap fst].
  - intros ->%list_elem_of_singleton. by left.
  - destruct (String.eqb_spec k' k) as [-> | Hne]; cbn [fmap list_fmap fst].
    + intros [-> | Hin]%elem_of_cons; [by left | right; by right].
    + intros [-> | Hin]%elem_of_cons; [right; by left |].
      destruct (IH Hin); [by left | right; by right].
Qed.

Lemma obj_set_NoDup (o : js_object) k v : NoDup o.*1 → NoDup (obj_set o k v).*1.
Proof.
  induction o as [| [k' v'] r IH]; cbn [obj_set fmap list_fmap fst]; intros Hnd.
  - apply NoDup_singleton.
  - apply NoDup_cons in Hnd as [Hk' Hnd].
    destruct (String.eqb_spec k' k) as [-> | Hne]; cbn [fmap list_fmap fst].
    + by apply NoDup_cons.
    + apply NoDup_cons. split; [| by apply IH].
      intros [-> | Hin]%obj_set_key; done.
Qed.


Lemma own_property_absent (o : js_object) k :
  k ∉ o.*1 → own_property o k = None.
Proof.
  induction o as [| [k' v'] r IH]; [done |].
  cbn [own_property fmap list_fmap fst].
  intros [Hne Hk]%not_elem_of_cons.
  destruct (String.eqb_spec k' k); [congruence | by apply IH].
Qed.

Lemma obj_get_absent (o : js_object) k :
  k ∉ o.*1 →
  obj_get o k = if bool_decide (k ∈ Object_prototype) then Inherited k
                else Undefined.
Proof. intros Hk. unfold obj_get. by rewrite own_property_absent. Qed.





Lemma filter_headers_ok allow hs :
  keys_allowed allow (filter_headers allow hs)
  ∧ NoDup (filter_headers allow hs).*1.
Proof.
  unfold filter_headers. destruct hs as [hs |].
  2: { split; [intros k Hk; by apply elem_of_nil in Hk | constructor]. }
  assert (keys_allowed allow [] ∧ NoDup ([] : js_object).*1) as Hinit.
  { split; [intros k Hk; by apply elem_of_nil in Hk | constructor]. }
  revert Hinit. generalize ([] : js_object).
  induction hs as [| h hs IH]; intros o Ho; [done |].
  cbn [fold_left]. apply IH. destruct Ho as [Hall Hnd].
  destruct (js_includes allow (toLowerCase (or_else (header.name h) ""))) eqn:Hh;
    [| done].
  split; [| by apply obj_set_NoDup].
  intros k [-> | Hin]%obj_set_key; [| by apply Hall].
  destruct (header.name h); [done |]. exact Hh.
Qed.

End Headers.


(** ** The shape of the stored messages *)

Section MessageShape.
Context (host : Host).
Implicit Types (s : SessionState) (e m : Message).

Lemma makeArtifactXML_trim a :
  startsWith (makeArtifactXML a) "<" = true
  ∧ trim (makeArtifactXML a) = makeArtifactXML a.
Proof.
  unfold makeArtifactXML.
  set (safe := (fix esc (s : string) : string := _) a).
  set (note := " (Note: Full assertion not available via Artifact binding) -->").
  assert (trimEnd note = note) as Hnote by (by vm_compute).
  assert (trimEnd (safe +:+ note) = safe +:+ note) as Htail.
  { rewrite trimEnd_append; rewrite Hnote; done. }
  assert (safe +:+ note ≠ "") as Hne by (by destruct safe).
  split.
  - change ("<!-- SAMLArtifact: " +:+ safe +:+ note)
      with (String "<" ("!-- SAMLArtifact: " +:+ safe +:+ note)).
    cbn [startsWith]. by rewrite startsWith_empty.
  - unfold trim.
    change ("<!-- SAMLArtifact: " +:+ safe +:+ note)
      with (String "<" ("!-- SAMLArtifact: " +:+ safe +:+ note)) at 1.
    rewrite trimStart_fixed by done.
    change (String "<" ("!-- SAMLArtifact: " +:+ safe +:+ note))
      with ("<!-- SAMLArtifact: " +:+ safe +:+ note).
    rewrite trimEnd_append; rewrite Htail; done.
Qed.

Lemma entry_of_found_fields now d f next e :
  entry_of_found host now d f next = Some e →
  (xml e = makeArtifactXML (found.value f)
   ∨ ∃ x, xml e = trim x ∧ (looksLikeXML x = true ∨ looksLikeXML (trim x) = true))
  ∧ requestHeaders e
    = Some (filter_headers request_allow_list (details.requestHeaders d))
  ∧ requestId e = Some (details.requestId d)
  ∧ statusCode e = None ∧ responseHeaders e = None.
Proof.
  unfold entry_of_found.
  destruct (String.eqb (found.name f) "SAMLArtifact").
  { intros [= <-]. cbn. by auto. }
  destruct (String.eqb (found.transport f) "JSON").
  { destruct (decodeSAML host (found.value f) false) as [x |]; [| done].
    destruct (negb (looksLikeXML (trim x))) eqn:Hx; [done |].
    apply negb_false_iff in Hx. intros [= <-]. cbn. by eauto 10. }
  destruct (String.eqb (found.transport f) "SOAP" && looksLikeXML (found.value f))
    eqn:Hsoap.
  { apply andb_prop in Hsoap as [_ Hx]. intros [= <-]. cbn. by eauto 10. }
  destruct (decodeSAML host (found.value f) _) as [x |]; [| done].
  destruct (String.length (trim x) =? 0)%nat; [done |].
  destruct (negb (looksLikeXML (trim x))) eqn:Hx; [done |].
  apply negb_false_iff in Hx. intros [= <-]. cbn. by eauto 10.
Qed.

Lemma entry_of_found_message_ok now d f next e :
  extract host d = Some f →
  entry_of_found host now d f next = Some e →
  message_ok e.
Proof.
  intros Hf He.
  destruct (entry_of_found_ok host now d f next e Hf He) as (_ & _ & Hkind).
  destruct (entry_of_found_fields now d f next e He)
    as (Hxml & Hrq & _ & _ & Hrs).
  assert (startsWith (xml e) "<" = true ∧ trim (xml e) = xml e) as [H1 H2].
  { destruct Hxml as [-> | (x & -> & Hx)];
      [apply makeArtifactXML_trim | by apply trimmed_xml_ok]. }
  split; try done.
  - intros o Ho. rewrite Hrq in Ho. simplify_eq. apply filter_headers_ok.
  - intros o Ho. congruence.
Qed.

Lemma header_entry_message_ok now d n v isRequest next e :
  header_entry host now d n v isRequest next = Some e → message_ok e.
Proof.
  intros He.
  destruct (header_entry_ok host _ _ _ _ _ _ _ He) as (_ & _ & _ & Hkind).
  unfold header_entry in He.
  destruct (decodeSAML host v _) as [x |]; [| done].
  destruct (negb (looksLikeXML x)) eqn:Hx; [done |].
  apply negb_false_iff in Hx. simplify_eq.
  destruct (trimmed_xml_ok x (or_introl Hx)) as [H1 H2].
  split; cbn; done.
Qed.

Lemma import_entry_message_ok now it x next :
  import_text_of it = Text x → message_ok (import_entry now x next).
Proof.
  intros Hit.
  assert (looksLikeXML x = true) as Hx.
  { destruct it as [| t | [t |] |]; cbn in Hit; try done;
      destruct (negb (truthy t)); try done;
      destruct (looksLikeXML t) eqn:Ht; by simplify_eq. }
  destruct (import_entry_ok now x next) as (_ & _ & _ & Hkind).
  destruct (trimmed_xml_ok x (or_introl Hx)) as [H1 H2].
  split; cbn; done.
Qed.

Lemma attach_message_ok m status hs :
  message_ok m →
  message_ok (attach m status (filter_headers response_allow_list hs)).
Proof.
  intros [H1 H2 H3 H4 H5]. split; cbn; try done.
  intros o [= <-]. apply filter_headers_ok.
Qed.

Lemma addMessage_Forall (P : Message → Prop) s e :
  Forall P (messages s) → P e → Forall P (messages (fst (addMessage s e))).
Proof.
  intros Hall He. apply Forall_forall.
  intros m [Hin | ->]%addMessage_elem; [| done].
  by eapply Forall_forall in Hall.
Qed.

Lemma attach_first_Forall (P : Message → Prop) ms i status hs ms' :
  (∀ m, P m → P (attach m status hs)) →
  attach_first ms i status hs = Some ms' → Forall P ms → Forall P ms'.
Proof.
  intros Hat H Hall. apply Forall_forall. intros m' Hin.
  destruct (attach_first_elem _ _ _ _ _ _ H Hin) as [Hm | (m0 & Hm0 & _ & ->)].
  - by eapply Forall_forall in Hall.
  - apply Hat. by eapply Forall_forall in Hall.
Qed.

Lemma importMessages_Forall (P : Message → Prop) now s items n :
  (∀ it x next, import_text_of it = Text x → P (import_entry now x next)) →
  Forall P (messages s) →
  Forall P (messages (fst (importMessages now s items n))).
Proof.
  intros HP. revert s n.
  induction items as [| it items IH]; intros s n Hall; [done |].
  cbn [importMessages]. destruct (import_text_of it) as [| x |] eqn:Hit;
    [by apply IH | | done].
  destruct (addMessage (bump s) _) as [s' stored] eqn:Hadd.
  apply IH. change s' with (fst (s', stored)). rewrite <- Hadd.
  apply addMessage_Forall; [done | by eapply HP].
Qed.

Lemma step_message_ok s ev :
  Forall message_ok (messages s) → Forall message_ok (messages (step host s ev)).
Proof.
  intros Hall. destruct ev; cbn [step]; try done.
  - unfold handlePossibleSAML.
    destruct (extract host d) as [f |] eqn:Hf; [| done].
    destruct (entry_of_found _ _ _ _ _) as [entry |] eqn:He; [| done].
    apply addMessage_Forall; [done | by eapply entry_of_found_message_ok].
  - unfold handleHeaderValue.
    destruct (header_entry _ _ _ _ _ _ _) as [entry |] eqn:He; [| done].
    apply addMessage_Forall; [done | by eapply header_entry_message_ok].
  - unfold attachResponseData.
    destruct (requestIdToMessageId s !! details.requestId d) as [i |]; [| done].
    destruct (i =? 0)%nat; [done |].
    destruct (attach_first _ _ _ _) as [ms' |] eqn:Hat; [| done].
    cbn [messages set_store].
    eapply attach_first_Forall; [| done | done].
    intros m Hm. by apply attach_message_ok.
  - apply importMessages_Forall; [| done].
    intros it x next Hit. by eapply import_entry_message_ok.
Qed.

Lemma run_message_ok s es :
  Forall message_ok (messages s) → Forall message_ok (messages (run host s es)).
Proof.
  revert s. induction es as [| ev es IH]; intros s Hall; [done |].
  cbn [run fold_left]. apply IH. by apply step_message_ok.
Qed.

Lemma reachable_message_ok s m :
  reachable host s → m ∈ messages s → message_ok m.
Proof.
  intros (w & r & es & ->) Hin.
  eapply Forall_forall; [| done]. apply run_message_ok. constructor.
Qed.

End MessageShape.

(** ** Induction on the life of a session *)

Section StepInduction.
Context (host : Host).
Implicit Types (s : SessionState) (e m : Message).

Lemma built_facts next e :
  built host next e → id e = next ∧ entry_ok e ∧ message_ok e.
Proof.
  intros [(now & d & f & Hf & He) | [(now & d & n & v & isRequest & He)
                                    | (now & it & x & Hit & ->)]].
  - destruct (entry_of_found_ok host _ _ _ _ _ Hf He) as (Hid & Ht & _).
    split; [done |]. split; [by right |].
    by eapply entry_of_found_message_ok.
  - destruct (header_entry_ok host _ _ _ _ _ _ _ He) as (Hid & Ht & Hno & _).
    split; [done |]. split; [by left |].
    by eapply header_entry_message_ok.
  - destruct (import_entry_ok now x next) as (Hid & Ht & Hno & _).
    split; [done |]. split; [by left |].
    by eapply import_entry_message_ok.
Qed.

Variable Inv : SessionState → Prop.
Hypothesis Inv_append : ∀ s e,
  Inv s → built host (nextMessageId s) e → Inv (fst (addMessage (bump s) e)).
Hypothesis Inv_attach : ∀ s d, Inv s → Inv (attachResponseData s d).
Hypothesis Inv_clear : ∀ s, Inv s → Inv (clearMessages s).
Hypothesis Inv_tabs : ∀ s t, Inv s → Inv (set_trackedTabIds s t).
Hypothesis Inv_capturing : ∀ s b, Inv s → Inv (set_isCapturing s b).

Lemma importMessages_preserves now s items n :
  Inv s → Inv (fst (importMessages now s items n)).
Proof.
  revert s n. induction items as [| it items IH]; intros s n Hs; [done |].
  cbn [importMessages]. destruct (import_text_of it) as [| x |] eqn:Hit;
    [by apply IH | | done].
  destruct (addMessage (bump s) _) as [s' stored] eqn:Hadd.
  apply IH. change s' with (fst (s', stored)). rewrite <- Hadd.
  apply Inv_append; [done |]. right; right. by exists now, it, x.
Qed.

Lemma step_preserves s ev : Inv s → Inv (step host s ev).
Proof.
  intros Hs. destruct ev; cbn [step]; auto.
  - unfold handlePossibleSAML.
    destruct (extract host d) as [f |] eqn:Hf; [| done].
    destruct (entry_of_found _ _ _ _ _) as [entry |] eqn:He; [| done].
    apply Inv_append; [done |]. left. by exists now, d, f.
  - unfold handleHeaderValue.
    destruct (header_entry _ _ _ _ _ _ _) as [entry |] eqn:He; [| done].
    apply Inv_append; [done |]. right; left.
    by exists now, d, headerName, b64Value, isRequest.
  - by apply importMessages_preserves.
Qed.

Lemma run_preserves s es : Inv s → Inv (run host s es).
Proof.
  revert s. induction es as [| ev es IH]; intros s Hs; [done |].
  cbn [run fold_left]. apply IH. by apply step_preserves.
Qed.

Lemma reachable_preserves s :
  (∀ w r, Inv (createSession w r)) → reachable host s → Inv s.
Proof. intros Hinit (w & r & es & ->). by apply run_preserves. Qed.

End StepInduction.

(** ** Message ids *)

Section Ids.
Context (host : Host).
Implicit Types (s : SessionState) (e m : Message).

Lemma addMessage_shape s e :
  messages (fst (addMessage s e)) = messages s
  ∨ messages (fst (addMessage s e)) = messages s ++ [e]
  ∨ ∃ removed, removed :: messages (fst (addMessage s e)) = messages s ++ [e].
Proof.
  unfold addMessage. destruct (decide _); [by left |].
  destruct (Nat.ltb_spec MAX_MESSAGES (length (messages s ++ [e]))).
  - destruct (messages s ++ [e]) as [| removed rest] eqn:Hms;
      cbn [fst messages set_store].
    + by destruct (messages s).
    + right; right. by exists removed.
  - right; left. done.
Qed.

Lemma attachResponseData_next s d :
  nextMessageId (attachResponseData s d) = nextMessageId s.
Proof.
  unfold attachResponseData.
  destruct (requestIdToMessageId s !! details.requestId d) as [i |]; [| done].
  destruct (i =? 0)%nat; [done |].
  by destruct (attach_first _ _ _ _).
Qed.

Lemma ids_ok_append s e :
  ids_ok s → id e = nextMessageId s → ids_ok (fst (addMessage (bump s) e)).
Proof.
  intros [Hsorted Hbound] Hid. unfold ids_ok, ids_increasing in *.
  rewrite addMessage_next. cbn [nextMessageId bump set_store].
  assert (StronglySorted (λ a b, (id a < id b)%nat) (messages s ++ [e])
          ∧ Forall (λ m, (id m < S (nextMessageId s))%nat) (messages s ++ [e]))
    as [Hs' Hb'].
  { split.
    - apply StronglySorted_app_2; [| done | repeat constructor].
      intros x1 x2 Hx1 ->%list_elem_of_singleton.
      rewrite Hid. by eapply Forall_forall in Hbound.
    - apply Forall_app. split.
      + eapply Forall_impl; [exact Hbound |]. intros m Hm. cbn in Hm. lia.
      + constructor; [cbn; lia | constructor]. }
  destruct (addMessage_shape (bump s) e) as [-> | [-> | [removed Hrem]]];
    cbn [messages bump set_store] in *.
  - split; [done |].
    eapply Forall_impl; [exact Hbound |]. intros m Hm. cbn in Hm. lia.
  - done.
  - rewrite <- Hrem in Hs', Hb'.
    apply StronglySorted_cons in Hs' as [_ Hs']. apply Forall_cons in Hb' as [_ Hb'].
    done.
Qed.

Lemma attach_first_sorted ms i status hs ms' :
  attach_first ms i status hs = Some ms' →
  ids_increasing ms → ids_increasing ms'.
Proof.
  unfold ids_increasing. revert ms'.
  induction ms as [| m ms IH]; intros ms' H Hs; [done |].
  cbn [attach_first] in H. apply StronglySorted_cons in Hs as [Hhd Hs].
  destruct (id m =? i)%nat.
  - simplify_eq. by apply StronglySorted_cons.
  - destruct (attach_first ms i status hs) as [r |] eqn:Hr; [| done].
    cbn in H. simplify_eq. apply StronglySorted_cons. split; [| by apply IH].
    apply Forall_forall. intros x Hx.
    rewrite Forall_forall in Hhd.
    destruct (attach_first_elem _ _ _ _ _ _ Hr Hx) as [Hin | (m0 & Hin & _ & ->)].
    + by apply Hhd.
    + by apply (Hhd m0).
Qed.

Lemma ids_ok_attach s d : ids_ok s → ids_ok (attachResponseData s d).
Proof.
  intros [Hsorted Hbound]. unfold ids_ok. rewrite attachResponseData_next.
  unfold attachResponseData.
  destruct (requestIdToMessageId s !! details.requestId d) as [i |]; [| done].
  destruct (i =? 0)%nat; [done |].
  destruct (attach_first _ _ _ _) as [ms' |] eqn:Hat; [| done].
  cbn [messages set_store]. split; [by eapply attach_first_sorted |].
  eapply (attach_first_Forall (λ m, (id m < nextMessageId s)%nat)); done.
Qed.

Lemma reachable_ids_ok s : reachable host s → ids_ok s.
Proof.
  apply (reachable_preserves host ids_ok).
  - intros s' e Hs' [Hid _]%built_facts. by apply ids_ok_append.
  - apply ids_ok_attach.
  - intros s' _. split; constructor.
  - done.
  - done.
  - intros w r. split; constructor.
Qed.

Lemma ids_increasing_unique ms m m' :
  ids_increasing ms → m ∈ ms → m' ∈ ms → id m = id m' → m = m'.
Proof.
  unfold ids_increasing. induction 1 as [| x l Hs IH Hhd]; intros Hm Hm' Hid.
  { by apply elem_of_nil in Hm. }
  apply elem_of_cons in Hm as [-> | Hm]; apply elem_of_cons in Hm' as [-> | Hm'].
  - done.
  - eapply Forall_forall in Hhd; [| done]. lia.
  - eapply Forall_forall in Hhd; [| done]. lia.
  - by apply IH.
Qed.

Lemma ids_increasing_lookup ms i j mi mj :
  ids_increasing ms → ms !! i = Some mi → ms !! j = Some mj →
  (i < j)%nat → (id mi < id mj)%nat.
Proof.
  unfold ids_increasing. intros Hs. revert i j.
  induction Hs as [| x l Hs IH Hhd]; intros i j Hi Hj Hlt; [done |].
  destruct j as [| j]; [lia |]. cbn in Hj.
  destruct i as [| i]; cbn in Hi.
  - simplify_eq. eapply Forall_forall in Hhd; [done |].
    by eapply list_elem_of_lookup_2.
  - eapply IH; [done | done | lia].
Qed.

Lemma reachable_ids_positive s :
  reachable host s →
  (1 ≤ nextMessageId s)%nat ∧ Forall (λ m, (1 ≤ id m)%nat) (messages s).
Proof.
  apply (reachable_preserves host
           (λ s, (1 ≤ nextMessageId s)%nat
                 ∧ Forall (λ m, (1 ≤ id m)%nat) (messages s))).
  - intros s' e [Hnext Hall] [Hid _]%built_facts.
    rewrite addMessage_next. cbn [nextMessageId bump set_store].
    split; [lia |]. apply addMessage_Forall; [done | lia].
  - intros s' d [Hnext Hall]. rewrite attachResponseData_next.
    split; [done |]. unfold attachResponseData.
    destruct (requestIdToMessageId s' !! details.requestId d) as [i |]; [| done].
    destruct (i =? 0)%nat; [done |].
    destruct (attach_first _ _ _ _) as [ms' |] eqn:Hat; [| done].
    cbn [messages set_store].
    eapply (attach_first_Forall (λ m, (1 ≤ id m)%nat)); done.
  - intros s' [Hnext _]. split; [done | constructor].
  - done.
  - done.
  - intros w r. split; [done | constructor].
Qed.

(** What is stored later either is a message stored before, response data
    apart, or has an id the counter had not reached. *)
Lemma run_keeps_captures s0 s es :
  s = run host s0 es →
  (nextMessageId s0 ≤ nextMessageId s)%nat
  ∧ ∀ m', m' ∈ messages s → (id m' < nextMessageId s0)%nat →
      ∃ m, m ∈ messages s0 ∧ capture_of m = capture_of m'.
Proof.
  intros ->.
  apply (run_preserves host
           (λ s, (nextMessageId s0 ≤ nextMessageId s)%nat
                 ∧ ∀ m', m' ∈ messages s → (id m' < nextMessageId s0)%nat →
                     ∃ m, m ∈ messages s0 ∧ capture_of m = capture_of m')).
  - intros s e [Hnext Hold] [Hid _]%built_facts.
    rewrite addMessage_next. cbn [nextMessageId bump set_store].
    split; [lia |]. intros m' [Hin | ->]%addMessage_elem Hlt.
    + by apply Hold.
    + lia.
  - intros s d [Hnext Hold]. rewrite attachResponseData_next.
    split; [done |]. intros m' Hin Hlt. unfold attachResponseData in Hin.
    destruct (requestIdToMessageId s !! details.requestId d) as [i |];
      [| by apply Hold].
    destruct (i =? 0)%nat; [by apply Hold |].
    destruct (attach_first _ _ _ _) as [ms' |] eqn:Hat; [| by apply Hold].
    cbn [messages set_store] in Hin.
    destruct (attach_first_elem _ _ _ _ _ _ Hat Hin) as [? | (m0 & Hm0 & _ & ->)];
      [by apply Hold |].
    destruct (Hold m0 Hm0 Hlt) as (m & Hm & Heq). by exists m.
  - intros s [Hnext _]. split; [done |].
    intros m' Hin. by apply elem_of_nil in Hin.
  - done.
  - done.
  - split; [done |]. intros m' Hin _. by exists m'.
Qed.

End Ids.

(** X2. In every state a session reaches the ids of the stored messages
    grow strictly along the sequence, so no two stored messages share an
    id, and every id is at least 1 and below the counter. *)
Theorem message_ids_increasing
    (host : Host) (s : SessionState) (i j : nat) (mi mj : Message) :
  reachable host s →
  messages s !! i = Some mi →
  messages s !! j = Some mj →
  ((i < j)%nat → (id mi < id mj)%nat)
  ∧ (id mi = id mj → i = j)
  ∧ (1 ≤ id mi < nextMessageId s)%nat.
Proof.
  intros Hreach Hi Hj.
  destruct (reachable_ids_ok host s Hreach) as [Hsorted Hbound].
  destruct (reachable_ids_positive host s Hreach) as [_ Hpos].
  assert (∀ a b ma mb, messages s !! a = Some ma → messages s !! b = Some mb →
            (a < b)%nat → (id ma < id mb)%nat) as Hlt.
  { intros a b ma mb Ha Hb. by eapply ids_increasing_lookup. }
  split; [by apply Hlt |]. split.
  - intros Hid. destruct (Nat.lt_trichotomy i j) as [H | [H | H]]; [| done |].
    + specialize (Hlt _ _ _ _ Hi Hj H). lia.
    + specialize (Hlt _ _ _ _ Hj Hi H). lia.
  - apply list_elem_of_lookup_2 in Hi.
    eapply Forall_forall in Hbound; [| done].
    eapply Forall_forall in Hpos; [| done]. cbn in *. lia.
Qed.

(** X2 at the two messages of a session that stored a GET request and
    then a response header. *)
Lemma message_ids_increasing_witness :
  reachable get_host two_message_session
  ∧ messages two_message_session !! 0%nat = Some get_entry
  ∧ messages two_message_session !! 1%nat = Some header_message_second
  ∧ (id get_entry < id header_message_second)%nat
  ∧ id get_entry ≠ id header_message_second
  ∧ (1 ≤ id get_entry < nextMessageId two_message_session)%nat.
Proof.
  assert (reachable get_host two_message_session) as Hreach.
  { exists 1%Z, 7%Z,
      [Request sample_now (sample_details "req-1");
       HeaderValue sample_now (sample_details "req-2") "SAMLResponse"
         "PFJlc3BvbnNlLz4=" false].
    reflexivity. }
  assert (messages two_message_session !! 0%nat = Some get_entry) as Hfirst
    by (vm_compute; reflexivity).
  assert (messages two_message_session !! 1%nat = Some header_message_second)
    as Hsecond by (vm_compute; reflexivity).
  destruct (message_ids_increasing get_host two_message_session 0 1
              get_entry header_message_second Hreach Hfirst Hsecond)
    as (Hlt & Hinj & Hbound).
  split; [exact Hreach |]. split; [exact Hfirst |]. split; [exact Hsecond |].
  split; [apply Hlt; lia |]. split; [| exact Hbound].
  intros Heq. apply Hinj in Heq. discriminate Heq.
Defined.

(** X3. An id names one capture for as long as the session lives: a
    message stored after any further events under the id of a message
    stored now is that message, the response data apart. The counter never
    goes back, also across a clear. *)
Theorem id_names_one_capture
    (host : Host) (s : SessionState) (es : list event) (m m' : Message) :
  reachable host s →
  m ∈ messages s →
  m' ∈ messages (run host s es) →
  id m' = id m →
  capture_of m' = capture_of m
  ∧ (nextMessageId s ≤ nextMessageId (run host s es))%nat.
Proof.
  intros Hreach Hm Hm' Hid.
  destruct (reachable_ids_ok host s Hreach) as [Hsorted Hbound].
  destruct (run_keeps_captures host s _ es eq_refl) as [Hnext Hold].
  split; [| done].
  rewrite Forall_forall in Hbound.
  destruct (Hold m') as (m0 & Hm0 & Heq); [done | |].
  { rewrite Hid. by apply Hbound. }
  assert (id m0 = id m) as Hid0.
  { rewrite <- Hid. by apply (f_equal id) in Heq. }
  by rewrite <- (ids_increasing_unique _ _ _ Hsorted Hm0 Hm Hid0).
Qed.

(** X3 at the message of a GET request before and after its completion. *)
Lemma id_names_one_capture_witness :
  reachable get_host get_session
  ∧ get_entry ∈ messages get_session
  ∧ get_entry_completed
      ∈ messages (run get_host get_session [Completed (sample_details "req-1")])
  ∧ capture_of get_entry_completed = capture_of get_entry.
Proof.
  assert (reachable get_host get_session) as Hreach.
  { exists 1%Z, 7%Z, [Request sample_now (sample_details "req-1")].
    reflexivity. }
  assert (messages get_session = [get_entry]) as Hms
    by (vm_compute; reflexivity).
  assert (messages (run get_host get_session
                      [Completed (sample_details "req-1")])
          = [get_entry_completed]) as Hms'
    by (vm_compute; reflexivity).
  assert (get_entry ∈ messages get_session) as Hin by (rewrite Hms; left).
  assert (get_entry_completed
            ∈ messages (run get_host get_session
                          [Completed (sample_details "req-1")])) as Hin'
    by (rewrite Hms'; left).
  split; [exact Hreach |]. split; [exact Hin |]. split; [exact Hin' |].
  destruct (id_names_one_capture get_host get_session
              [Completed (sample_details "req-1")] get_entry
              get_entry_completed Hreach Hin Hin' eq_refl) as [Hsame _].
  exact Hsame.
Defined.

(** X4. Every stored message holds XML-looking, trimmed text: in every
    state a session reaches the XML of a message begins with [<], is its
    own trim, and passes [looksLikeXML] of the background page and of the
    tracer window. *)
Theorem stored_xml_trimmed_and_open
    (host : Host) (s : SessionState) (m : Message) :
  reachable host s →
  m ∈ messages s →
  startsWith (xml m) "<" = true
  ∧ trim (xml m) = xml m
  ∧ looksLikeXML (xml m) = true
  ∧ ui_looksLikeXML (xml m) = true.
Proof.
  intros Hreach Hin.
  destruct (reachable_message_ok host s m Hreach Hin) as [_ Hopen Htrim _ _].
  split; [done |]. split; [done |].
  assert (looksLikeXML (xml m) = true) as Hx
    by (by rewrite looksLikeXML_trim, Htrim).
  split; [done |]. unfold ui_looksLikeXML. rewrite Htrim, Hopen.
  by destruct (xml m).
Qed.

(** X4 at the message stored for a response header. *)
Lemma stored_xml_trimmed_and_open_witness :
  reachable bare_host header_session
  ∧ header_message ∈ messages header_session
  ∧ trim (xml header_message) = xml header_message
  ∧ looksLikeXML (xml header_message) = true.
Proof.
  assert (reachable bare_host header_session) as Hreach.
  { exists 1%Z, 7%Z,
      [HeaderValue sample_now (sample_details "req-2") "SAMLResponse"
         "PFJlc3BvbnNlLz4=" false].
    reflexivity. }
  assert (messages header_session = [header_message]) as Hms
    by (vm_compute; reflexivity).
  assert (header_message ∈ messages header_session) as Hin
    by (rewrite Hms; left).
  destruct (stored_xml_trimmed_and_open bare_host header_session header_message
              Hreach Hin) as (_ & Htrim & Hxml & _).
  repeat split; assumption.
Defined.

(** X5. The kind of a stored message is one of SAMLRequest, SAMLResponse,
    SAMLArtifact, SAML-XML and SAML, never the candidate name SAMLBase64,
    and its transport is one of GET, POST, JSON, SOAP, HEADER(req),
    HEADER(res) and IMPORT. *)
Theorem stored_kinds_and_transports
    (host : Host) (s : SessionState) (m : Message) :
  reachable host s →
  m ∈ messages s →
  kind m ∈ assigned_kinds
  ∧ kind m ≠ "SAMLBase64"
  ∧ transport m ∈ correlated_transports ++ plain_transports.
Proof.
  intros Hreach Hin.
  destruct (reachable_message_ok host s m Hreach Hin) as [Hkind _ _ _ _].
  split; [done |]. split.
  - intros Heq. rewrite Heq in Hkind. unfold assigned_kinds in Hkind.
    repeat (apply elem_of_cons in Hkind as [Hkind | Hkind]; [done |]).
    by apply elem_of_nil in Hkind.
  - apply elem_of_app.
    destruct (co_transport s (reachable_corr host s Hreach) m Hin); by auto.
Qed.

(** X5 at the message of a GET request. *)
Lemma stored_kinds_and_transports_witness :
  reachable get_host get_session
  ∧ get_entry ∈ messages get_session
  ∧ kind get_entry ∈ assigned_kinds.
Proof.
  assert (reachable get_host get_session) as Hreach.
  { exists 1%Z, 7%Z, [Request sample_now (sample_details "req-1")].
    reflexivity. }
  assert (messages get_session = [get_entry]) as Hms
    by (vm_compute; reflexivity).
  assert (get_entry ∈ messages get_session) as Hin by (rewrite Hms; left).
  destruct (stored_kinds_and_transports get_host get_session get_entry
              Hreach Hin) as (Hkind & _).
  repeat split; assumption.
Defined.

(** X6. Every key of the request headers kept with a stored message is,
    in lower case, one of content-type, accept, authorization and
    user-agent, and every key of its response headers one of content-type,
    location and set-cookie. The keys of one object are different
    spellings, and one name can be kept under several. [Referer] is none
    of them: [requestHeaders?.Referer], which [pickHosts] of the tracer
    window reads, is [undefined] for every stored message. *)
Theorem stored_headers_on_allow_lists
    (host : Host) (s : SessionState) (m : Message) :
  reachable host s →
  m ∈ messages s →
  (∀ o, requestHeaders m = Some o →
     keys_allowed request_allow_list o ∧ NoDup o.*1
     ∧ obj_get o "Referer" = Undefined)
  ∧ (∀ o, responseHeaders m = Some o →
       keys_allowed response_allow_list o ∧ NoDup o.*1)
  ∧ referer_of m = Undefined.
Proof.
  intros Hreach Hin.
  destruct (reachable_message_ok host s m Hreach Hin) as [_ _ _ Hrq Hrs].
  assert (∀ o, requestHeaders m = Some o → obj_get o "Referer" = Undefined)
    as Hreferer.
  { intros o Ho. destruct (Hrq o Ho) as [Hall Hnd].
    rewrite obj_get_absent; [done |]. intros Hk. by apply Hall in Hk. }
  split; [| split; [done |]].
  - intros o Ho. destruct (Hrq o Ho) as [Hall Hnd]. auto.
  - unfold referer_of. destruct (requestHeaders m) as [o |]; [| done].
    by apply Hreferer.
Qed.

(** X6 at a GET request sent with the headers [Accept], [Referer],
    [ACCEPT], [Cookie] and [Accept] again: both spellings of [accept] are
    kept, and [Referer] is not. *)
Lemma stored_headers_on_allow_lists_witness :
  reachable get_host headers_session
  ∧ headers_entry ∈ messages headers_session
  ∧ requestHeaders headers_entry
    = Some [("Accept", Some "application/xml"); ("ACCEPT", Some "*/*")]
  ∧ keys_allowed request_allow_list
      [("Accept", Some "application/xml"); ("ACCEPT", Some "*/*")]
  ∧ referer_of headers_entry = Undefined.
Proof.
  assert (reachable get_host headers_session) as Hreach.
  { exists 1%Z, 7%Z, [Request sample_now headers_details]. reflexivity. }
  assert (messages headers_session = [headers_entry]) as Hms
    by (vm_compute; reflexivity).
  assert (headers_entry ∈ messages headers_session) as Hin
    by (rewrite Hms; left).
  destruct (stored_headers_on_allow_lists get_host headers_session
              headers_entry Hreach Hin) as (Hrq & _ & Hreferer).
  destruct (Hrq _ eq_refl) as (Hall & _ & _).
  split; [exact Hreach |]. split; [exact Hin |]. split; [reflexivity |].
  split; [exact Hall | exact Hreferer].
Defined.

(** ** Refused and accepted entries *)

Section Refusal.
Context (host : Host).
Implicit Types (s : SessionState) (e m : Message).

Lemma addMessage_refused_iff s e :
  snd (addMessage s e) = false ↔ key_of e ∈ seenKeys s.
Proof.
  split.
  - unfold addMessage. fold (key_of e).
    destruct (decide (key_of e ∈ seenKeys s)); [done |].
    destruct (Nat.ltb_spec MAX_MESSAGES (length (messages s ++ [e])));
      [destruct (messages s ++ [e]) |]; done.
  - intros Hin. by rewrite addMessage_seen.
Qed.

Lemma stored_key_iff s k :
  store_ok s → k ∈ seenKeys s ↔ ∃ m, m ∈ messages s ∧ key_of m = k.
Proof.
  intros Hok. rewrite (ok_seen s Hok), elem_of_list_to_set.
  unfold keys_of. rewrite list_elem_of_fmap. naive_solver.
Qed.

Lemma index_ok_append s e :
  correlation_ok s → index_ok s → id e = nextMessageId s →
  index_ok (fst (addMessage (bump s) e)).
Proof.
  intros Hco Hidx Hid r i m Hr Hm Him.
  apply addMessage_index in Hr. apply addMessage_elem in Hm.
  cbn [requestIdToMessageId messages bump set_store] in Hr, Hm.
  destruct Hr as [Hr | [Hr ->]]; destruct Hm as [Hm | ->].
  - by eapply Hidx.
  - pose proof (co_index s Hco r i Hr). lia.
  - pose proof (co_ids s Hco m Hm). lia.
  - done.
Qed.

Lemma index_ok_attach s d : index_ok s → index_ok (attachResponseData s d).
Proof.
  intros Hidx. unfold attachResponseData.
  destruct (requestIdToMessageId s !! details.requestId d) as [i |]; [| done].
  destruct (i =? 0)%nat; [done |].
  destruct (attach_first _ _ _ _) as [ms' |] eqn:Hat; [| done].
  intros r j m Hr Hm Him. cbn [requestIdToMessageId messages set_store] in *.
  destruct (attach_first_elem _ _ _ _ _ _ Hat Hm) as [? | (m0 & Hm0 & _ & ->)].
  - by eapply Hidx.
  - cbn. by eapply Hidx.
Qed.

Lemma reachable_index_ok s : reachable host s → correlation_ok s ∧ index_ok s.
Proof.
  apply (reachable_preserves host (λ s, correlation_ok s ∧ index_ok s)).
  - intros s' e [Hco Hidx] (Hid & Hentry & _)%built_facts.
    split; [by apply append_next_corr | by apply index_ok_append].
  - intros s' d [Hco Hidx].
    split; [by apply attachResponseData_corr | by apply index_ok_attach].
  - intros s' [Hco Hidx]. split; [by apply clearMessages_corr |].
    intros r i m _ Hm. by apply elem_of_nil in Hm.
  - intros s' t [Hco Hidx]. split; [by destruct Hco | done].
  - intros s' b [Hco Hidx]. split; [by destruct Hco | done].
  - intros w r. split; [apply correlation_ok_create |].
    intros q i m _ Hm. by apply elem_of_nil in Hm.
Qed.

Lemma attach_first_hit before m after i status hs :
  Forall (λ x, id x ≠ i) before → id m = i →
  attach_first (before ++ m :: after) i status hs
  = Some (before ++ attach m status hs :: after).
Proof.
  intros Hbefore Hid. induction Hbefore as [| x before Hx _ IH].
  - cbn [app attach_first]. by rewrite Hid, Nat.eqb_refl.
  - cbn [app attach_first]. destruct (Nat.eqb_spec (id x) i); [done |].
    by rewrite IH.
Qed.

End Refusal.

(** X7. For an entry of one of the five kinds, [addMessage] returns
    [false] exactly when a stored message has its kind and its XML: nothing
    is refused because the joined key [kind|xml] of another pair happens to
    be the same string. *)
Theorem refused_exactly_for_stored_pair
    (host : Host) (s : SessionState) (e : Message) :
  reachable host s →
  kind e ∈ assigned_kinds →
  snd (addMessage s e) = false
  ↔ ∃ m, m ∈ messages s ∧ kind m = kind e ∧ xml m = xml e.
Proof.
  intros Hreach Hkind. pose proof (reachable_ok host s Hreach) as Hok.
  rewrite addMessage_refused_iff, (stored_key_iff s _ Hok). split.
  - intros (m & Hin & Hkey). exists m. split; [done |].
    apply makeDedupKey_assigned; [| done | done].
    by destruct (reachable_message_ok host s m Hreach Hin).
  - intros (m & Hin & Hk & Hx). exists m. split; [done |].
    unfold key_of. by rewrite Hk, Hx.
Qed.

(** X7 at a second capture of a stored request text. *)
Lemma refused_exactly_for_stored_pair_witness :
  reachable get_host get_session
  ∧ kind dup_second ∈ assigned_kinds
  ∧ snd (addMessage get_session dup_second) = false.
Proof.
  assert (reachable get_host get_session) as Hreach.
  { exists 1%Z, 7%Z, [Request sample_now (sample_details "req-1")].
    reflexivity. }
  assert (kind dup_second ∈ assigned_kinds) as Hkind by left.
  split; [exact Hreach |]. split; [exact Hkind |].
  apply (refused_exactly_for_stored_pair get_host get_session dup_second
           Hreach Hkind).
  exists get_entry. split; [| split; reflexivity].
  assert (messages get_session = [get_entry]) as Hms
    by (vm_compute; reflexivity).
  rewrite Hms. left.
Defined.

(** X8. In every state a session reaches no two stored messages have the
    same kind and the same XML. *)
Theorem stored_pairs_unique
    (host : Host) (s : SessionState) (i j : nat) (mi mj : Message) :
  reachable host s →
  messages s !! i = Some mi →
  messages s !! j = Some mj →
  kind mi = kind mj →
  xml mi = xml mj →
  i = j.
Proof.
  intros Hreach Hi Hj Hk Hx.
  pose proof (ok_nodup s (reachable_ok host s Hreach)) as Hnd.
  apply (NoDup_lookup (keys_of (messages s)) i j (key_of mi) Hnd).
  - unfold keys_of. by rewrite list_lookup_fmap, Hi.
  - unfold keys_of, key_of. by rewrite list_lookup_fmap, Hj, Hk, Hx.
Qed.

(** X8 at the two messages of a session that stored a GET request and
    then a response header: they do not have the same kind and XML. *)
Lemma stored_pairs_unique_witness :
  reachable get_host two_message_session
  ∧ messages two_message_session !! 0%nat = Some get_entry
  ∧ messages two_message_session !! 1%nat = Some header_message_second
  ∧ ¬ (kind get_entry = kind header_message_second
       ∧ xml get_entry = xml header_message_second).
Proof.
  assert (reachable get_host two_message_session) as Hreach.
  { exists 1%Z, 7%Z,
      [Request sample_now (sample_details "req-1");
       HeaderValue sample_now (sample_details "req-2") "SAMLResponse"
         "PFJlc3BvbnNlLz4=" false].
    reflexivity. }
  assert (messages two_message_session !! 0%nat = Some get_entry) as Hfirst
    by (vm_compute; reflexivity).
  assert (messages two_message_session !! 1%nat = Some header_message_second)
    as Hsecond by (vm_compute; reflexivity).
  split; [exact Hreach |]. split; [exact Hfirst |]. split; [exact Hsecond |].
  intros [Hkind Hxml].
  pose proof (stored_pairs_unique get_host two_message_session 0 1
                get_entry header_message_second Hreach Hfirst Hsecond
                Hkind Hxml) as Hsame.
  discriminate Hsame.
Defined.

(** X9. When the index maps the request of a completed exchange to the id
    of a stored message, [attachResponseData] changes the first message
    with that id, and only its status and response headers: the order, the
    count, the dedup keys, the key set, the index and the counter stay. *)
Theorem attachResponseData_hit
    (s : SessionState) (d : details.t) (i : nat)
    (before after : list Message) (m : Message) :
  (requestIdToMessageId s !! details.requestId d) = Some i →
  i ≠ 0%nat →
  messages s = before ++ m :: after →
  Forall (λ x, id x ≠ i) before →
  id m = i →
  let m' := attach m (details.statusCode d)
              (filter_headers response_allow_list (details.responseHeaders d)) in
  attachResponseData s d
  = set_store s (before ++ m' :: after) (nextMessageId s) (seenKeys s)
      (requestIdToMessageId s)
  ∧ capture_of m' = capture_of m
  ∧ statusCode m' = Some (details.statusCode d)
  ∧ keys_of (messages (attachResponseData s d)) = keys_of (messages s)
  ∧ length (messages (attachResponseData s d)) = length (messages s).
Proof.
  intros Hr Hi Hms Hbefore Hid m'.
  assert (attachResponseData s d
          = set_store s (before ++ m' :: after) (nextMessageId s) (seenKeys s)
              (requestIdToMessageId s)) as Heq.
  { unfold attachResponseData. rewrite Hr.
    destruct (Nat.eqb_spec i 0); [done |].
    by rewrite Hms, attach_first_hit. }
  split; [done |]. split; [done |]. split; [done |].
  rewrite Heq, Hms. cbn [messages set_store].
  rewrite !keys_of_app, !keys_of_cons, !length_app. done.
Qed.

(** X9 at the completion of the stored GET request. *)
Lemma attachResponseData_hit_witness :
  (requestIdToMessageId get_session !! "req-1") = Some 1%nat
  ∧ messages get_session = [] ++ get_entry :: []
  ∧ messages (attachResponseData get_session (sample_details "req-1"))
    = [get_entry_completed].
Proof.
  assert ((requestIdToMessageId get_session !! "req-1") = Some 1%nat) as Hidx
    by (vm_compute; reflexivity).
  assert (messages get_session = [] ++ get_entry :: []) as Hms
    by (vm_compute; reflexivity).
  split; [exact Hidx |]. split; [exact Hms |].
  destruct (attachResponseData_hit get_session (sample_details "req-1") 1
              [] [] get_entry Hidx) as (Heq & _).
  - discriminate.
  - exact Hms.
  - constructor.
  - reflexivity.
  - rewrite Heq. reflexivity.
Defined.

(** X10. Response data goes to the message of its own request: in every
    state a session reaches, a message [attachResponseData] changes was
    stored with the request identifier of the completed exchange, by the
    query and body pass. *)
Theorem response_attached_to_own_request
    (host : Host) (s : SessionState) (d : details.t) (m' : Message) :
  reachable host s →
  m' ∈ messages (attachResponseData s d) →
  m' ∉ messages s →
  ∃ m, m ∈ messages s
       ∧ m' = attach m (details.statusCode d)
                (filter_headers response_allow_list (details.responseHeaders d))
       ∧ requestId m = Some (details.requestId d)
       ∧ transport m ∈ correlated_transports.
Proof.
  intros Hreach Hin Hnew.
  destruct (reachable_index_ok host s Hreach) as [Hco Hidx].
  unfold attachResponseData in Hin.
  destruct (requestIdToMessageId s !! details.requestId d) as [i |] eqn:Hr;
    [| done].
  destruct (i =? 0)%nat; [done |].
  destruct (attach_first _ _ _ _) as [ms' |] eqn:Hat; [| done].
  cbn [messages set_store] in Hin.
  destruct (attach_first_elem _ _ _ _ _ _ Hat Hin) as [? | (m & Hm & Hid & ->)];
    [done |].
  exists m. split; [done |]. split; [done |].
  split; [by eapply Hidx |].
  destruct (co_transport s Hco m Hm) as [Hp | Hc]; [| done].
  exfalso. by apply (co_apart s Hco _ _ m Hr Hm Hp).
Qed.

(** X10 at the completion of the stored GET request. *)
Lemma response_attached_to_own_request_witness :
  reachable get_host get_session
  ∧ get_entry_completed
      ∈ messages (attachResponseData get_session (sample_details "req-1"))
  ∧ (get_entry_completed ∉ messages get_session)
  ∧ ∃ m, m ∈ messages get_session ∧ requestId m = Some "req-1".
Proof.
  assert (reachable get_host get_session) as Hreach.
  { exists 1%Z, 7%Z, [Request sample_now (sample_details "req-1")].
    reflexivity. }
  assert (messages (attachResponseData get_session (sample_details "req-1"))
          = [get_entry_completed]) as Hms' by (vm_compute; reflexivity).
  assert (messages get_session = [get_entry]) as Hms
    by (vm_compute; reflexivity).
  assert (get_entry_completed
            ∈ messages (attachResponseData get_session (sample_details "req-1")))
    as Hin by (rewrite Hms'; left).
  assert (get_entry_completed ∉ messages get_session) as Hnew.
  { rewrite Hms. intros Heq%list_elem_of_singleton. discriminate Heq. }
  split; [exact Hreach |]. split; [exact Hin |]. split; [exact Hnew |].
  destruct (response_attached_to_own_request get_host get_session
              (sample_details "req-1") get_entry_completed Hreach Hin Hnew)
    as (m & Hm & _ & Hrq & _).
  exists m. split; [exact Hm | exact Hrq].
Defined.

(** X11. A repeated capture changes nothing but the counter: when a stored
    message has the kind and the XML of the entry [handlePossibleSAML]
    builds, the session afterwards is the session before with
    [nextMessageId] one higher, so the id the entry took is never seen. *)
Theorem repeated_capture_consumes_id
    (host : Host) (now : string) (s : SessionState) (d : details.t)
    (f : found.t) (e : Message) :
  reachable host s →
  extract host d = Some f →
  entry_of_found host now d f (nextMessageId s) = Some e →
  (∃ m, m ∈ messages s ∧ kind m = kind e ∧ xml m = xml e) →
  handlePossibleSAML host now s d = bump s
  ∧ messages (handlePossibleSAML host now s d) = messages s
  ∧ seenKeys (handlePossibleSAML host now s d) = seenKeys s
  ∧ requestIdToMessageId (handlePossibleSAML host now s d)
    = requestIdToMessageId s
  ∧ nextMessageId (handlePossibleSAML host now s d) = S (nextMessageId s).
Proof.
  intros Hreach Hf He (m & Hin & Hk & Hx).
  assert (handlePossibleSAML host now s d = bump s) as Heq.
  { unfold handlePossibleSAML. rewrite Hf, He.
    rewrite addMessage_seen; [done |].
    cbn [seenKeys bump set_store].
    apply (stored_key_iff s _ (reachable_ok host s Hreach)).
    exists m. split; [done |]. unfold key_of. by rewrite Hk, Hx. }
  by rewrite Heq.
Qed.

(** X11 at the same GET request observed a second time. *)
Lemma repeated_capture_consumes_id_witness :
  reachable get_host get_session
  ∧ extract get_host (sample_details "req-1") = Some get_found
  ∧ entry_of_found get_host sample_now (sample_details "req-1") get_found
      (nextMessageId get_session) = Some get_entry_again
  ∧ handlePossibleSAML get_host sample_now get_session (sample_details "req-1")
    = bump get_session.
Proof.
  assert (reachable get_host get_session) as Hreach.
  { exists 1%Z, 7%Z, [Request sample_now (sample_details "req-1")].
    reflexivity. }
  assert (messages get_session = [get_entry]) as Hms
    by (vm_compute; reflexivity).
  assert (extract get_host (sample_details "req-1") = Some get_found)
    as Hfound by (vm_compute; reflexivity).
  assert (entry_of_found get_host sample_now (sample_details "req-1") get_found
            (nextMessageId get_session) = Some get_entry_again)
    as Hentry by (vm_compute; reflexivity).
  split; [exact Hreach |]. split; [exact Hfound |]. split; [exact Hentry |].
  destruct (repeated_capture_consumes_id get_host sample_now get_session
              (sample_details "req-1") get_found get_entry_again
              Hreach Hfound Hentry) as (Heq & _).
  - exists get_entry. split; [rewrite Hms; left | split; reflexivity].
  - exact Heq.
Defined.

(** ** Import *)

Section ImportLoop.
Context (host : Host).
Implicit Types (s : SessionState) (e m : Message).

Lemma addMessage_length s e :
  store_ok s →
  length (messages (fst (addMessage s e)))
  = if snd (addMessage s e)
    then Nat.min MAX_MESSAGES (S (length (messages s)))
    else length (messages s).
Proof.
  intros Hok. destruct (decide (key_of e ∈ seenKeys s)) as [Hin | Hnot].
  { by rewrite addMessage_seen. }
  destruct (addMessage_messages s e Hok Hnot) as (-> & -> & _).
  pose proof (ok_len s Hok). rewrite length_drop, length_app. cbn [length]. lia.
Qed.

Lemma frame_addMessage s e : frame_of (fst (addMessage s e)) = frame_of s.
Proof.
  unfold addMessage. destruct (decide _); [done |].
  destruct (Nat.ltb_spec MAX_MESSAGES (length (messages s ++ [e])));
    [destruct (messages s ++ [e]) |]; done.
Qed.

Lemma frame_attachResponseData s d : frame_of (attachResponseData s d) = frame_of s.
Proof.
  unfold attachResponseData.
  destruct (requestIdToMessageId s !! details.requestId d) as [i |]; [| done].
  destruct (i =? 0)%nat; [done |]. by destruct (attach_first _ _ _ _).
Qed.

Lemma frame_importMessages now s items k :
  frame_of (fst (importMessages now s items k)) = frame_of s.
Proof.
  revert s k. induction items as [| it items IH]; intros s k; [done |].
  cbn [importMessages]. destruct (import_text_of it); [by apply IH | | done].
  destruct (addMessage (bump s) _) as [s' stored] eqn:Hadd.
  rewrite IH. change s' with (fst (s', stored)). rewrite <- Hadd.
  by rewrite frame_addMessage.
Qed.

Lemma frame_step s ev :
  match ev with
  | TabAdded _ | TabDeleted _ | Capturing _ => True
  | _ => frame_of (step host s ev) = frame_of s
  end.
Proof.
  destruct ev; cbn [step]; try done.
  - unfold handlePossibleSAML. destruct (extract host d); [| done].
    destruct (entry_of_found _ _ _ _ _); [| done]. by rewrite frame_addMessage.
  - unfold handleHeaderValue. destruct (header_entry _ _ _ _ _ _ _); [| done].
    by rewrite frame_addMessage.
  - apply frame_attachResponseData.
  - apply frame_importMessages.
Qed.

Lemma importMessages_throws now s items k :
  snd (importMessages now s items k) = None
  ↔ ∃ it, it ∈ items ∧ import_text_of it = Throws.
Proof.
  revert s k. induction items as [| it items IH]; intros s k.
  { split; [done |]. intros (it & Hin & _). by apply elem_of_nil in Hin. }
  cbn [importMessages]. destruct (import_text_of it) as [| x |] eqn:Hit.
  - rewrite IH. split; intros (it' & Hin & Ht); exists it'.
    + split; [by right | done].
    + apply elem_of_cons in Hin as [-> | Hin]; [congruence | done].
  - destruct (addMessage (bump s) _) as [s' stored].
    rewrite IH. split; intros (it' & Hin & Ht); exists it'.
    + split; [by right | done].
    + apply elem_of_cons in Hin as [-> | Hin]; [congruence | done].
  - split; [| done]. intros _. exists it. split; [left | done].
Qed.

Lemma importMessages_count now s items k s' n :
  store_ok s →
  importMessages now s items k = (s', Some n) →
  (k ≤ n ≤ k + length (import_texts items))%nat
  ∧ length (messages s')
    = Nat.min MAX_MESSAGES (length (messages s) + (n - k))
  ∧ nextMessageId s' = (nextMessageId s + length (import_texts items))%nat.
Proof.
  revert s k. induction items as [| it items IH]; intros s k Hok H.
  { cbn in H. injection H as <- <-. pose proof (ok_len s Hok).
    cbn [import_texts flat_map length]. split; [lia |]. split; lia. }
  cbn [importMessages] in H. unfold import_texts in *. cbn [flat_map].
  destruct (import_text_of it) as [| x |] eqn:Hit; [| | done].
  - cbn [app]. by apply IH.
  - destruct (addMessage (bump s) (import_entry now x (nextMessageId s)))
      as [s1 stored] eqn:Hadd.
    assert (store_ok s1) as Hok1.
    { change s1 with (fst (s1, stored)). rewrite <- Hadd.
      by apply addMessage_ok, bump_ok. }
    pose proof (addMessage_length (bump s) (import_entry now x (nextMessageId s))
                  (bump_ok s Hok)) as Hlen.
    pose proof (addMessage_next (bump s) (import_entry now x (nextMessageId s)))
      as Hnext.
    rewrite Hadd in Hlen, Hnext. cbn [fst snd] in Hlen, Hnext.
    cbn [messages nextMessageId bump set_store] in Hlen, Hnext.
    destruct (IH s1 _ Hok1 H) as (Hn & Hl & Hx).
    pose proof (ok_len s Hok). pose proof (ok_len s1 Hok1).
    cbn [app length]. rewrite Hl, Hx, Hnext.
    destruct stored; rewrite Hlen; (split; [lia |]); split; lia.
Qed.

Lemma import_text_of_trimmed content :
  startsWith (trim content) "<" = true →
  import_text_of (ItemObject (Some (trim content))) = Text (trim content).
Proof.
  intros Hopen. cbn [import_text_of].
  rewrite looksLikeXML_trim, trim_idempotent, Hopen.
  by destruct (trim content).
Qed.

Lemma import_text_of_throws it :
  import_text_of it = Throws
  ↔ it = ItemOther ∨ it = ItemObject None ∨ it = ItemObject (Some "").
Proof.
  split.
  - destruct it as [| x | [x |] |]; cbn [import_text_of]; try done; auto.
    + destruct x; cbn [truthy negb]; [by auto |].
      by destruct (looksLikeXML _).
    + destruct x; cbn [truthy negb]; [by auto |].
      by destruct (looksLikeXML _).
  - by intros [-> | [-> | ->]].
Qed.

Lemma import_entry_key now x next : key_of (import_entry now x next) = import_key x.
Proof. done. Qed.

Lemma importMessages_seen_incl now s items k key :
  key ∈ seenKeys (fst (importMessages now s items k)) →
  key ∈ seenKeys s ∨ key ∈ import_key <$> import_texts items.
Proof.
  revert s k. induction items as [| it items IH]; intros s k; [by left |].
  cbn [importMessages]. unfold import_texts. cbn [flat_map].
  fold (import_texts items).
  destruct (import_text_of it) as [| x |]; cbn [app]; [apply IH | | by left].
  destruct (addMessage (bump s) (import_entry now x (nextMessageId s)))
    as [s1 stored] eqn:Hadd.
  intros [Hin | Hin]%IH; [| right; rewrite fmap_cons; by right].
  assert (s1 = fst (addMessage (bump s) (import_entry now x (nextMessageId s))))
    as -> by (by rewrite Hadd).
  apply addMessage_seen_incl in Hin as [-> | Hin]; [| by left].
  right. rewrite fmap_cons. by left.
Qed.

Lemma importMessages_fresh now s items k :
  NoDup (import_key <$> import_texts items) →
  (∀ x, x ∈ import_texts items → import_key x ∉ seenKeys s) →
  (∀ it, it ∈ items → import_text_of it ≠ Throws) →
  snd (importMessages now s items k)
  = Some (k + length (import_texts items))%nat.
Proof.
  revert s k. induction items as [| it items IH]; intros s k Hnd Hnew Hthrow.
  { cbn. f_equal. lia. }
  cbn [importMessages]. unfold import_texts in *. cbn [flat_map] in *.
  fold (import_texts items) in *.
  assert (∀ it', it' ∈ items → import_text_of it' ≠ Throws) as Hthrow'.
  { intros it' Hin. apply Hthrow. by right. }
  destruct (import_text_of it) as [| x |] eqn:Hit; cbn [app] in *.
  - by apply IH.
  - rewrite fmap_cons in Hnd. apply NoDup_cons in Hnd as [Hx Hnd].
    assert (import_key x ∉ seenKeys (bump s)) as Hfresh.
    { apply Hnew. by left. }
    destruct (addMessage (bump s) (import_entry now x (nextMessageId s)))
      as [s1 stored] eqn:Hadd.
    assert (stored = true) as ->.
    { destruct stored; [done |]. exfalso. apply Hfresh.
      rewrite <- (import_entry_key now x (nextMessageId s)).
      apply addMessage_refused_iff. by rewrite Hadd. }
    rewrite IH; [cbn [length]; f_equal; lia | done | | done].
    intros y Hy Hin.
    assert (s1 = fst (addMessage (bump s)
                        (import_entry now x (nextMessageId s)))) as Hs1
      by (by rewrite Hadd).
    rewrite Hs1 in Hin. apply addMessage_seen_incl in Hin as [Heq | Hin].
    + apply Hx. rewrite import_entry_key in Heq. rewrite <- Heq.
      by apply list_elem_of_fmap_2.
    + revert Hin. apply Hnew. by right.
  - exfalso. by apply (Hthrow it); [left |].
Qed.

End ImportLoop.

(** X12. The import loop rejects its promise exactly when some item is
    truthy and is neither a string nor an object whose [xml] is a
    non-empty string; falsy items such as [null], [0], [false] and the
    empty string are skipped. When it resolves, [imported] is at most the
    number of XML-looking items, and it is that number when their dedup
    keys differ from one another and from the keys the session has seen;
    the store holds [imported] messages more, up to the bound of 1000, and
    the counter has advanced by the number of XML-looking items,
    duplicates included. *)
Theorem importMessages_result
    (host : Host) (now : string) (s s' : SessionState)
    (items : list import_item) (r : option nat) :
  reachable host s →
  importMessages now s items 0 = (s', r) →
  (r = None
   ↔ ∃ it, it ∈ items
           ∧ (it = ItemOther ∨ it = ItemObject None
              ∨ it = ItemObject (Some "")))
  ∧ (∀ n, r = Some n →
       (n ≤ length (import_texts items) ≤ length items)%nat
       ∧ length (messages s')
         = Nat.min MAX_MESSAGES (length (messages s) + n)
       ∧ nextMessageId s'
         = (nextMessageId s + length (import_texts items))%nat
       ∧ (NoDup (import_key <$> import_texts items) →
          (∀ x, x ∈ import_texts items → import_key x ∉ seenKeys s) →
          n = length (import_texts items)))
  ∧ frame_of s' = frame_of s.
Proof.
  intros Hok%reachable_ok H.
  assert (r = None ↔ ∃ it, it ∈ items ∧ import_text_of it = Throws) as Hthrows.
  { rewrite <- (importMessages_throws now s items 0). by rewrite H. }
  split; [| split].
  - rewrite Hthrows. split; intros (it & Hin & Hit); exists it;
      (split; [done |]); by apply import_text_of_throws.
  - intros n ->.
    destruct (importMessages_count now s items 0 s' n Hok H) as (Hn & Hl & Hx).
    rewrite Nat.sub_0_r in Hl. split; [| split; [done | split; [done |]]].
    + split; [lia |].
      clear. induction items as [| it items IH]; [done |].
      unfold import_texts in *. cbn [flat_map]. rewrite length_app.
      destruct (import_text_of it); cbn [length]; lia.
    + intros Hnd Hnew.
      pose proof (importMessages_fresh now s items 0 Hnd Hnew) as Hfresh.
      rewrite H in Hfresh. cbn [snd] in Hfresh.
      assert (Some n = Some (0 + length (import_texts items))%nat) as [= ->];
        [| done].
      apply Hfresh. intros it Hin Hit.
      assert (Some n = None) as [=]. apply Hthrows. by exists it.
  - change s' with (fst (s', r)). rewrite <- H. apply frame_importMessages.
Qed.

(** X12 at the import of one new document and one stored already, and at
    an import of [null] and the empty string, which resolves. *)
Lemma importMessages_result_witness :
  reachable bare_host header_session
  ∧ importMessages sample_now header_session
      [ItemString "<AuthnRequest/>"; ItemObject (Some " <Response/> ")] 0
    = (fst (importMessages sample_now header_session
              [ItemString "<AuthnRequest/>"; ItemObject (Some " <Response/> ")] 0),
       Some 1%nat)
  ∧ nextMessageId
      (fst (importMessages sample_now header_session
              [ItemString "<AuthnRequest/>"; ItemObject (Some " <Response/> ")] 0))
    = 4%nat
  ∧ snd (importMessages sample_now header_session
           [ItemFalsy; ItemString ""] 0) ≠ None.
Proof.
  assert (reachable bare_host header_session) as Hreach.
  { exists 1%Z, 7%Z,
      [HeaderValue sample_now (sample_details "req-2") "SAMLResponse"
         "PFJlc3BvbnNlLz4=" false].
    reflexivity. }
  assert (importMessages sample_now header_session
            [ItemString "<AuthnRequest/>"; ItemObject (Some " <Response/> ")] 0
          = (fst (importMessages sample_now header_session
                    [ItemString "<AuthnRequest/>";
                     ItemObject (Some " <Response/> ")] 0),
             Some 1%nat)) as Himport by (vm_compute; reflexivity).
  split; [exact Hreach |]. split; [exact Himport |].
  destruct (importMessages_result bare_host sample_now header_session _ _ _
              Hreach Himport) as (_ & Hcount & _).
  destruct (Hcount 1%nat eq_refl) as (_ & _ & Hnext & _).
  split; [rewrite Hnext; vm_compute; reflexivity |].
  intros Hnone.
  destruct (importMessages_result bare_host sample_now header_session _ _
              (snd (importMessages sample_now header_session
                      [ItemFalsy; ItemString ""] 0))
              Hreach (surjective_pairing _)) as (Hthrows & _).
  apply Hthrows in Hnone as (it & Hin & Hit).
  apply elem_of_cons in Hin as [-> | Hin].
  - destruct Hit as [Hit | [Hit | Hit]]; discriminate Hit.
  - apply elem_of_cons in Hin as [-> | Hin].
    + destruct Hit as [Hit | [Hit | Hit]]; discriminate Hit.
    + apply elem_of_nil in Hin. exact Hin.
Defined.

(** X13. The file import of the tracer window never makes the background
    page reject: the one item it sends, the trimmed text of a file that
    begins with [<], is taken as XML, and [imported] is 0 exactly when a
    stored message has the kind guessed from that text and that text as its
    XML, and 1 otherwise. *)
Theorem importFromFile_accepted
    (host : Host) (now : string) (s : SessionState) (content : string)
    (items : list import_item) :
  reachable host s →
  importFromFile_items content = Some items →
  ∃ n, snd (importMessages now s items 0) = Some n
       ∧ (n ≤ 1)%nat
       ∧ (n = 0%nat ↔
            ∃ m, m ∈ messages s
                 ∧ kind m = guessKindFromXML (trim content)
                 ∧ xml m = trim content).
Proof.
  intros Hreach Hitems. unfold importFromFile_items in Hitems.
  destruct (startsWith (trim content) "<") eqn:Hopen; [| done].
  cbn in Hitems. simplify_eq.
  cbn [importMessages]. rewrite (import_text_of_trimmed content Hopen).
  set (e := import_entry now (trim content) (nextMessageId s)).
  destruct (addMessage (bump s) e) as [s1 stored] eqn:Hadd. cbn [snd].
  exists (if stored then 1%nat else 0%nat). split; [done |].
  split; [destruct stored; lia |].
  assert (stored = false ↔
            ∃ m, m ∈ messages s ∧ kind m = guessKindFromXML (trim content)
                 ∧ xml m = trim content) as Hiff.
  { change stored with (snd (s1, stored)). rewrite <- Hadd.
    rewrite addMessage_refused_iff. cbn [seenKeys bump set_store].
    rewrite (stored_key_iff s _ (reachable_ok host s Hreach)).
    destruct (import_entry_ok now (trim content) (nextMessageId s))
      as (_ & _ & _ & Hkind).
    split.
    - intros (m & Hin & Hkey). exists m. split; [done |].
      destruct (makeDedupKey_assigned (kind m) (kind e) (xml m) (xml e))
        as [Hk Hx]; [| done | done |].
      + by destruct (reachable_message_ok host s m Hreach Hin).
      + split; [done |]. rewrite Hx. subst e. cbn [xml import_entry].
        apply trim_idempotent.
    - intros (m & Hin & Hk & Hx). exists m. split; [done |].
      unfold key_of. rewrite Hk, Hx. subst e. cbn [kind xml import_entry].
      by rewrite trim_idempotent. }
  destruct stored; split; intros H; try done.
  - apply Hiff in H. done.
  - by apply Hiff.
Qed.

(** X13 at a file holding a response that is stored already. *)
Lemma importFromFile_accepted_witness :
  reachable bare_host header_session
  ∧ importFromFile_items " <Response/> "
    = Some [ItemObject (Some "<Response/>")]
  ∧ snd (importMessages sample_now header_session
           [ItemObject (Some "<Response/>")] 0) = Some 0%nat.
Proof.
  assert (reachable bare_host header_session) as Hreach.
  { exists 1%Z, 7%Z,
      [HeaderValue sample_now (sample_details "req-2") "SAMLResponse"
         "PFJlc3BvbnNlLz4=" false].
    reflexivity. }
  assert (importFromFile_items " <Response/> "
          = Some [ItemObject (Some "<Response/>")]) as Hitems
    by (vm_compute; reflexivity).
  split; [exact Hreach |]. split; [exact Hitems |].
  destruct (importFromFile_accepted bare_host sample_now header_session
              " <Response/> " _ Hreach Hitems) as (n & Hn & _ & Hzero).
  rewrite Hn. f_equal. apply Hzero.
  exists header_message. split; [| split; vm_compute; reflexivity].
  assert (messages header_session = [header_message]) as Hms
    by (vm_compute; reflexivity).
  rewrite Hms. left.
Defined.

(** X14. [looksLikeXML] of the tracer window and [looksLikeXML] of the
    background page agree on every text: the 200-character slice of the
    latter changes nothing. *)
Theorem looksLikeXML_agree (text : string) :
  ui_looksLikeXML text = looksLikeXML text
  ∧ looksLikeXML text = startsWith (trim text) "<".
Proof.
  split; [| apply looksLikeXML_trim].
  rewrite looksLikeXML_trim. unfold ui_looksLikeXML.
  destruct text as [| c r]; [done |]. cbn [truthy negb].
  destruct (startsWith (trim (String c r)) "<") eqn:H1; [done |].
  destruct (startsWith (trim (String c r)) "<?xml") eqn:H2; [| done].
  apply startsWith_xml_decl in H2. congruence.
Qed.

(** ** Tabs in scope *)

Section Scope.
Implicit Types (sessions : registry) (s : SessionState).

Lemma tracking_cons w s sessions u :
  tracking ((w, s) :: sessions) u
  = if decide (u ∈ trackedTabIds s) then w :: tracking sessions u
    else tracking sessions u.
Proof.
  unfold tracking. cbn [List.filter snd].
  destruct (decide (u ∈ trackedTabIds s)) as [Hin | Hnot].
  - by rewrite bool_decide_eq_true_2.
  - by rewrite bool_decide_eq_false_2.
Qed.

Lemma getSessionByTabId_tracking sessions u :
  getSessionByTabId sessions u = None ↔ tracking sessions u = [].
Proof.
  induction sessions as [| [w s] r IH]; [done |].
  rewrite tracking_cons. cbn [getSessionByTabId].
  by destruct (decide (u ∈ trackedTabIds s)).
Qed.

Lemma update_by_tab_windows sessions t f :
  (update_by_tab sessions t f).*1 = sessions.*1.
Proof.
  induction sessions as [| [w s] r IH]; [done |]. cbn [update_by_tab].
  destruct (decide (t ∈ trackedTabIds s)); cbn [fmap list_fmap fst]; [done |].
  f_equal. apply IH.
Qed.

Lemma tracking_update sessions t f u :
  (∀ s, t ∈ trackedTabIds s → u ∈ trackedTabIds (f s) ↔ u ∈ trackedTabIds s) →
  tracking (update_by_tab sessions t f) u = tracking sessions u.
Proof.
  intros Hf. induction sessions as [| [w s] r IH]; [done |].
  cbn [update_by_tab]. destruct (decide (t ∈ trackedTabIds s)) as [Ht | Ht].
  - rewrite !tracking_cons. specialize (Hf s Ht).
    destruct (decide (u ∈ trackedTabIds (f s))), (decide (u ∈ trackedTabIds s));
      naive_solver.
  - rewrite !tracking_cons, IH. done.
Qed.

Lemma tracking_removed sessions t :
  tracking (onTabRemoved sessions t) t = tail (tracking sessions t).
Proof.
  unfold onTabRemoved. induction sessions as [| [w s] r IH]; [done |].
  cbn [update_by_tab]. destruct (decide (t ∈ trackedTabIds s)) as [Ht | Ht].
  - rewrite !tracking_cons. cbn [trackedTabIds set_trackedTabIds].
    destruct (decide (t ∈ trackedTabIds s ∖ {[t]})) as [Hin | _]; [set_solver |].
    by destruct (decide (t ∈ trackedTabIds s)).
  - rewrite !tracking_cons. destruct (decide (t ∈ trackedTabIds s)); [done |].
    apply IH.
Qed.

Lemma update_by_tab_untracked sessions t f :
  getSessionByTabId sessions t = None → update_by_tab sessions t f = sessions.
Proof. intros Hnone. apply update_by_tab_id. intros s Hs. congruence. Qed.

Lemma opened_tab_resolves sessions opener new :
  is_Some (getSessionByTabId sessions opener) →
  is_Some (getSessionByTabId
             (update_by_tab sessions opener
                (λ s, set_trackedTabIds s ({[ new ]} ∪ trackedTabIds s))) new).
Proof.
  induction sessions as [| [w s] r IH]; cbn [getSessionByTabId update_by_tab].
  { by intros [? ?]. }
  destruct (decide (opener ∈ trackedTabIds s)) as [Ho | Ho];
    cbn [getSessionByTabId trackedTabIds set_trackedTabIds].
  - intros _. destruct (decide (new ∈ {[new]} ∪ trackedTabIds s)); [done |].
    set_solver.
  - intros Hr. destruct (decide (new ∈ trackedTabIds s)); [done | by apply IH].
Qed.

End Scope.

(** X15. A tab opened by a tab in scope comes into scope: when the opener
    of a new tab resolves to a session, the new tab resolves to a session
    afterwards, the scope of every other tab is what it was, and no session
    is added or removed. Without an opener, or with an opener no session
    tracks, nothing changes. *)
Theorem opened_tab_comes_into_scope (sessions : registry) (t : tab.t) :
  (∀ opener, truthy_id (tab.openerTabId t) = Some opener →
     is_Some (getSessionByTabId sessions opener) →
     is_Some (getSessionByTabId (onTabCreated sessions t) (tab.id t))
     ∧ (∀ u, u ≠ tab.id t →
          tracking (onTabCreated sessions t) u = tracking sessions u)
     ∧ (onTabCreated sessions t).*1 = sessions.*1)
  ∧ (truthy_id (tab.openerTabId t) = None
     ∨ (∃ opener, truthy_id (tab.openerTabId t) = Some opener
                  ∧ getSessionByTabId sessions opener = None) →
     onTabCreated sessions t = sessions).
Proof.
  split.
  - intros opener Hopener Hres. unfold onTabCreated. rewrite Hopener.
    destruct sessions as [| p r]; [by destruct Hres |].
    split; [by apply opened_tab_resolves |]. split.
    + intros u Hu. apply tracking_update. intros s _.
      cbn [trackedTabIds set_trackedTabIds]. set_solver.
    + apply update_by_tab_windows.
  - unfold onTabCreated. intros [-> | (opener & -> & Hnone)].
    + by destruct sessions.
    + destruct sessions; [done |]. by apply update_by_tab_untracked.
Qed.

(** X16. Closing a tab takes it out of the first session that tracks it
    and out of no other: the sessions tracking the tab afterwards are those
    tracking it before without the first, every other tab is tracked as
    before, and no session is added or removed, also when the tab closed is
    a root tab. *)
Theorem closed_tab_leaves_first_session (sessions : registry) (t : Z) :
  tracking (onTabRemoved sessions t) t = tail (tracking sessions t)
  ∧ (∀ u, u ≠ t → tracking (onTabRemoved sessions t) u = tracking sessions u)
  ∧ (onTabRemoved sessions t).*1 = sessions.*1
  ∧ (getSessionByTabId sessions t = None → onTabRemoved sessions t = sessions)
  ∧ ((length (tracking sessions t) ≤ 1)%nat →
       getSessionByTabId (onTabRemoved sessions t) t = None).
Proof.
  split; [apply tracking_removed |]. split; [| split; [| split]].
  - intros u Hu. apply tracking_update. intros s _.
    cbn [trackedTabIds set_trackedTabIds]. set_solver.
  - apply update_by_tab_windows.
  - apply update_by_tab_untracked.
  - intros Hlen. apply getSessionByTabId_tracking. rewrite tracking_removed.
    destruct (tracking sessions t) as [| w [| w' r]]; [done | done |].
    cbn [length] in Hlen. lia.
Qed.

(** ** The registry *)

Section Registry.
Context (host : Host).
Implicit Types (sessions : registry) (s : SessionState) (bg : background.t).

Lemma getSessionByWindowId_None sessions w :
  getSessionByWindowId sessions w = None ↔ w ∉ sessions.*1.
Proof.
  induction sessions as [| [w0 s0] r IH]; cbn [getSessionByWindowId fmap list_fmap fst].
  - split; [intros _ Hin; by apply elem_of_nil in Hin | done].
  - rewrite not_elem_of_cons. destruct (Z.eqb_spec w0 w) as [-> | Hne].
    + split; [done | by intros [? _]].
    + rewrite IH. naive_solver.
Qed.

Lemma getSessionByWindowId_elem sessions w s :
  getSessionByWindowId sessions w = Some s → (w, s) ∈ sessions.
Proof.
  induction sessions as [| [w0 s0] r IH]; [done |]. cbn [getSessionByWindowId].
  destruct (Z.eqb_spec w0 w) as [-> | Hne].
  - intros [= ->]. left.
  - intros H. right. by apply IH.
Qed.

Lemma getSessionByWindowId_set sessions w s w' :
  getSessionByWindowId (sessions_set sessions w s) w'
  = if (w =? w')%Z then Some s else getSessionByWindowId sessions w'.
Proof.
  induction sessions as [| [w0 s0] r IH]; cbn [sessions_set getSessionByWindowId].
  - by destruct (Z.eqb_spec w w').
  - destruct (Z.eqb_spec w0 w) as [-> | Hne]; cbn [getSessionByWindowId].
    + by destruct (Z.eqb_spec w w').
    + rewrite IH. destruct (Z.eqb_spec w0 w'), (Z.eqb_spec w w'); congruence.
Qed.

Lemma getSessionByWindowId_stop sessions w w' :
  getSessionByWindowId (stopCapture sessions w) w'
  = if (w =? w')%Z then None else getSessionByWindowId sessions w'.
Proof.
  unfold stopCapture.
  induction sessions as [| [w0 s0] r IH]; cbn [List.filter fst getSessionByWindowId].
  - by destruct (w =? w')%Z.
  - destruct (Z.eqb_spec w0 w) as [-> | Hne]; cbn [negb getSessionByWindowId].
    + rewrite IH. by destruct (Z.eqb_spec w w').
    + rewrite IH. destruct (Z.eqb_spec w0 w'), (Z.eqb_spec w w'); congruence.
Qed.

Lemma sessions_set_new sessions w s :
  w ∉ sessions.*1 → sessions_set sessions w s = sessions ++ [(w, s)].
Proof.
  induction sessions as [| [w0 s0] r IH]; [done |].
  cbn [sessions_set fmap list_fmap fst]. intros [Hne Hr]%not_elem_of_cons.
  destruct (Z.eqb_spec w0 w); [congruence |]. by rewrite IH.
Qed.

Lemma same_registration_refl sessions :
  Forall2 same_registration sessions sessions.
Proof. induction sessions; by constructor. Qed.

Lemma sessions_set_same sessions w s s' :
  getSessionByWindowId sessions w = Some s →
  windowId s' = windowId s ∧ rootTabId s' = rootTabId s
  ∧ isCapturing s' = isCapturing s →
  Forall2 same_registration sessions (sessions_set sessions w s').
Proof.
  intros Hs Hf. induction sessions as [| [w0 s0] r IH]; [done |].
  cbn [sessions_set getSessionByWindowId] in *.
  destruct (Z.eqb_spec w0 w) as [-> | Hne].
  - simplify_eq. constructor; [done | apply same_registration_refl].
  - constructor; [done | by apply IH].
Qed.

Lemma update_by_tab_same sessions t (f : SessionState → SessionState) :
  (∀ s, windowId (f s) = windowId s ∧ rootTabId (f s) = rootTabId s
        ∧ isCapturing (f s) = isCapturing s) →
  Forall2 same_registration sessions (update_by_tab sessions t f).
Proof.
  intros Hf. induction sessions as [| [w0 s0] r IH]; [constructor |].
  cbn [update_by_tab]. destruct (decide (t ∈ trackedTabIds s0)).
  - constructor; [split; [done | apply Hf] | apply same_registration_refl].
  - constructor; [done | apply IH].
Qed.

Lemma background_ok_same bg sessions' :
  background_ok bg →
  Forall2 same_registration (background.sessions bg) sessions' →
  background_ok (with_sessions bg sessions').
Proof.
  intros [Hu Ho Hc Hl Hp] Hsame.
  assert (sessions'.*1 = (background.sessions bg).*1) as Hkeys.
  { clear -Hsame. induction Hsame as [| p p' l l' (Hp & _) _ IH]; [done |].
    cbn [fmap list_fmap]. by rewrite Hp, IH. }
  assert (∀ w s', (w, s') ∈ sessions' →
            ∃ s, (w, s) ∈ background.sessions bg
                 ∧ windowId s' = windowId s ∧ rootTabId s' = rootTabId s
                 ∧ isCapturing s' = isCapturing s)
    as Hback.
  { intros w s' Hin. apply list_elem_of_lookup in Hin as [i Hi].
    destruct (Forall2_lookup_r _ _ _ _ _ Hsame Hi)
      as ([w0 s0] & Hi0 & Hk & Hw & Hr & Hc').
    cbn in Hk, Hw, Hr, Hc'. subst w0. exists s0.
    split; [by eapply list_elem_of_lookup_2 | done]. }
  split; cbn [background.sessions background.tabListeners with_sessions].
  - by rewrite Hkeys.
  - intros w s' (s0 & Hin & Hw & _)%Hback. rewrite Hw. by eapply Ho.
  - intros w s' (s0 & Hin & _ & _ & Hc')%Hback Hcap. rewrite Hc' in Hcap.
    by eapply Hc.
  - intros Hlis Hnil. apply (Hl Hlis). destruct (background.sessions bg); [done |].
    subst sessions'. by apply Forall2_nil_inv_r in Hsame.
  - intros w s' (s0 & Hin & _ & Hr & Hc')%Hback. rewrite Hr, Hc'.
    by eapply Hp.
Qed.

Lemma frame_windowId s s' :
  frame_of s' = frame_of s →
  windowId s' = windowId s ∧ rootTabId s' = rootTabId s
  ∧ isCapturing s' = isCapturing s.
Proof. unfold frame_of. by intros [= -> -> _ ->]. Qed.

Lemma background_ok_init : background_ok background_init.
Proof.
  split; cbn.
  - constructor.
  - intros w s Hin. by apply elem_of_nil in Hin.
  - intros w s Hin. by apply elem_of_nil in Hin.
  - done.
  - intros w s Hin. by apply elem_of_nil in Hin.
Qed.

Lemma background_ok_append bg w s lis pending :
  background_ok bg →
  w ∉ (background.sessions bg).*1 →
  windowId s = w →
  (isCapturing s = Some true → lis = true) →
  (background.tabListeners bg = true → lis = true) →
  isCapturing s = Some true
  ∨ (isCapturing s = Some false ∧ rootTabId s = (-1)%Z) →
  background_ok {| background.sessions := background.sessions bg ++ [(w, s)];
                   background.tabListeners := lis;
                   background.pendingTargetTab := pending |}.
Proof.
  intros [Hu Ho Hc Hl Hp] Hnew Hw Hcap Hlis Hkind.
  split; cbn [background.sessions background.tabListeners].
  - rewrite fmap_app. apply NoDup_app. split; [done |].
    cbn [fmap list_fmap fst]. split.
    + intros x Hx [-> | Hx']%elem_of_cons; [done |].
      by apply elem_of_nil in Hx'.
    + apply NoDup_singleton.
  - intros w' s' [Hin | Hin%list_elem_of_singleton]%elem_of_app.
    + by eapply Ho.
    + by simplify_eq.
  - intros w' s' [Hin | Hin%list_elem_of_singleton]%elem_of_app Hcap'.
    + apply Hlis. by eapply Hc.
    + simplify_eq. by apply Hcap.
  - intros _. by destruct (background.sessions bg).
  - intros w' s' [Hin | Hin%list_elem_of_singleton]%elem_of_app.
    + by eapply Hp.
    + by simplify_eq.
Qed.

Lemma background_ok_start bg w t :
  background_ok bg →
  getSessionByWindowId (background.sessions bg) w = None →
  background_ok (startCapture_listeners bg w t).
Proof.
  intros Hok Hnone%getSessionByWindowId_None.
  unfold startCapture_listeners, startCapture.
  rewrite sessions_set_new by done. apply background_ok_append; try done.
  by left.
Qed.

Lemma background_ok_stop bg w :
  background_ok bg → background_ok (stopCapture_listeners bg w).
Proof.
  intros [Hu Ho Hc Hl Hkind]. unfold stopCapture_listeners, stopCapture.
  set (kept := List.filter _ _).
  assert (∀ p, p ∈ kept → p ∈ background.sessions bg) as Hsub.
  { intros p Hp. apply list_elem_of_In, filter_In in Hp as [Hp _].
    by apply list_elem_of_In. }
  split; cbn [background.sessions background.tabListeners].
  - eapply sublist_NoDup; [exact Hu |]. apply fmap_sublist.
    subst kept. clear. induction (background.sessions bg) as [| p l IH]; [done |].
    cbn [List.filter]. destruct (negb _); by constructor.
  - intros w' s Hin%Hsub. by eapply Ho.
  - intros w' s Hin Hcap. pose proof (Hsub _ Hin) as Hin'.
    destruct kept; [by apply elem_of_nil in Hin | by eapply Hc].
  - by destruct kept.
  - intros w' s Hin%Hsub. by eapply Hkind.
Qed.

Lemma background_ok_import now bg w items :
  background_ok bg →
  background_ok
    (with_sessions bg
       (fst (importMessages_handler now (background.sessions bg) w items))).
Proof.
  intros Hok. unfold importMessages_handler.
  destruct (getSessionByWindowId (background.sessions bg) w) as [s |] eqn:Hs.
  - pose proof (frame_importMessages now s items 0) as Hf%frame_windowId.
    destruct (importMessages now s items 0) as [s' n]. cbn [fst] in *.
    apply background_ok_same; [done |]. by eapply sessions_set_same.
  - pose proof (frame_importMessages now
                  (set_isCapturing (createSession w (-1)) false) items 0)
      as (Hw & Hr & Hc)%frame_windowId.
    destruct (importMessages now _ items 0) as [s' n]. cbn [fst] in *.
    apply getSessionByWindowId_None in Hs.
    rewrite sessions_set_new by done. unfold with_sessions.
    apply background_ok_append; [done | done | by rewrite Hw | | done |].
    + rewrite Hc. by cbn.
    + right. by rewrite Hc, Hr.
Qed.

Lemma background_step_ok bg e :
  background_ok bg → background_ok (background_step host bg e).
Proof.
  intros Hok. destruct e as [now w m | w | t | e | d | w e]; cbn [background_step].
  - destruct m; cbn [onMessage fst]; try done.
    + destruct (getSessionByWindowId _ w) eqn:Hs; [done |].
      by apply background_ok_start.
    + by apply background_ok_stop.
    + destruct (getSessionByWindowId _ w) as [s |] eqn:Hs; [| done].
      apply background_ok_same; [done |]. by eapply sessions_set_same.
    + pose proof (background_ok_import now bg w items Hok) as H.
      by destruct (importMessages_handler _ _ _ _), o.
  - unfold onWindowRemoved. destruct (getSessionByWindowId _ w); [| done].
    by apply background_ok_stop.
  - unfold onClicked. destruct t as [t |]; [| done].
    destruct (tab.id t =? 0)%Z; [done |]. by destruct Hok.
  - destruct (background.tabListeners bg); [| done].
    apply background_ok_same; [done |].
    destruct e as [t | t]; cbn [tab_step].
    + unfold onTabCreated. destruct (background.sessions bg) eqn:Hb;
        [constructor |]. rewrite <- Hb.
      destruct (truthy_id _); [| apply same_registration_refl].
      by apply update_by_tab_same.
    + by apply update_by_tab_same.
  - apply background_ok_same; [done |]. apply update_by_tab_same.
    intros s. apply frame_windowId, frame_attachResponseData.
  - apply background_ok_same; [done |]. unfold commit.
    destruct (getSessionByWindowId _ w) as [s |] eqn:Hs;
      [| apply same_registration_refl].
    destruct (is_commit e) eqn:He; [| apply same_registration_refl].
    pose proof (frame_step host s e) as Hf.
    destruct e; try done; apply frame_windowId in Hf;
      by eapply sessions_set_same.
Qed.

Lemma background_run_ok bg es :
  background_ok bg → background_ok (background_run host bg es).
Proof.
  revert bg. induction es as [| e es IH]; intros bg Hok; [done |].
  cbn [background_run fold_left]. apply IH. by apply background_step_ok.
Qed.

Lemma background_reachable_ok bg :
  background_reachable host bg → background_ok bg.
Proof. intros [es ->]. apply background_run_ok, background_ok_init. Qed.

Lemma stopCapture_absent sessions w :
  w ∉ sessions.*1 → stopCapture sessions w = sessions.
Proof.
  unfold stopCapture. induction sessions as [| [w0 s0] r IH]; [done |].
  cbn [fmap list_fmap fst List.filter]. intros [Hne Hr]%not_elem_of_cons.
  destruct (Z.eqb_spec w0 w); [congruence |]. cbn [negb]. by rewrite IH.
Qed.

Lemma getSessionByWindowId_Some sessions w s :
  NoDup sessions.*1 → (w, s) ∈ sessions →
  getSessionByWindowId sessions w = Some s.
Proof.
  induction sessions as [| [w0 s0] r IH]; cbn [fmap list_fmap fst].
  - intros _ Hin. by apply elem_of_nil in Hin.
  - intros [Hnotin Hr]%NoDup_cons [Hin | Hin]%elem_of_cons;
      cbn [getSessionByWindowId].
    + simplify_eq. by rewrite Z.eqb_refl.
    + destruct (Z.eqb_spec w0 w) as [-> | Hne]; [| by apply IH].
      destruct Hnotin. apply list_elem_of_fmap. by exists (w, s).
Qed.

End Registry.

(** X17. In every state the background page reaches, each session is
    registered under its own window id and is the one [getSessionByWindowId]
    returns for it; it is either capturing, and then the tab listeners are
    registered, or it is the placeholder of an import, not capturing and
    with root tab -1. The tab listeners are registered only while the
    registry holds a session. *)
Theorem registry_consistent
    (host : Host) (bg : background.t) (w : Z) (s : SessionState) :
  background_reachable host bg →
  (w, s) ∈ background.sessions bg →
  windowId s = w
  ∧ getSessionByWindowId (background.sessions bg) w = Some s
  ∧ (isCapturing s = Some true ∧ background.tabListeners bg = true
     ∨ isCapturing s = Some false ∧ rootTabId s = (-1)%Z)
  ∧ (background.tabListeners bg = false ∨ background.sessions bg ≠ []).
Proof.
  intros [Hu Ho Hc Hl Hkind]%background_reachable_ok Hin.
  split; [by eapply Ho |]. split; [by apply getSessionByWindowId_Some |].
  split.
  - destruct (Hkind w s Hin) as [Hcap | Himp]; [left | by right].
    split; [done | by eapply Hc].
  - destruct (background.tabListeners bg); [right; by apply Hl | by left].
Qed.

(** X17 at the capturing window of the sample run. *)
Lemma registry_consistent_witness :
  background_reachable get_host tracer_background
  ∧ (1%Z, set_isCapturing get_completed_session true) ∈ background.sessions tracer_background
  ∧ getSessionByWindowId (background.sessions tracer_background) 1
    = Some (set_isCapturing get_completed_session true).
Proof.
  assert (background_reachable get_host tracer_background) as Hreach
    by (by exists tracer_events).
  assert ((1%Z, set_isCapturing get_completed_session true) ∈ background.sessions tracer_background)
    as Hin.
  { assert (background.sessions tracer_background !! 0%nat
            = Some (1%Z, set_isCapturing get_completed_session true)) as H
      by (vm_compute; reflexivity).
    by eapply list_elem_of_lookup_2. }
  split; [exact Hreach |]. split; [exact Hin |].
  exact (proj1 (proj2 (registry_consistent get_host tracer_background 1
                         (set_isCapturing get_completed_session true)
                         Hreach Hin))).
Defined.

(** X18. In every state the background page reaches, closing a tracer
    window has the effect of its [stopCapture] message. Afterwards the
    window has no session, the sessions of the other windows are as before,
    and [getState] reports the window as not capturing, without a root
    tab, tabs or messages. *)
Theorem window_removed_is_stopCapture
    (host : Host) (bg : background.t) (now : string) (w : Z) :
  background_reachable host bg →
  let bg' := onWindowRemoved bg w in
  bg' = fst (onMessage now bg w msg.stopCapture)
  ∧ getSessionByWindowId (background.sessions bg') w = None
  ∧ (∀ w', w' ≠ w →
       getSessionByWindowId (background.sessions bg') w'
       = getSessionByWindowId (background.sessions bg) w')
  ∧ snd (onMessage now bg' w msg.getState) = reply.state false None 0 0.
Proof.
  intros [Hu Ho Hc Hl _]%background_reachable_ok bg'.
  assert (bg' = stopCapture_listeners bg w) as ->.
  { subst bg'. unfold onWindowRemoved.
    destruct (getSessionByWindowId _ w) eqn:Hs; [done |].
    apply getSessionByWindowId_None in Hs.
    unfold stopCapture_listeners. rewrite stopCapture_absent by done.
    destruct bg as [sessions lis pending]. cbn in *.
    destruct sessions; [| done]. by destruct lis; [destruct Hl |]. }
  assert (∀ w', getSessionByWindowId
                  (background.sessions (stopCapture_listeners bg w)) w'
                = if (w =? w')%Z then None
                  else getSessionByWindowId (background.sessions bg) w') as Hget.
  { intros w'. apply getSessionByWindowId_stop. }
  split; [done |]. split; [| split].
  - by rewrite Hget, Z.eqb_refl.
  - intros w' Hne. rewrite Hget. by destruct (Z.eqb_spec w w').
  - cbn [onMessage snd]. by rewrite Hget, Z.eqb_refl.
Qed.

(** X18 at the capturing window of the sample run. *)
Lemma window_removed_is_stopCapture_witness :
  background_reachable get_host tracer_background
  ∧ onWindowRemoved tracer_background 1
    = fst (onMessage sample_now tracer_background 1 msg.stopCapture).
Proof.
  assert (background_reachable get_host tracer_background) as Hreach
    by (by exists tracer_events).
  split; [exact Hreach |].
  exact (proj1 (window_removed_is_stopCapture get_host tracer_background
                  sample_now 1 Hreach)).
Defined.

(** X19. A [startCapture] message always answers that the window is
    capturing. For a window without a session it registers a new
    capturing session rooted at the given tab, after the sessions of the
    other windows, and the tab listeners; for a window that has a session,
    capturing or not, it changes nothing. The sessions of the other
    windows are never touched. *)
Theorem startCapture_message
    (now : string) (bg : background.t) (w t : Z) :
  let bg' := fst (onMessage now bg w (msg.startCapture t)) in
  snd (onMessage now bg w (msg.startCapture t)) = reply.capturing true
  ∧ (getSessionByWindowId (background.sessions bg) w = None →
       background.sessions bg'
       = background.sessions bg
           ++ [(w, set_isCapturing (createSession w t) true)]
       ∧ getSessionByWindowId (background.sessions bg') w
         = Some (set_isCapturing (createSession w t) true)
       ∧ getSessionByTabId (background.sessions bg') t ≠ None
       ∧ background.tabListeners bg' = true)
  ∧ (is_Some (getSessionByWindowId (background.sessions bg) w) → bg' = bg)
  ∧ (∀ w', w' ≠ w →
       getSessionByWindowId (background.sessions bg') w'
       = getSessionByWindowId (background.sessions bg) w').
Proof.
  intros bg'. subst bg'. cbn [onMessage fst snd]. split; [done |].
  destruct (getSessionByWindowId (background.sessions bg) w) as [s |] eqn:Hs.
  - split; [done |]. split; [done |]. done.
  - cbn [startCapture_listeners background.sessions background.tabListeners].
    unfold startCapture. split; [intros _ | split; [by intros [? ?] |]].
    + split; [apply sessions_set_new; by apply getSessionByWindowId_None |].
      split; [by rewrite getSessionByWindowId_set, Z.eqb_refl |].
      split; [| done].
      rewrite sessions_set_new by by apply getSessionByWindowId_None.
      intros Hnone. apply getSessionByTabId_tracking in Hnone.
      unfold tracking in Hnone. rewrite List.filter_app, fmap_app in Hnone.
      apply app_eq_nil in Hnone as [_ Hnone]. cbn in Hnone.
      rewrite bool_decide_eq_true_2 in Hnone by set_solver. done.
    + intros w' Hne. rewrite getSessionByWindowId_set.
      by destruct (Z.eqb_spec w w').
Qed.

(** X20. An import for a window without a session registers a session
    for it that is not capturing and whose root and only tracked tab is
    the placeholder -1, after the sessions of the other windows and
    without registering the tab listeners. From then on the tab id -1 is
    in the scope of a session, a [startCapture] message for the window
    changes nothing although it answers that the window is capturing, and
    [getState] keeps reporting the window as not capturing with root tab
    -1. *)
Theorem import_without_session
    (now : string) (bg : background.t) (w t : Z) (items : list import_item) :
  getSessionByWindowId (background.sessions bg) w = None →
  let bg' := fst (onMessage now bg w (msg.importMessages items)) in
  ∃ s', background.sessions bg' = background.sessions bg ++ [(w, s')]
    ∧ frame_of s' = (w, (-1)%Z, {[ (-1)%Z ]}, Some false)
    ∧ background.tabListeners bg' = background.tabListeners bg
    ∧ tracking (background.sessions bg') (-1)
      = tracking (background.sessions bg) (-1) ++ [w]
    ∧ onMessage now bg' w (msg.startCapture t) = (bg', reply.capturing true)
    ∧ snd (onMessage now bg' w msg.getState)
      = reply.state false (Some (-1)%Z) 1 (length (messages s')).
Proof.
  intros Hnone bg'. subst bg'. cbn [onMessage]. unfold importMessages_handler.
  rewrite Hnone.
  pose proof (frame_importMessages now
                (set_isCapturing (createSession w (-1)) false) items 0) as Hf.
  destruct (importMessages now _ items 0) as [s' n]. cbn [fst] in Hf.
  change (frame_of (set_isCapturing (createSession w (-1)) false))
    with (w, (-1)%Z, ({[ (-1)%Z ]} : gset Z), Some false) in Hf.
  exists s'. cbn [fst with_sessions background.sessions background.tabListeners].
  assert (getSessionByWindowId (sessions_set (background.sessions bg) w s') w
          = Some s') as Hget by (by rewrite getSessionByWindowId_set, Z.eqb_refl).
  rewrite Hget. unfold frame_of in Hf. injection Hf as Hw Hr Ht Hc.
  rewrite sessions_set_new by by apply getSessionByWindowId_None.
  split; [done |]. split; [unfold frame_of; congruence |]. split; [done |].
  split; [| split].
  - unfold tracking. rewrite List.filter_app, fmap_app. f_equal. cbn.
    rewrite bool_decide_eq_true_2; [done |]. rewrite Ht. set_solver.
  - done.
  - cbn [snd]. rewrite Hc, Hr, Ht. cbn [default]. by rewrite size_singleton.
Qed.

(** X20 at the first import into a fresh background page. *)
Lemma import_without_session_witness :
  getSessionByWindowId (background.sessions background_init) 2 = None
  ∧ ∃ s', background.sessions
            (fst (onMessage sample_now background_init 2
                    (msg.importMessages [ItemObject (Some "<Response/>")])))
          = [(2%Z, s')]
          ∧ frame_of s' = (2%Z, (-1)%Z, {[ (-1)%Z ]}, Some false).
Proof.
  assert (getSessionByWindowId (background.sessions background_init) 2 = None)
    as Hnone by reflexivity.
  split; [exact Hnone |].
  destruct (import_without_session sample_now background_init 2 7
              [ItemObject (Some "<Response/>")] Hnone)
    as (s' & Hs & Hf & _).
  exists s'. split; [exact Hs | exact Hf].
Defined.

(** X21. Choosing a tab in the selector of a tracer window, in a state
    the background page has reached: a window without a session, or with
    a capturing session rooted at another tab, afterwards has a new
    capturing session rooted at the chosen tab, with no messages and the
    counter at 1; a capturing session rooted at the chosen tab is kept;
    and a window whose session only holds imported messages stays as it
    is, not capturing. The sessions of the other windows are as before. *)
Theorem tabSelector_change_tab
    (host : Host) (now : string) (bg : background.t) (w t : Z) :
  background_reachable host bg →
  let bg' := tabSelector_change now bg w (SelectTab t) in
  let fresh := set_isCapturing (createSession w t) true in
  (getSessionByWindowId (background.sessions bg) w = None →
     getSessionByWindowId (background.sessions bg') w = Some fresh)
  ∧ (∀ s, getSessionByWindowId (background.sessions bg) w = Some s →
       (isCapturing s = Some true → rootTabId s ≠ t →
          getSessionByWindowId (background.sessions bg') w = Some fresh)
       ∧ (isCapturing s = Some true → rootTabId s = t → bg' = bg)
       ∧ (isCapturing s ≠ Some true →
            bg' = bg ∧ isCapturing s = Some false ∧ rootTabId s = (-1)%Z))
  ∧ (∀ w', w' ≠ w →
       getSessionByWindowId (background.sessions bg') w'
       = getSessionByWindowId (background.sessions bg) w').
Proof.
  intros Hok%background_reachable_ok bg' fresh. subst bg'.
  unfold tabSelector_change. cbn [onMessage fst snd].
  assert (∀ w', getSessionByWindowId
                  (background.sessions
                     (startCapture_listeners (stopCapture_listeners bg w) w t)) w'
                = if (w =? w')%Z then Some fresh
                  else getSessionByWindowId (background.sessions bg) w')
    as Hrestart.
  { intros w'. cbn [startCapture_listeners stopCapture_listeners
                    background.sessions]. unfold startCapture.
    rewrite getSessionByWindowId_set, getSessionByWindowId_stop.
    by destruct (w =? w')%Z. }
  assert (getSessionByWindowId
            (background.sessions (stopCapture_listeners bg w)) w = None)
    as Hstopped.
  { cbn [stopCapture_listeners background.sessions].
    by rewrite getSessionByWindowId_stop, Z.eqb_refl. }
  destruct (getSessionByWindowId (background.sessions bg) w) as [s |] eqn:Hs.
  - pose proof (getSessionByWindowId_elem _ _ _ Hs) as Hin.
    destruct (bo_placeholder bg Hok w s Hin) as [Hcap | [Hcap Hroot]];
      rewrite Hcap;
      [change (default false (Some true)) with true
      | change (default false (Some false)) with false]; cbv iota.
    + destruct (decide (Some (rootTabId s) = Some t)) as [Heq | Hne].
      * split; [done |]. split; [| done]. intros s' [= <-].
        split; [intros _ Hne; by simplify_eq |]. split; [done |].
        intros Hnot. by destruct Hnot.
      * rewrite Hstopped. split; [done |]. split.
        -- intros s' [= <-]. split; [| split].
           ++ intros _ _. by rewrite Hrestart, Z.eqb_refl.
           ++ intros _ Heq. destruct Hne. by rewrite Heq.
           ++ intros Hnot. by destruct Hnot.
        -- intros w' Hw'. rewrite Hrestart. by destruct (Z.eqb_spec w w').
    + rewrite Hs.
      assert ((if decide (Some (rootTabId s) = Some t) then bg else bg) = bg)
        as -> by (by destruct (decide _)).
      split; [done |]. split; [| done]. intros s' [= <-].
      split; [intros Hc; congruence |]. split; [intros Hc; congruence | done].
  - destruct (decide (None = Some t)) as [Heq | _]; [done |]. rewrite Hs.
    cbn [startCapture_listeners background.sessions]. unfold startCapture.
    split; [| split; [done |]].
    + intros _. by rewrite getSessionByWindowId_set, Z.eqb_refl.
    + intros w' Hw'. rewrite getSessionByWindowId_set.
      by destruct (Z.eqb_spec w w').
Qed.

(** X21 at the capturing window of the sample run, moved to tab 9. *)
Lemma tabSelector_change_tab_witness :
  background_reachable get_host tracer_background
  ∧ getSessionByWindowId
      (background.sessions
         (tabSelector_change sample_now tracer_background 1 (SelectTab 9))) 2
    = getSessionByWindowId (background.sessions tracer_background) 2.
Proof.
  assert (background_reachable get_host tracer_background) as Hreach
    by (by exists tracer_events).
  split; [exact Hreach |].
  destruct (tabSelector_change_tab get_host sample_now tracer_background 1 9
              Hreach) as (_ & _ & Hother).
  apply Hother. lia.
Defined.

(** X22. A message on the control channel, the closing of a window and
    the commit of a capture act on the session of their own window only:
    whatever the message or the capture, the session registered for any
    other window is the same afterwards. A click on the browser action
    touches no session at all. *)
Theorem other_windows_untouched
    (host : Host) (bg : background.t) (now : string) (w w' : Z)
    (m : msg.t) (e : event) (t : option tab.t) (ev : background_event) :
  w' ≠ w →
  ev ∈ [Control now w m; WindowRemoved w; Commit w e; Clicked t] →
  getSessionByWindowId (background.sessions (background_step host bg ev)) w'
  = getSessionByWindowId (background.sessions bg) w'.
Proof.
  intros Hne Hev.
  assert (∀ s, getSessionByWindowId
                 (sessions_set (background.sessions bg) w s) w'
               = getSessionByWindowId (background.sessions bg) w') as Hset.
  { intros s. rewrite getSessionByWindowId_set.
    by destruct (Z.eqb_spec w w'). }
  assert (getSessionByWindowId
            (background.sessions (stopCapture_listeners bg w)) w'
          = getSessionByWindowId (background.sessions bg) w') as Hstop.
  { cbn [stopCapture_listeners background.sessions].
    rewrite getSessionByWindowId_stop. by destruct (Z.eqb_spec w w'). }
  repeat (apply elem_of_cons in Hev as [-> | Hev]);
    [| | | | by apply elem_of_nil in Hev]; cbn [background_step].
  - destruct m; cbn [onMessage fst]; try done.
    + destruct (getSessionByWindowId _ w); [done |]. apply Hset.
    + destruct (getSessionByWindowId _ w); [apply Hset | done].
    + unfold importMessages_handler.
      destruct (importMessages now _ items 0) as [s' n]. apply Hset.
  - unfold onWindowRemoved. by destruct (getSessionByWindowId _ w).
  - cbn [with_sessions background.sessions]. unfold commit.
    destruct (getSessionByWindowId _ w); [| done].
    destruct (is_commit e); [apply Hset | done].
  - unfold onClicked. destruct t as [t |]; [| done].
    by destruct (tab.id t =? 0)%Z.
Qed.

(** X22 at a [clearMessages] message for window 2 of the sample run, seen
    from the capturing window 1. *)
Lemma other_windows_untouched_witness :
  getSessionByWindowId
    (background.sessions
       (background_step get_host tracer_background
          (Control sample_now 2 msg.clearMessages))) 1
  = getSessionByWindowId (background.sessions tracer_background) 1.
Proof.
  apply (other_windows_untouched get_host tracer_background sample_now 2 1
           msg.clearMessages ClearMessages None).
  - lia.
  - left.
Defined.

(** ** The artifact text *)

Section Artifact.

Lemma append_inv_tail (x y suffix : string) :
  x +:+ suffix = y +:+ suffix → x = y.
Proof.
  revert y. induction x as [| c x IH]; intros [| d y] H; [done | | |].
  - apply (f_equal String.length) in H. rewrite !length_append in H.
    cbn [String.length] in H. lia.
  - apply (f_equal String.length) in H. rewrite !length_append in H.
    cbn [String.length] in H. lia.
  - change (String c (x +:+ suffix) = String d (y +:+ suffix)) in H.
    injection H as -> H. f_equal. by apply IH.
Qed.

Lemma escape_artifact_cons c r :
  escape_artifact (String c r)
  = if Ascii.eqb c "<"
    then String "&" (String "l" (String "t" (String ";" (escape_artifact r))))
    else if Ascii.eqb c ">"
    then String "&" (String "g" (String "t" (String ";" (escape_artifact r))))
    else if Ascii.eqb c "&"
    then String "&" (String "a" (String "m" (String "p" (String ";"
           (escape_artifact r)))))
    else String c (escape_artifact r).
Proof. reflexivity. Qed.

Lemma escape_artifact_inj a b :
  escape_artifact a = escape_artifact b → a = b.
Proof.
  revert b. induction a as [| c a IH]; intros [| d b].
  - done.
  - rewrite escape_artifact_cons. cbn [escape_artifact].
    by repeat destruct (Ascii.eqb d _).
  - rewrite escape_artifact_cons. cbn [escape_artifact].
    by repeat destruct (Ascii.eqb c _).
  - rewrite !escape_artifact_cons.
    destruct (Ascii.eqb_spec c "<") as [-> | Hc1];
      [| destruct (Ascii.eqb_spec c ">") as [-> | Hc2];
         [| destruct (Ascii.eqb_spec c "&") as [-> | Hc3]]];
      (destruct (Ascii.eqb_spec d "<") as [-> | Hd1];
       [| destruct (Ascii.eqb_spec d ">") as [-> | Hd2];
          [| destruct (Ascii.eqb_spec d "&") as [-> | Hd3]]]);
      intros H; simplify_eq; try done; f_equal; by apply IH.
Qed.

Lemma escape_artifact_no_angle a :
  all_chars no_angle (escape_artifact a) = true.
Proof.
  induction a as [| c a IH]; [done |]. rewrite escape_artifact_cons.
  unfold no_angle in *.
  destruct (Ascii.eqb_spec c "<") as [-> | Hc1];
    [| destruct (Ascii.eqb_spec c ">") as [-> | Hc2];
       [| destruct (Ascii.eqb_spec c "&") as [-> | Hc3]]];
    cbn [all_chars]; rewrite IH; try done.
  destruct (Ascii.eqb_spec c "<"), (Ascii.eqb_spec c ">"); done.
Qed.

Lemma makeArtifactXML_unfold a :
  makeArtifactXML a
  = "<!-- SAMLArtifact: " +:+ escape_artifact a +:+
    " (Note: Full assertion not available via Artifact binding) -->".
Proof. reflexivity. Qed.

End Artifact.

(** X23. The text made for an artifact is the fixed opening of a comment,
    the artifact with [<], [>] and [&] replaced, and the fixed note that
    closes the comment. The replaced artifact holds no [<] and no [>], so
    it cannot close the comment, and the replacement loses nothing:
    different artifacts give different texts and different dedup keys. *)
Theorem makeArtifactXML_escapes (a b : string) :
  makeArtifactXML a
  = "<!-- SAMLArtifact: " +:+ escape_artifact a +:+
    " (Note: Full assertion not available via Artifact binding) -->"
  ∧ all_chars no_angle (escape_artifact a) = true
  ∧ (makeArtifactXML a = makeArtifactXML b ↔ a = b)
  ∧ (makeDedupKey "SAMLArtifact" (makeArtifactXML a)
     = makeDedupKey "SAMLArtifact" (makeArtifactXML b) ↔ a = b).
Proof.
  assert (makeArtifactXML a = makeArtifactXML b → a = b) as Hinj.
  { rewrite !makeArtifactXML_unfold. intros H.
    apply (inj (String.app "<!-- SAMLArtifact: ")) in H.
    by apply append_inv_tail, escape_artifact_inj in H. }
  split; [apply makeArtifactXML_unfold |].
  split; [apply escape_artifact_no_angle |].
  split; [split; [done | by intros ->] |].
  split; [| by intros ->]. unfold makeDedupKey. intros H.
  apply (inj (String.app "SAMLArtifact")) in H.
  apply (inj (String.app "|")) in H. by apply Hinj.
Qed.

(** ** Values the base64 heuristic accepts *)

Section AcceptedBase64.

Lemma base64_char_value c :
  is_base64_char c = true → Ascii.eqb c "=" = false →
  ∃ n, n < 64 ∧ c = b64_char n.
Proof.
  set (ok := λ c, implb (is_base64_char c && negb (Ascii.eqb c "="))
                    match b64_value c with
                    | Some n => (n <? 64) && Ascii.eqb (b64_char n) c
                    | None => false
                    end).
  assert (forallb ok (List.map (λ k, ascii_of_N (N.of_nat k)) (seq 0 256))
          = true) as Hall by (by vm_compute).
  rewrite forallb_forall in Hall.
  assert (ok c = true) as Hok.
  { apply Hall. rewrite <- (ascii_N_embedding c), <- (N2Nat.id (N_of_ascii c)).
    apply (in_map (λ k, ascii_of_N (N.of_nat k))), in_seq.
    pose proof (N_ascii_bounded c). lia. }
  intros H1 H2. unfold ok in Hok. rewrite H1, H2 in Hok. cbn [negb andb implb] in Hok.
  destruct (b64_value c) as [n |]; [| done].
  apply andb_prop in Hok as [Hn%N.ltb_lt Hc%Ascii.eqb_eq]. by exists n.
Qed.

Lemma base64_chars_values body :
  all_chars is_base64_char body = true →
  all_chars (λ c, negb (Ascii.eqb c "=")) body = true →
  ∃ ss, Forall (λ n, n < 64) ss
        ∧ list_ascii_of_string body = List.map b64_char ss.
Proof.
  induction body as [| c body IH]; cbn [all_chars].
  - intros _ _. by exists [].
  - intros [Hc Hb]%andb_prop [Hne%negb_true_iff Hnb]%andb_prop.
    destruct (IH Hb Hnb) as (ss & Hss & Heq).
    destruct (base64_char_value c Hc Hne) as (n & Hn & ->).
    exists (n :: ss). split; [by constructor |].
    cbn [list_ascii_of_string List.map]. by rewrite Heq.
Qed.

Lemma all_chars_append p a b :
  all_chars p (a +:+ b) = all_chars p a && all_chars p b.
Proof.
  induction a as [| c a IH]; [done |].
  change (String c a +:+ b) with (String c (a +:+ b)). cbn [all_chars].
  by rewrite IH, andb_assoc.
Qed.

Lemma list_ascii_of_append a b :
  list_ascii_of_string (a +:+ b)
  = list_ascii_of_string a ++ list_ascii_of_string b.
Proof.
  induction a as [| c a IH]; [done |].
  change (String c a +:+ b) with (String c (a +:+ b)).
  cbn [list_ascii_of_string app]. by rewrite IH.
Qed.

Lemma length_list_ascii s : length (list_ascii_of_string s) = String.length s.
Proof. induction s as [| c s IH]; [done |]. cbn. by rewrite IH. Qed.

Lemma list_ind4 {A} (P : list A → Prop) :
  P [] → (∀ a, P [a]) → (∀ a b, P [a; b]) → (∀ a b c, P [a; b; c]) →
  (∀ a b c d r, P r → P (a :: b :: c :: d :: r)) →
  ∀ l, P l.
Proof.
  intros H0 H1 H2 H3 H4.
  assert (∀ l, P l ∧ (∀ a, P (a :: l)) ∧ (∀ a b, P (a :: b :: l))
               ∧ (∀ a b c, P (a :: b :: c :: l))) as H.
  { induction l as [| d l (IH0 & IH1 & IH2 & IH3)]; [by auto |].
    split; [apply IH1 |]. split; [intros a; apply IH2 |].
    split; [intros a b; apply IH3 |]. intros a b c. by apply H4. }
  intros l. apply H.
Qed.

Lemma bytes_of_sextets_length ss :
  length (bytes_of_sextets ss)
  = (3 * (length ss / 4) + (length ss mod 4 - 1))%nat.
Proof.
  induction ss as [| a | a b | a b c | a b c d r IH] using list_ind4;
    try (by vm_compute).
  cbn [bytes_of_sextets length]. rewrite IH.
  change (S (S (S (S (length r))))) with (4 + length r)%nat.
  rewrite add_four_mod.
  replace ((4 + length r) / 4)%nat with (1 + length r / 4)%nat; [lia |].
  replace (4 + length r)%nat with (length r + 1 * 4)%nat by lia.
  rewrite Nat.div_add by done. lia.
Qed.

Lemma accepted_decode body pad ss :
  Forall (λ n, n < 64) ss →
  list_ascii_of_string body = List.map b64_char ss →
  is_padding (list_ascii_of_string pad) →
  (String.length (body +:+ pad) mod 4 = 0)%nat →
  b64ToBytes (body +:+ pad)
  = Some (List.map (λ n, byte_of_ascii (ascii_of_N n)) (bytes_of_sextets ss)).
Proof.
  intros Hss Hbody Hpad Hlen.
  assert (length ss = String.length body) as Hlss.
  { by rewrite <- length_list_ascii, Hbody, length_map. }
  assert ((String.length pad ≤ 2)%nat) as Hlpad.
  { rewrite <- length_list_ascii.
    destruct Hpad as [-> | [-> | ->]]; cbn; lia. }
  rewrite length_append in Hlen.
  unfold b64ToBytes, atob, forgiving_decode, strip_padding.
  rewrite list_ascii_of_append, Hbody.
  rewrite remove_whitespace_encoded by done.
  rewrite length_app, length_map, Hlss, length_list_ascii, Hlen.
  cbn [Nat.eqb]. rewrite drop_trailing_equals_encoded by done.
  rewrite length_map, Hlss.
  destruct (Nat.eqb_spec (String.length body mod 4) 1) as [Hone |].
  { exfalso. revert Hlen Hone Hlpad. clear.
    generalize (String.length body) (String.length pad). intros x y H0 H1 Hy.
    rewrite (Nat.div_mod_eq x 4), H1 in H0.
    replace (4 * (x / 4) + 1 + y)%nat with ((1 + y) + (x / 4) * 4)%nat in H0
      by lia.
    rewrite Nat.Div0.mod_add in H0.
    destruct y as [| [| [| y]]]; [by vm_compute in H0.. | lia]. }
  rewrite sextets_of_chars by done. cbn [fmap option_fmap option_map].
  rewrite list_ascii_of_string_of_list_ascii. by rewrite List.map_map.
Qed.

End AcceptedBase64.

(** X24. A value the base64 heuristic accepts whose [=] signs, if it has
    any, are one or two at its end is always decoded by [b64ToBytes]: to
    three bytes for every four characters, less one for each [=], which is
    ten bytes or more. [decodeSAML] without inflation then returns the
    text of those bytes, unless it is empty. *)
Theorem accepted_base64_decodes (host : Host) (body pad : string) :
  looksLikeBase64 (body +:+ pad) = true →
  all_chars (λ c, negb (Ascii.eqb c "=")) body = true →
  pad ∈ [""; "="; "=="] →
  ∃ bytes,
    b64ToBytes (body +:+ pad) = Some bytes
    ∧ length bytes
      = (3 * (String.length (body +:+ pad) / 4) - String.length pad)%nat
    ∧ (10 ≤ length bytes)%nat
    ∧ decodeSAML host (body +:+ pad) false
      = text_or_null (Some (TextDecoder_decode host bytes)).
Proof.
  intros Hlooks Hbody Hpad. unfold looksLikeBase64 in Hlooks.
  destruct (negb (truthy _) || _) eqn:Hshort; [done |].
  apply orb_false_elim in Hshort as [_ Hmin%Nat.ltb_ge].
  destruct (all_chars is_base64_char (body +:+ pad)) eqn:Hall; [| done].
  cbn [negb] in Hlooks. apply Nat.eqb_eq in Hlooks.
  rewrite all_chars_append in Hall. apply andb_prop in Hall as [Hall _].
  destruct (base64_chars_values body Hall Hbody) as (ss & Hss & Hchars).
  assert (is_padding (list_ascii_of_string pad)) as Hpadding.
  { unfold is_padding.
    repeat (apply elem_of_cons in Hpad as [-> | Hpad]); [by auto.. |].
    by apply elem_of_nil in Hpad. }
  assert ((String.length pad ≤ 2)%nat) as Hlpad.
  { rewrite <- length_list_ascii.
    destruct Hpadding as [-> | [-> | ->]]; cbn; lia. }
  pose proof (accepted_decode body pad ss Hss Hchars Hpadding Hlooks) as Hdec.
  eexists. split; [exact Hdec |].
  assert (length ss = String.length body) as Hlss.
  { by rewrite <- length_list_ascii, Hchars, length_map. }
  assert (length (List.map (λ n, byte_of_ascii (ascii_of_N n))
                    (bytes_of_sextets ss))
          = (3 * (String.length (body +:+ pad) / 4) - String.length pad)%nat)
    as Hlen.
  { rewrite length_map, bytes_of_sextets_length, Hlss.
    rewrite length_append in *. revert Hlooks Hlpad. clear.
    generalize (String.length body) (String.length pad). intros x y H0 Hy.
    pose proof (Nat.div_mod_eq (x + y) 4) as Hxy. rewrite H0 in Hxy.
    pose proof (Nat.div_mod_eq x 4) as Hx.
    pose proof (Nat.mod_upper_bound x 4 ltac:(lia)) as Hb.
    destruct y as [| [| [| y]]]; [| | | lia]; lia. }
  split; [exact Hlen |]. split.
  - rewrite Hlen. rewrite length_append in *. unfold MIN_BASE64_LENGTH in Hmin.
    pose proof (Nat.div_mod_eq (String.length body + String.length pad) 4).
    lia.
  - unfold decodeSAML, bytesToUtf8. by rewrite Hdec.
Qed.

(** X24 at the value of the sample response header. *)
Lemma accepted_base64_decodes_witness :
  looksLikeBase64 ("PFJlc3BvbnNlLz4" +:+ "=") = true
  ∧ ∃ bytes, b64ToBytes ("PFJlc3BvbnNlLz4" +:+ "=") = Some bytes
             ∧ length bytes = 11%nat.
Proof.
  assert (looksLikeBase64 ("PFJlc3BvbnNlLz4" +:+ "=") = true) as Hlooks
    by (vm_compute; reflexivity).
  split; [exact Hlooks |].
  destruct (accepted_base64_decodes bare_host "PFJlc3BvbnNlLz4" "=" Hlooks)
    as (bytes & Hdec & Hlen & _).
  - vm_compute; reflexivity.
  - right. left.
  - exists bytes. split; [exact Hdec | exact Hlen].
Defined.

(** ** The sessions of the registry *)

Section Lifting.
Context (host : Host).
Implicit Types (sessions : registry) (s : SessionState) (bg : background.t).

Lemma reachable_step s e : reachable host s → reachable host (step host s e).
Proof.
  intros (w & r & es & ->). exists w, r, (es ++ [e]).
  unfold run. by rewrite fold_left_app.
Qed.

Lemma reachable_created w r b :
  reachable host (set_isCapturing (createSession w r) b).
Proof. by exists w, r, [Capturing b]. Qed.

Lemma sessions_set_Forall (P : SessionState → Prop) sessions w s :
  Forall (λ p, P (snd p)) sessions → P s →
  Forall (λ p, P (snd p)) (sessions_set sessions w s).
Proof.
  intros Hall Hs. induction Hall as [| [w0 s0] r Hp Hr IH];
    cbn [sessions_set]; [by repeat constructor |].
  destruct (Z.eqb_spec w0 w); by constructor.
Qed.

Lemma update_by_tab_Forall (P : SessionState → Prop) sessions t f :
  Forall (λ p, P (snd p)) sessions → (∀ s, P s → P (f s)) →
  Forall (λ p, P (snd p)) (update_by_tab sessions t f).
Proof.
  intros Hall Hf. induction Hall as [| [w0 s0] r Hp Hr IH];
    cbn [update_by_tab]; [constructor |].
  destruct (decide _); constructor; try done. by apply Hf.
Qed.

Lemma background_step_reachable bg e :
  Forall (λ p, reachable host (snd p)) (background.sessions bg) →
  Forall (λ p, reachable host (snd p))
    (background.sessions (background_step host bg e)).
Proof.
  intros Hall.
  assert (∀ w s, getSessionByWindowId (background.sessions bg) w = Some s →
            reachable host s) as Hget.
  { intros w s Hs%getSessionByWindowId_elem.
    rewrite Forall_forall in Hall. apply (Hall (w, s) Hs). }
  assert (∀ w, Forall (λ p, reachable host (snd p))
                 (stopCapture (background.sessions bg) w)) as Hstop.
  { intros w. unfold stopCapture. rewrite Forall_forall in *.
    intros p Hp%list_elem_of_In%filter_In. apply Hall, list_elem_of_In, Hp. }
  destruct e as [now w m | w | t | e | d | w e]; cbn [background_step].
  - destruct m; cbn [onMessage fst]; try done.
    + destruct (getSessionByWindowId _ w); [done |].
      apply sessions_set_Forall; [done | apply reachable_created].
    + apply Hstop.
    + destruct (getSessionByWindowId _ w) as [s |] eqn:Hs; [| done].
      apply sessions_set_Forall; [done |].
      apply (reachable_step s ClearMessages). by eapply Hget.
    + unfold importMessages_handler.
      destruct (getSessionByWindowId _ w) as [s |] eqn:Hs.
      * pose proof (reachable_step s (ImportMessages now items)
                      (Hget _ _ Hs)) as Hr. cbn [step] in Hr.
        destruct (importMessages now s items 0) as [s' n].
        by apply sessions_set_Forall.
      * pose proof (reachable_step _ (ImportMessages now items)
                      (reachable_created w (-1) false)) as Hr.
        cbn [step] in Hr. destruct (importMessages now _ items 0) as [s' n].
        by apply sessions_set_Forall.
  - unfold onWindowRemoved. destruct (getSessionByWindowId _ w); [| done].
    apply Hstop.
  - unfold onClicked. destruct t as [t |]; [| done].
    by destruct (tab.id t =? 0)%Z.
  - destruct (background.tabListeners bg); [| done].
    cbn [with_sessions background.sessions].
    destruct e as [t | t]; cbn [tab_step].
    + unfold onTabCreated. destruct (background.sessions bg) eqn:Hb; [done |].
      rewrite <- Hb in *. destruct (truthy_id _); [| done].
      apply (update_by_tab_Forall (reachable host)); [done |]. intros s Hs.
      apply (reachable_step s (TabAdded (tab.id t)) Hs).
    + apply (update_by_tab_Forall (reachable host)); [done |]. intros s Hs.
      apply (reachable_step s (TabDeleted t) Hs).
  - apply (update_by_tab_Forall (reachable host)); [done |]. intros s Hs.
    apply (reachable_step s (Completed d) Hs).
  - cbn [with_sessions background.sessions]. unfold commit.
    destruct (getSessionByWindowId _ w) as [s |] eqn:Hs; [| done].
    destruct (is_commit e); [| done].
    apply (sessions_set_Forall (reachable host)); [done |].
    apply reachable_step. by eapply Hget.
Qed.

Lemma background_reachable_sessions bg :
  background_reachable host bg →
  Forall (λ p, reachable host (snd p)) (background.sessions bg).
Proof.
  intros [es ->]. unfold background_run.
  assert (Forall (λ p, reachable host (snd p))
            (background.sessions background_init)) as Hinit by constructor.
  revert Hinit. generalize background_init.
  induction es as [| e es IH]; intros bg Hbg; [done |].
  cbn [fold_left]. by apply IH, background_step_reachable.
Qed.

End Lifting.

(** X25. Every session in the registry of a state the background page
    reaches is a state a session reaches from [createSession] by the
    steps of the handlers, so what holds of those states holds of the
    sessions the page serves: [getMessages] answers with the messages of
    the window's session, at most [MAX_MESSAGES] of them, with growing
    ids and no two with the same kind and text. *)
Theorem registered_session_reachable
    (host : Host) (now : string) (bg : background.t) (w : Z)
    (s : SessionState) :
  background_reachable host bg →
  (w, s) ∈ background.sessions bg →
  reachable host s
  ∧ snd (onMessage now bg w msg.getMessages) = reply.messages (messages s)
  ∧ (length (messages s) ≤ MAX_MESSAGES)%nat
  ∧ ids_increasing (messages s)
  ∧ NoDup (keys_of (messages s)).
Proof.
  intros Hbg Hin.
  pose proof (background_reachable_sessions host bg Hbg) as Hall.
  rewrite Forall_forall in Hall. pose proof (Hall _ Hin) as Hs. cbn [snd] in Hs.
  destruct (background_reachable_ok host bg Hbg) as [Hu _ _ _ _].
  destruct (reachable_ok host s Hs) as [_ Hnodup Hlen].
  destruct (reachable_ids_ok host s Hs) as [Hids _].
  split; [done |]. split; [| done]. cbn [onMessage snd].
  by rewrite (getSessionByWindowId_Some _ _ _ Hu Hin).
Qed.

(** X25 at the capturing window of the sample run. *)
Lemma registered_session_reachable_witness :
  background_reachable get_host tracer_background
  ∧ (1%Z, set_isCapturing get_completed_session true)
      ∈ background.sessions tracer_background
  ∧ reachable get_host (set_isCapturing get_completed_session true).
Proof.
  assert (background_reachable get_host tracer_background) as Hreach
    by (by exists tracer_events).
  assert ((1%Z, set_isCapturing get_completed_session true)
            ∈ background.sessions tracer_background) as Hin.
  { assert (background.sessions tracer_background !! 0%nat
            = Some (1%Z, set_isCapturing get_completed_session true)) as H
      by (vm_compute; reflexivity).
    by eapply list_elem_of_lookup_2. }
  split; [exact Hreach |]. split; [exact Hin |].
  exact (proj1 (registered_session_reachable get_host sample_now
                  tracer_background 1 _ Hreach Hin)).
Defined.

(** X26. The text [decodeRawBody] returns depends only on the bytes of
    the parts taken together, not on how the body is split into parts or
    on parts without bytes: it is the decoded concatenation, and there is
    none when no part holds a byte or the decoded text is empty. *)
Theorem decodeRawBody_concat
    (host : Host) (d : details.t) (rb : body.t) (parts : list body.upload) :
  details.requestBody d = Some rb →
  body.raw rb = Some parts →
  decodeRawBody host d
  = match List.concat (List.map (λ p, default [] (body.bytes p)) parts) with
    | [] => None
    | bs => text_or_null (Some (TextDecoder_decode host bs))
    end.
Proof.
  intros Hrb Hraw. unfold decodeRawBody, bytesToUtf8. rewrite Hrb, Hraw.
  destruct parts as [| p parts]; [done |].
  generalize (List.map (λ p, default [] (body.bytes p)) (p :: parts)).
  intros l.
  assert (List.concat
            (List.filter (λ b : list byte, negb (length b =? 0)%nat) l)
          = List.concat l) as Hconcat.
  { induction l as [| b l IH]; [done |]. cbn [List.filter List.concat].
    destruct b as [| x b]; cbn [length Nat.eqb negb]; [done |].
    cbn [List.concat]. by rewrite IH. }
  rewrite <- Hconcat.
  destruct (List.filter _ l) as [| b l'] eqn:Hf; [done |].
  assert (b ≠ []) as Hb.
  { assert (In b (List.filter (λ b : list byte, negb (length b =? 0)%nat) l))
      as Hin by (rewrite Hf; by left).
    apply filter_In in Hin as [_ Hlen]. by destruct b. }
  cbn [List.concat]. by destruct b.
Qed.

(** X26 at a body of one part. *)
Lemma decodeRawBody_concat_witness :
  decodeRawBody bare_host (post_with_body "<a/>") = Some "<a/>".
Proof.
  rewrite (decodeRawBody_concat bare_host (post_with_body "<a/>")
             {| body.formData := None;
                body.raw := Some [ {| body.bytes := Some (bytes_of_text "<a/>") |} ] |}
             [ {| body.bytes := Some (bytes_of_text "<a/>") |} ]).
  - reflexivity.
  - reflexivity.
  - reflexivity.
Defined.

(** ** The capturing flag *)

Section Flag.
Context (host : Host).
Implicit Types (s : SessionState) (sessions : registry).












End Flag.



(** ** A full store *)

Section FullStore.

Lemma numbered_xml_inj i j : numbered_xml i = numbered_xml j → i = j.
Proof.
  unfold numbered_xml. intros H.
  apply (inj (String.app "<m")) in H. apply append_inv_tail in H.
  by apply (inj pretty) in H.
Qed.

Lemma numbered_xml_trim i : trim (numbered_xml i) = numbered_xml i.
Proof.
  unfold numbered_xml, trim.
  change ("<m" +:+ pretty i +:+ "/>") with (String "<" ("m" +:+ pretty i +:+ "/>")).
  rewrite trimStart_fixed by done.
  change (String "<" ("m" +:+ pretty i +:+ "/>"))
    with (("<m" +:+ pretty i) +:+ "/>").
  by rewrite trimEnd_append.
Qed.

Lemma numbered_xml_text i :
  import_text_of (ItemString (numbered_xml i)) = Text (numbered_xml i).
Proof.
  cbn [import_text_of]. rewrite looksLikeXML_trim, numbered_xml_trim.
  unfold numbered_xml.
  change ("<m" +:+ pretty i +:+ "/>") with (String "<" ("m" +:+ pretty i +:+ "/>")).
  cbn [truthy negb startsWith]. by rewrite startsWith_empty.
Qed.

Lemma numbered_entry_key_inj i j :
  key_of (numbered_entry i) = key_of (numbered_entry j) → i = j.
Proof.
  unfold key_of, makeDedupKey. cbn [kind xml numbered_entry sample_entry].
  intros H. apply (inj (String.app "SAMLResponse")) in H.
  apply (inj (String.app "|")) in H. by apply numbered_xml_inj.
Qed.

Lemma guessKindFromXML_assigned x : guessKindFromXML x ∈ assigned_kinds.
Proof. by destruct (import_entry_ok "" x 0) as (_ & _ & _ & H). Qed.

Lemma numbered_import_key i j k :
  k ∈ assigned_kinds →
  import_key (numbered_xml i) = makeDedupKey k (numbered_xml j) → i = j.
Proof.
  unfold import_key. rewrite numbered_xml_trim. intros Hk H.
  apply makeDedupKey_assigned in H as [_ H];
    [by apply numbered_xml_inj | apply guessKindFromXML_assigned | done].
Qed.

Lemma numbered_entries_NoDup a n :
  NoDup (keys_of (numbered_entry <$> seq a n)).
Proof.
  unfold keys_of. rewrite <- list_fmap_compose.
  apply NoDup_fmap_2; [| apply NoDup_seq].
  intros i j. apply numbered_entry_key_inj.
Qed.

Lemma import_texts_numbered n :
  import_texts (numbered_items n) = numbered_xml <$> seq 0 n.
Proof.
  unfold numbered_items, import_texts. induction (seq 0 n) as [| i l IH];
    [done |].
  cbn [fmap list_fmap flat_map]. rewrite numbered_xml_text. cbn [app].
  f_equal. apply IH.
Qed.

Lemma numbered_items_NoDup n :
  NoDup (import_key <$> import_texts (numbered_items n)).
Proof.
  rewrite import_texts_numbered, <- list_fmap_compose.
  apply NoDup_fmap_2; [| apply NoDup_seq].
  intros i j H. cbn in H. apply (numbered_import_key i j (guessKindFromXML (numbered_xml j)));
    [apply guessKindFromXML_assigned |].
  rewrite H. unfold import_key. by rewrite numbered_xml_trim.
Qed.

Lemma numbered_items_text n it :
  it ∈ numbered_items n → import_text_of it ≠ Throws.
Proof.
  unfold numbered_items. intros (i & -> & _)%list_elem_of_fmap.
  by rewrite numbered_xml_text.
Qed.

Lemma full_session_import :
  full_session
  = fst (importMessages sample_now (createSession 1 7) (numbered_items 1000) 0).
Proof. reflexivity. Qed.

Lemma full_session_length : length (messages full_session) = MAX_MESSAGES.
Proof.
  assert (MAX_MESSAGES = 1000%nat) as Hmax by (by vm_compute).
  pose proof (importMessages_fresh sample_now (createSession 1 7)
                (numbered_items 1000) 0 (numbered_items_NoDup 1000)) as Hn.
  rewrite import_texts_numbered, length_fmap, length_seq in Hn.
  assert (snd (importMessages sample_now (createSession 1 7)
                 (numbered_items 1000) 0) = Some 1000%nat) as Hsnd.
  { apply Hn; [| apply numbered_items_text].
    intros x _ Hin. by apply elem_of_empty in Hin. }
  destruct (importMessages_count sample_now (createSession 1 7)
              (numbered_items 1000) 0 full_session 1000
              (store_ok_create 1 7)) as (_ & Hlen & _).
  { rewrite full_session_import, <- Hsnd. apply surjective_pairing. }
  rewrite Hlen, Hmax. reflexivity.
Qed.

Lemma full_session_fresh :
  key_of (numbered_entry 1000) ∉ seenKeys full_session.
Proof.
  rewrite full_session_import.
  intros [Hin | Hin]%importMessages_seen_incl.
  - by apply elem_of_empty in Hin.
  - rewrite import_texts_numbered, <- list_fmap_compose in Hin.
    apply list_elem_of_fmap in Hin as (i & Hkey & Hi%elem_of_seq).
    cbn in Hkey. symmetry in Hkey.
    apply (numbered_import_key i 1000 "SAMLResponse") in Hkey; [lia |].
    right. left.
Qed.

End FullStore.

(** C2 at a full store. The 1001 entries for the documents [<m0/>] to
    [<m1000/>] appended to a fresh session leave the last 1000, without the
    first, its key and its request; and a session that has imported the
    1000 documents [<m0/>] to [<m999/>] is full, and the append of a
    further document removes its oldest message and the key of that
    message. *)
Lemma store_bounded_fifo_eviction_witness :
  length (numbered_entry <$> seq 1 1000) = MAX_MESSAGES
  ∧ NoDup (keys_of (numbered_entry 0 :: (numbered_entry <$> seq 1 1000)))
  ∧ messages (add_all (createSession 1 7)
                (numbered_entry 0 :: (numbered_entry <$> seq 1 1000)))
    = numbered_entry <$> seq 1 1000
  ∧ (numbered_entry 0
       ∉ messages (add_all (createSession 1 7)
                     (numbered_entry 0 :: (numbered_entry <$> seq 1 1000))))
  ∧ (key_of (numbered_entry 0)
       ∉ seenKeys (add_all (createSession 1 7)
                     (numbered_entry 0 :: (numbered_entry <$> seq 1 1000))))
  ∧ (requestIdToMessageId
       (add_all (createSession 1 7)
          (numbered_entry 0 :: (numbered_entry <$> seq 1 1000)))
       !! ("req-" +:+ pretty 0%nat)) = None
  ∧ reachable bare_host full_session
  ∧ length (messages full_session) = MAX_MESSAGES
  ∧ (key_of (numbered_entry 1000) ∉ seenKeys full_session)
  ∧ (length (messages full_session) ≤ MAX_MESSAGES)%nat
  ∧ ∀ removed rest,
      messages full_session = removed :: rest →
      messages (fst (addMessage full_session (numbered_entry 1000)))
      = rest ++ [numbered_entry 1000]
      ∧ length (messages (fst (addMessage full_session (numbered_entry 1000))))
        = MAX_MESSAGES
      ∧ (key_of removed
           ∉ seenKeys (fst (addMessage full_session (numbered_entry 1000)))).
Proof.
  destruct store_bounded_fifo_eviction as (Hmax & Hbound & Hfill & Hevict).
  assert (length (numbered_entry <$> seq 1 1000) = MAX_MESSAGES) as Hlen.
  { rewrite length_fmap, length_seq. symmetry. exact Hmax. }
  assert (NoDup (keys_of (numbered_entry 0 :: (numbered_entry <$> seq 1 1000))))
    as Hnd by exact (numbered_entries_NoDup 0 1001).
  assert (reachable bare_host full_session) as Hreach.
  { exists 1%Z, 7%Z, [ImportMessages sample_now (numbered_items 1000)].
    reflexivity. }
  destruct (Hfill 1%Z 7%Z (numbered_entry 0) (numbered_entry <$> seq 1 1000)
              Hlen Hnd) as (Hms & _ & Hfirst & Hkey & Hindex & _).
  split; [exact Hlen |]. split; [exact Hnd |]. split; [exact Hms |].
  split; [exact Hfirst |]. split; [exact Hkey |].
  split; [exact (Hindex ("req-" +:+ pretty 0%nat) eq_refl eq_refl) |].
  split; [exact Hreach |]. split; [exact full_session_length |].
  split; [exact full_session_fresh |].
  split; [exact (Hbound bare_host full_session Hreach) |].
  intros removed rest Hfull.
  destruct (Hevict bare_host full_session (numbered_entry 1000) removed rest
              Hreach full_session_fresh Hfull full_session_length)
    as (Hrest & Hsame & Hgone & _).
  split; [exact Hrest |]. split; [exact Hsame | exact Hgone].
Defined.
